(** * VATPAC watchlist worker

    A shallow embedding of the Cloudflare worker of the VATPAC watchlist
    (the REST API version of [worker.js]): the single-document GitHub store
    with its optimistic-concurrency flush, the per-tick subrequest budget,
    the cache and its cleanup sweep, CID canonicalisation, the watchlist
    endpoints, the presence tracker and the quarterly trigger.

    The worker keeps its state in module-level variables and talks to the
    outside through [fetch]; both are made explicit here: a [world] record
    carries the module variables, the clock and the requests sent so far,
    and every [async] function becomes a function in the monad [M] of
    state, exceptions and a third outcome for the inputs this development
    does not give a meaning to. *)

From Stdlib Require Import ZArith String Ascii List Lia Bool.
From Stdlib Require Import DecimalString DecimalN DecimalFacts.
From stdpp Require Import gmap strings list fin_maps sorting.

Set Warnings "-register-all".

Open Scope Z_scope.

(* ===================================================================== *)
(** * JavaScript values and built-ins *)
(* ===================================================================== *)

Module JS.

(** JSON values. Numbers are the integers (epoch seconds, counters, CIDs);
    fractions and NaN are not represented. Objects are finite maps: the
    worker never depends on the order of keys. *)
Inductive json : Type :=
| JNull
| JBool (b : bool)
| JNum (z : Z)
| JStr (s : string)
| JArr (l : list json)
| JObj (m : gmap string json).

(** [!!v], with [None] standing for [undefined]. *)
Definition truthy (v : json) : bool :=
  match v with
  | JNull => false
  | JBool b => b
  | JNum z => negb (z =? 0)
  | JStr s => negb (String.eqb s "")
  | JArr _ | JObj _ => true
  end.

Definition truthy_opt (o : option json) : bool := from_option truthy false o.

(** [v.k] for a property name [k] that no prototype defines ([cached_at],
    [expiresAt], [online], [last_info], [ok], ...): only an object has it. *)
Definition field (v : json) (k : string) : option json :=
  match v with JObj m => m !! k | _ => None end.

(** [typeof v.k === "number" ? v.k : undefined]. *)
Definition number_field (v : json) (k : string) : option Z :=
  match field v k with Some (JNum z) => Some z | _ => None end.

(** [typeof v === "object"]: arrays, objects, and [null]. *)
Definition typeof_object (v : json) : bool :=
  match v with JNull | JArr _ | JObj _ => true | _ => false end.

(** [a || b] on optional strings: the empty string is falsy. *)
Definition str_or (a : option string) (b : string) : string :=
  match a with
  | Some s => if String.eqb s "" then b else s
  | None => b
  end.

Definition nonempty (a : option string) : option string :=
  match a with
  | Some s => if String.eqb s "" then None else Some s
  | None => None
  end.

(** ** Digits and decimal numerals *)

Definition is_digit (c : ascii) : bool :=
  match Ascii.is_nat c with Some _ => true | None => false end.

(** [s.replace(/\D+/g, "")]. *)
Fixpoint strip_non_digits (s : string) : string :=
  match s with
  | EmptyString => EmptyString
  | String c r =>
      if is_digit c then String c (strip_non_digits r) else strip_non_digits r
  end.

Fixpoint all_digits (s : string) : bool :=
  match s with
  | EmptyString => true
  | String c r => is_digit c && all_digits r
  end.

(** [/^\d{3,10}$/.test(d)]. *)
Definition test_3_10_digits (d : string) : bool :=
  all_digits d && (3 <=? String.length d)%nat && (String.length d <=? 10)%nat.

(** [/^\d+$/.test(d)]. *)
Definition test_digits (d : string) : bool :=
  all_digits d && (1 <=? String.length d)%nat.

(** [Number(s)] for a string of decimal digits (the empty string gives 0).
    The conversion is exact below 2^53, hence for up to 15 digits; longer
    numerals and strings with other characters (signs, blanks, fractions,
    exponents) are not given a value. *)
Definition Number (s : string) : option Z :=
  if (String.length s <=? 15)%nat
  then (fun d => Z.of_N (N.of_uint d)) <$> NilEmpty.uint_of_string s
  else None.

(** [String(n)] for an integer. *)
Definition String_of_Z (z : Z) : string :=
  if z <? 0
  then "-" +:+ NilZero.string_of_uint (N.to_uint (Z.to_N (- z)))
  else NilZero.string_of_uint (N.to_uint (Z.to_N z)).

(** "Leading zeros stripped", as the spec puts it: the numeral without
    its leading zeros, and "0" when nothing else is left. *)
Fixpoint drop_zeros (s : string) : string :=
  match s with
  | String "0"%char r => drop_zeros r
  | _ => s
  end.

Definition leading_zeros_stripped (d : string) : string :=
  match drop_zeros d with
  | EmptyString => "0"
  | r => r
  end.

(** [s] with [n] zeros put in front. *)
Fixpoint pad_zeros (n : nat) (s : string) : string :=
  match n with
  | O => s
  | S k => String "0" (pad_zeros k s)
  end.

(** A numeral of two or more characters that starts with 0. *)
Definition leading_zero (s : string) : bool :=
  match s with
  | String "0"%char (String _ _) => true
  | _ => false
  end.

(** [String(v)]: arrays join their elements with commas, [null] elements
    giving the empty string. *)
Fixpoint String_of (v : json) : string :=
  match v with
  | JNull => "null"
  | JBool true => "true"
  | JBool false => "false"
  | JNum z => String_of_Z z
  | JStr s => s
  | JArr l =>
      (fix join (l : list json) : string :=
         match l with
         | [] => ""
         | x :: r =>
             let sx := match x with JNull => "" | _ => String_of x end in
             match r with
             | [] => sx
             | _ :: _ => sx +:+ "," +:+ join r
             end
         end) l
  | JObj _ => "[object Object]"
  end.

(** [v.length]: the length of an array or a string, the property of that
    name of an object. *)
Definition length_of (v : json) : option json :=
  match v with
  | JArr l => Some (JNum (Z.of_nat (length l)))
  | JStr s => Some (JNum (Z.of_nat (String.length s)))
  | JObj m => m !! "length"
  | _ => None
  end.

(** [a < b] where both sides are numbers or [undefined]; other operands
    (which JavaScript would first coerce) give [None]. *)
Definition less_than (a b : option json) : option bool :=
  match a, b with
  | Some (JNum x), Some (JNum y) => Some (x <? y)
  | None, (None | Some (JNum _)) | Some (JNum _), None => Some false
  | _, _ => None
  end.

(** [s.trim()] (white space of the ASCII range) and [s.endsWith(t)]. *)
Fixpoint trim_start (s : string) : string :=
  match s with
  | String c r => if Ascii.is_space c then trim_start r else s
  | EmptyString => EmptyString
  end.

Definition trim (s : string) : string :=
  String.rev (trim_start (String.rev (trim_start s))).

Definition endsWith (s t : string) : bool :=
  String.prefix (String.rev t) (String.rev s).

(** ** UTC calendar fields of an instant given in milliseconds *)

Definition ms_per_day : Z := 86400000.

(** Civil date (year, month 1..12, day 1..31) of a day count since
    1970-01-01, in the proleptic Gregorian calendar. *)
Definition civil_of_days (days : Z) : Z * Z * Z :=
  let z := days + 719468 in
  let era := z / 146097 in
  let doe := z - era * 146097 in
  let yoe := (doe - doe / 1460 + doe / 36524 - doe / 146096) / 365 in
  let doy := doe - (365 * yoe + yoe / 4 - yoe / 100) in
  let mp := (5 * doy + 2) / 153 in
  let d := doy - (153 * mp + 2) / 5 + 1 in
  let m := if mp <? 10 then mp + 3 else mp - 9 in
  let y := yoe + era * 400 + (if m <=? 2 then 1 else 0) in
  (y, m, d).

Definition getUTCFullYear (ms : Z) : Z := fst (fst (civil_of_days (ms / ms_per_day))).
Definition getUTCMonth (ms : Z) : Z := snd (fst (civil_of_days (ms / ms_per_day))) - 1.
Definition getUTCDate (ms : Z) : Z := snd (civil_of_days (ms / ms_per_day)).
Definition getUTCHours (ms : Z) : Z := (ms mod ms_per_day) / 3600000.

End JS.

Export JS.

(* ===================================================================== *)
(** * The worker *)
(* ===================================================================== *)

Module Worker.

(** ** Constants *)

Definition SLICE_SIZE : Z := 10.
Definition BLOCK_SIZE : Z := 4.
Definition MAX_TICK_MS : Z := 12000.
Definition SUBREQ_BUDGET_PER_TICK : Z := 120.

Definition COOLDOWN_online : Z := 15 * 60.
Definition COOLDOWN_offline : Z := 15 * 60.
Definition COOLDOWN_flag : Z := 24 * 60 * 60.

Definition STORE_CLEANUP_INTERVAL : Z := 6 * 60 * 60.
Definition STORE_CLEANUP_KEY : string := "_last_cleanup".

Module KV.
Definition WATCHLIST : string := "watchlist".
Definition STATE : string := "online_state".
Definition JOB : string := "audit:job".
Definition rating (cid : string) : string := "rating:" +:+ cid.
Definition member (cid : string) : string := "member:" +:+ cid.
Definition PARTIAL (scope : string) : string := "audit:partial:" +:+ scope.
Definition Q_AUTO (key : string) : string := "quarter:auto:" +:+ key.
End KV.

Module TTL.
Definition CALLSIGNS_24H : Z := 24 * 60 * 60.
Definition RATING_24H : Z := 24 * 60 * 60.
Definition DIVISION_24H : Z := 24 * 60 * 60.
Definition MEMBER_7D : Z := 7 * 24 * 60 * 60.
Definition AUDIT_24H : Z := 24 * 60 * 60.
Definition TMS_15M : Z := 15 * 60.
End TTL.

(** ** The environment: configuration, requests and responses *)

Record env := Env {
  ALLOWED_ORIGIN : option string;
  GITHUB_DIR : option string
}.

(** The requests the worker sends. The repository, branch, token and the
    fixed headers are those of the deployment and are left out. *)
Inductive request : Type :=
| GithubGet (path : string)
| GithubPut (path : string) (doc : gmap string json)
            (prevSha : option string) (message : string)
| VatsimData
| VatsimMember (cid : string).

(** What [JSON.parse(unb64(j.content))] finds in a GitHub contents answer.
    The stored document is a JSON object (spec, data model). *)
Inductive content : Type :=
| CAbsent
| CDocument (doc : gmap string json)
| CMalformed.

(** What [r.json().catch(() => ({}))] gives, by the shape the code reads
    from it: the contents and the commit answers of GitHub; an object with
    a [controllers] property, the data feed of VATSIM; the JSON text
    [null], which has no properties to read; and [POther] for every other
    value, where none of the properties read is defined, and for a body
    that is not JSON at all, which the [catch] turns into [{}]. *)
Inductive payload : Type :=
| POther
| PContents (sha : option string) (c : content)
| PCommit (sha : option string)
| PFeed (controllers : json)
| PNull.

Record response := Response {
  status : Z;
  retry_after : option Z;
  text : string;
  body_json : payload
}.

Definition ok (r : response) : bool := (200 <=? status r) && (status r <=? 299).

Inductive fetch_result : Type :=
| NetworkError
| Answer (r : response).

(** ** The worker's state *)

Record world := World {
  GH_STORE : option (gmap string json);
  GH_STORE_SHA : option string;
  GH_STORE_DIRTY : bool;
  subreqCount : Z;
  clock : Z;
  sent : list request;
  net : list request -> request -> fetch_result * Z
}.

Definition with_store (s : option (gmap string json)) (w : world) : world :=
  World s (GH_STORE_SHA w) (GH_STORE_DIRTY w) (subreqCount w) (clock w) (sent w) (net w).
Definition with_sha (s : option string) (w : world) : world :=
  World (GH_STORE w) s (GH_STORE_DIRTY w) (subreqCount w) (clock w) (sent w) (net w).
Definition with_dirty (b : bool) (w : world) : world :=
  World (GH_STORE w) (GH_STORE_SHA w) b (subreqCount w) (clock w) (sent w) (net w).
Definition with_subreq (n : Z) (w : world) : world :=
  World (GH_STORE w) (GH_STORE_SHA w) (GH_STORE_DIRTY w) n (clock w) (sent w) (net w).
Definition with_clock (t : Z) (w : world) : world :=
  World (GH_STORE w) (GH_STORE_SHA w) (GH_STORE_DIRTY w) (subreqCount w) t (sent w) (net w).
Definition with_sent (l : list request) (w : world) : world :=
  World (GH_STORE w) (GH_STORE_SHA w) (GH_STORE_DIRTY w) (subreqCount w) (clock w) l (net w).

(** ** The monad of the worker's functions *)

(** An exception, by its [message]. For the errors the engine raises
    itself (TypeError, RangeError, SyntaxError) the message is the text of
    V8 in [canonicalCID], [getOnlineMap] and the store calls, and a short
    form of it elsewhere. *)
Record exn := Error { message : string }.

(** The text [""] as V8 prints the empty string literal of the source. *)
Definition empty_literal : string := String "034" (String "034" EmptyString).

(** Reading a property of [null]. *)
Definition null_has_no (property : string) : exn :=
  Error ("Cannot read properties of null (reading '" +:+ property +:+ "')").

(** How a call ends: with a value, with an exception, or [Beyond] where
    the input is outside what this development gives a meaning to (a
    document that does not follow the data model, coercions between
    types). [Beyond] is not an exception: no [catch] sees it. *)
Inductive outcome (A : Type) : Type :=
| Ok (a : A)
| Throw (e : exn)
| Beyond.
Arguments Ok {A} a.
Arguments Throw {A} e.
Arguments Beyond {A}.

Definition M (A : Type) : Type := world -> outcome A * world.

Definition ret {A} (a : A) : M A := fun w => (Ok a, w).
Definition throw {A} (e : exn) : M A := fun w => (Throw e, w).
Definition beyond {A} : M A := fun w => (Beyond, w).

Definition bind {A B} (c : M A) (k : A -> M B) : M B := fun w =>
  match c w with
  | (Ok a, w') => k a w'
  | (Throw e, w') => (Throw e, w')
  | (Beyond, w') => (Beyond, w')
  end.

Notation "'let*' x ':=' c 'in' k" := (bind c (fun x => k))
  (at level 10, x name, c at level 100, k at level 200).
Notation "c ';;' k" := (bind c (fun _ => k))
  (at level 100, k at level 200, right associativity).

Definition try_catch {A} (c : M A) (handler : exn -> M A) : M A := fun w =>
  match c w with
  | (Throw e, w') => handler e w'
  | r => r
  end.

(** [try { c } finally { f }] for an [f] that returns normally. *)
Definition try_finally {A} (c : M A) (f : M unit) : M A := fun w =>
  match c w with
  | (r, w') =>
      match f w' with
      | (Ok _, w'') => (r, w'')
      | (Throw e, w'') => (Throw e, w'')
      | (Beyond, w'') => (Beyond, w'')
      end
  end.

Definition read {A} (f : world -> A) : M A := fun w => (Ok (f w), w).
Definition update (f : world -> world) : M unit := fun w => (Ok tt, f w).

Fixpoint for_each {A} (l : list A) (body : A -> M unit) : M unit :=
  match l with
  | [] => ret tt
  | x :: r => body x ;; for_each r body
  end.

(** ** Time and budgets *)

(** [Date.now()] and [ts()]. *)
Definition Date_now : M Z := read clock.
Definition ts : M Z := let* t := Date_now in ret (t / 1000).

Definition sleep (ms : Z) : M unit :=
  update (fun w => with_clock (clock w + Z.max 0 ms) w).

Definition resetBudgets : M unit := update (with_subreq 0).

(** [fetch]: the environment answers, from the requests it has seen, with
    a result and the time the exchange took. *)
Definition fetch (rq : request) : M fetch_result := fun w =>
  let '(r, dt) := net w (sent w) rq in
  (Ok r, with_clock (clock w + Z.max 0 dt) (with_sent (sent w ++ [rq]) w)).

(** ** The single-file GitHub store *)

Definition storePath (e : env) : string := str_or (GITHUB_DIR e) "cf-cache" +:+ "/store.json".

(** The loop of [ghFetch], entered with [remaining] attempts left
    ([attempt = maxAttempts - remaining + 1]) and the current back-off. *)
Fixpoint ghFetch_loop (remaining : nat) (backoff : Z) (rq : request) : M (option response) :=
  match remaining with
  | O => ret None
  | S k =>
      let* res := fetch rq in
      match res with
      | NetworkError =>
          match k with
          | O => ret None
          | S _ =>
              sleep backoff ;;
              ghFetch_loop k (Z.min 15000 (backoff * 18 / 10)) rq
          end
      | Answer r =>
          if ((status r =? 403) || (status r =? 429) || (500 <=? status r))
             && negb (Nat.eqb k 0)
          then
            let waitMs := match retry_after r with
                          | Some ra => ra * 1000
                          | None => backoff
                          end in
            sleep (Z.min 15000 waitMs) ;;
            ghFetch_loop k (Z.min 15000 (backoff * 18 / 10)) rq
          else ret (Some r)
      end
  end.

Definition ghFetch (rq : request) (maxAttempts : nat) : M (option response) :=
  ghFetch_loop maxAttempts 700 rq.

(** The object [ghGet] and [ghPut] return: [{ok:true, sha, json}] or
    [{ok:false, status, text}]. *)
Inductive gh_result : Type :=
| GhOk (sha : option string) (json : gmap string json)
| GhFail (status : Z) (text : option string).

Definition gh_ok (r : gh_result) : bool :=
  match r with GhOk _ _ => true | GhFail _ _ => false end.

(** [r.status], which only a failure carries ([undefined] otherwise, here
    a value no status equals). *)
Definition gh_status (r : gh_result) : Z :=
  match r with GhOk _ _ => -1 | GhFail st _ => st end.

Definition budget_check : M unit :=
  let* n := read subreqCount in
  if SUBREQ_BUDGET_PER_TICK <=? n
  then throw (Error "subrequest budget")
  else update (fun w => with_subreq (subreqCount w + 1) w).

Definition ghGet (e : env) (path : string) : M gh_result :=
  budget_check ;;
  let* r := ghFetch (GithubGet path) 3 in
  match r with
  | None => ret (GhFail 0 (Some "github fetch failed"))
  | Some r =>
      if status r =? 404 then ret (GhFail 404 None)
      else if negb (ok r) then ret (GhFail (status r) (Some (text r)))
      else match body_json r with
           | PContents sha (CDocument doc) => ret (GhOk sha doc)
           | PContents sha CAbsent => ret (GhOk sha ∅)
           | PContents sha CMalformed => throw (Error "Unexpected token in JSON")
           | PNull => throw (null_has_no "content")
           | _ => ret (GhOk None ∅)
           end
  end.

(** The message a PUT carries: [message || `bot: update ${path}`]. *)
Definition commit_message (msg path : string) : string :=
  if String.eqb msg "" then "bot: update " +:+ path else msg.

Definition ghPut (e : env) (path : string) (obj : gmap string json)
    (prevSha : option string) (msg : string) : M gh_result :=
  budget_check ;;
  let* r := ghFetch (GithubPut path obj (nonempty prevSha) (commit_message msg path)) 3 in
  match r with
  | None => ret (GhFail 0 (Some "github fetch failed"))
  | Some r =>
      if negb (ok r) then ret (GhFail (status r) (Some (text r)))
      else match body_json r with
           | PCommit sha => ret (GhOk (nonempty sha) ∅)
           | PNull => throw (null_has_no "content")
           | _ => ret (GhOk None ∅)
           end
  end.

Definition storeLoad (e : env) : M unit :=
  let* st := read GH_STORE in
  match st with
  | Some _ => ret tt
  | None =>
      let* r := ghGet e (storePath e) in
      match r with
      | GhOk sha doc =>
          update (with_store (Some doc)) ;;
          update (with_sha (nonempty sha))
      | GhFail st _ =>
          if st =? 404 then update (with_store (Some ∅))
          else throw (Error ("GitHub GET failed " +:+ String_of_Z st))
      end
  end.

(** [GH_STORE] where the code dereferences it ([hasOwnProperty.call],
    [GH_STORE[key] = val], [Object.keys]): a [TypeError] while it is still
    [null]. *)
Definition the_store : M (gmap string json) := fun w =>
  match GH_STORE w with
  | Some st => (Ok st, w)
  | None => (Throw (Error "Cannot convert undefined or null to object"), w)
  end.

(** [GH_STORE] where [storeFlush] serialises it. The store is dirty only
    after [storeSet] or [storeDel], which need a document: dirty without
    one does not occur. *)
Definition the_document : M (gmap string json) := fun w =>
  match GH_STORE w with
  | Some st => (Ok st, w)
  | None => (Beyond, w)
  end.

Definition slice_200 (s : string) : string := String.substring 0 200 s.

(** The error [storeFlush] raises for a PUT that did not go through. *)
Definition put_failed (st : Z) (txt : option string) : exn :=
  Error ("GitHub PUT failed " +:+ String_of_Z st +:+ ": "
           +:+ str_or (slice_200 <$> txt) "").

(** The end of [storeFlush], from [if (!r.ok) throw ...] on. *)
Definition flush_commit (r : gh_result) : M unit :=
  match r with
  | GhFail st txt => throw (put_failed st txt)
  | GhOk sha _ =>
      update (fun w => with_sha (match sha with
                                 | Some s => Some s
                                 | None => GH_STORE_SHA w
                                 end) w) ;;
      update (with_dirty false)
  end.

Definition storeFlush (e : env) (msg : string) : M unit :=
  let* dirty := read GH_STORE_DIRTY in
  if negb dirty then ret tt else
  let path := storePath e in
  let* local := the_document in
  let* sha := read GH_STORE_SHA in
  let* r := ghPut e path local sha msg in
  let* r :=
    if negb (gh_ok r) && (gh_status r =? 409) then
      let* remote := ghGet e path in
      match remote with
      | GhOk rsha rdoc =>
          update (with_store (Some (local ∪ rdoc))) ;;
          update (with_sha (nonempty rsha)) ;;
          ghPut e path (local ∪ rdoc) (nonempty rsha) msg
      | GhFail _ _ => ret r
      end
    else ret r in
  flush_commit r.

Definition storeGet (key : string) (fb : json) : M json :=
  let* st := the_store in ret (default fb (st !! key)).

Definition storeSet (key : string) (val : json) : M unit :=
  let* st := the_store in
  update (with_store (Some (<[key := val]> st))) ;;
  update (with_dirty true).

Definition storeDel (key : string) : M unit :=
  let* st := the_store in
  match st !! key with
  | Some _ =>
      update (with_store (Some (delete key st))) ;;
      update (with_dirty true)
  | None => ret tt
  end.

Definition kvGetJSON (e : env) (key : string) (fb : json) : M json :=
  storeLoad e ;; storeGet key fb.
Definition kvPutJSON (e : env) (key : string) (obj : json) : M unit :=
  storeLoad e ;; storeSet key obj.
Definition kvDelete (e : env) (key : string) : M unit :=
  storeLoad e ;; storeDel key.

(** [maxAgeSec] is [None] when the caller leaves it out. *)
Definition cacheGet (e : env) (key : string) (maxAgeSec : option Z) : M (option json) :=
  let* j := kvGetJSON e key JNull in
  if negb (truthy j) then ret None else
  let t := number_field j "cached_at" in
  match maxAgeSec with
  | None | Some 0 => ret (Some j)
  | Some maxAge =>
      match t with
      | None | Some 0 => ret None
      | Some t =>
          let* now := ts in
          if now - t >? maxAge then ret None else ret (Some j)
      end
  end.

Definition cachePut (e : env) (key : string) (obj : gmap string json) : M unit :=
  let* now := ts in
  kvPutJSON e key (JObj (<["cached_at" := JNum now]> obj)).

(** ** Store cleanup *)

Definition ttlMap : list (string * Z) :=
  [ ("rating:", TTL.RATING_24H);
    ("division:", TTL.DIVISION_24H);
    ("member:", TTL.MEMBER_7D);
    ("membermeta:", TTL.RATING_24H);
    ("audit:visiting:", TTL.AUDIT_24H);
    ("audit:local:", TTL.AUDIT_24H);
    ("cooldown:", Z.max (Z.max COOLDOWN_online COOLDOWN_offline) COOLDOWN_flag) ].

(** The inner loop over [Object.entries(ttlMap)]: the first prefix that
    matches decides, [TTL.RATING_24H] when none does. *)
Fixpoint maxAge_of (key : string) (m : list (string * Z)) : Z :=
  match m with
  | [] => TTL.RATING_24H
  | (prefix, ttl) :: rest =>
      if String.prefix prefix key then ttl else maxAge_of key rest
  end.

(** The body of the sweep for one key: does it push the key on
    [keysToDelete]? *)
Definition sweeps (now : Z) (key : string) (entry : json) : bool :=
  if String.eqb key STORE_CLEANUP_KEY then false
  else if negb (truthy entry) || negb (typeof_object entry) then false
  else
    let by_expiry :=
      match number_field entry "expiresAt" with
      | Some x => x <? now
      | None => false
      end in
    match number_field entry "cached_at" with
    | Some c => if now - c >? maxAge_of key ttlMap * 2 then true else by_expiry
    | None => by_expiry
    end.

Definition keysToDelete (now : Z) (st : gmap string json) : list string :=
  (map_to_list st).*1 ≫= (fun key =>
    match st !! key with
    | Some entry => if sweeps now key entry then [key] else []
    | None => []
    end).

Definition maybeCleanupStore (e : env) : M unit :=
  storeLoad e ;;
  let* lastCleanup := storeGet STORE_CLEANUP_KEY (JNum 0) in
  let* now := ts in
  match lastCleanup with
  | JNum last =>
      if now - last <? STORE_CLEANUP_INTERVAL then ret tt else
      let* st := the_store in
      for_each (keysToDelete now st) storeDel ;;
      storeSet STORE_CLEANUP_KEY (JNum now)
  | _ => beyond
  end.

(** What an exchange with the network leaves alone: the module variables
    of the store and the network itself. *)
Definition same_memory (w w' : world) : Prop :=
  GH_STORE w' = GH_STORE w /\ GH_STORE_SHA w' = GH_STORE_SHA w /\
  GH_STORE_DIRTY w' = GH_STORE_DIRTY w /\ net w' = net w.

(** ** The watchlist invariant (spec, data model) *)

(** A canonical CID: digits only, between [lo] and 10 of them, no leading
    zero. *)
Definition canonical_cid (lo : nat) (s : string) : Prop :=
  all_digits s = true /\ (lo <= String.length s <= 10)%nat /\ leading_zero s = false.

Definition numeric_lt (a b : string) : Prop :=
  exists x y, Number a = Some x /\ Number b = Some y /\ x < y.

(** The stored watchlist is an array of canonical CID strings, free of
    duplicates and in ascending numeric order. *)
Definition watchlist_invariant (lo : nat) (v : json) : Prop :=
  exists l : list string,
    v = JArr (JStr <$> l) /\ Forall (canonical_cid lo) l /\ NoDup l /\
    StronglySorted numeric_lt l.

(** ** The shape of the long-lived keys (spec, data model) *)

Definition job_fields : gset string :=
  {[ "scope"; "cids"; "cursor"; "total"; "created_at" ]}.

(** [watchlist] and [audit:partial:<scope>] hold arrays, [online_state]
    maps each CID to a record, [audit:job] is a record of the five job
    fields. Other keys are not constrained. *)
Definition follows_data_model (key : string) (v : json) : Prop :=
  (key = KV.WATCHLIST -> exists l, v = JArr l) /\
  (forall scope, key = KV.PARTIAL scope -> exists l, v = JArr l) /\
  (key = KV.STATE ->
     exists m, v = JObj m /\
       forall cid x, m !! cid = Some x -> exists r, x = JObj r) /\
  (key = KV.JOB -> exists m, v = JObj m /\ dom m ⊆ job_fields).

Definition long_lived (key : string) : Prop :=
  key = KV.WATCHLIST \/ key = KV.STATE \/ key = KV.JOB \/
  (exists scope, key = KV.PARTIAL scope) \/ key = STORE_CLEANUP_KEY.

(** ** Helper functions *)

Definition lift {A} (r : outcome A) : M A := fun w => (r, w).

(** The [TypeError] of [(s||"").replace(...)] on a value without that
    method. *)
Definition replace_is_not_a_function : exn :=
  Error ("(s || " +:+ empty_literal +:+ ").replace is not a function").

(** [canonicalCID(s)]. A falsy [s] is read as the empty string; any other
    value that is not a string has no [replace] method. *)
Definition canonicalCID (s : option json) : outcome (option string) :=
  let on_string (x : string) :=
    let d := strip_non_digits x in
    if negb (test_3_10_digits d) then Ok None
    else match Number d with
         | Some n => Ok (Some (String_of_Z n))
         | None => Beyond
         end in
  match s with
  | Some (JStr x) => on_string x
  | Some v =>
      if truthy v
      then Throw replace_is_not_a_function
      else on_string ""
  | None => on_string ""
  end.

(** [fetchWithTimeout]: the request is aborted (and the promise rejects)
    when the exchange takes longer than [timeoutMs]. *)
Definition fetchWithTimeout (rq : request) (timeoutMs : Z) : M response := fun w =>
  let '(r, dt) := net w (sent w) rq in
  let w' := with_sent (sent w ++ [rq]) w in
  if timeoutMs <? dt then (Throw (Error "timeout"), with_clock (clock w + timeoutMs) w')
  else
    let w'' := with_clock (clock w + Z.max 0 dt) w' in
    match r with
    | NetworkError => (Throw (Error "fetch failed"), w'')
    | Answer a => (Ok a, w'')
    end.

Definition trackedFetch (rq : request) : M (option response) :=
  let* n := read subreqCount in
  if SUBREQ_BUDGET_PER_TICK <=? n then ret None else
  update (fun w => with_subreq (subreqCount w + 1) w) ;;
  try_catch (let* r := fetchWithTimeout rq 25000 in ret (Some r))
            (fun _ => ret None).

Definition isValidMember (e : env) (cid : string) : M bool :=
  let k := KV.member cid in
  let* c := cacheGet e k (Some TTL.MEMBER_7D) in
  match c ≫= (fun c => field c "ok") with
  | Some (JBool b) => ret b
  | _ =>
      let* r := trackedFetch (VatsimMember cid) in
      let ok := match r with Some r => status r =? 200 | None => false end in
      cachePut e k {[ "ok" := JBool ok ]} ;;
      ret ok
  end.

(** ** Presence *)

(** [x || null]. *)
Definition or_default_null (o : option json) : json :=
  match o with
  | Some v => if truthy v then v else JNull
  | None => JNull
  end.

(** The controllers of [for (const c of data.controllers || [])], given
    the [controllers] property of the feed: the elements of an array,
    none for a falsy value, and a [TypeError] for any other value, which
    cannot be iterated. A string (iterable by characters) is left out. *)
Definition controllers_of (controllers : json) : outcome (list json) :=
  match controllers with
  | JArr l => Ok l
  | JStr s => if String.eqb s "" then Ok [] else Beyond
  | v => if truthy v
         then Throw (Error "(data.controllers || []) is not iterable")
         else Ok []
  end.

(** [c?.cid?.toString?.()]: the decimal digits of a number, a string as
    it is, [undefined] when there is no [cid] or it is [null]. Left out
    are a [cid] that is an array or an object, and a number of 2^53 or
    more, which the engine holds and prints as the nearest double. *)
Definition cid_of (c : json) : outcome (option string) :=
  match field c "cid" with
  | None | Some JNull => Ok None
  | Some (JStr s) => Ok (Some s)
  | Some (JNum n) => if Z.abs n <? 2 ^ 53 then Ok (Some (String_of_Z n)) else Beyond
  | Some (JBool b) => Ok (Some (String_of (JBool b)))
  | Some (JArr _ | JObj _) => Beyond
  end.

Fixpoint ascii_text (s : string) : bool :=
  match s with
  | EmptyString => true
  | String c r => (Ascii.nat_of_ascii c <? 128)%nat && ascii_text r
  end.

(** [(c?.callsign || "").trim()]: a [TypeError] for a callsign that is
    neither falsy nor a string; text beyond ASCII, where [trim] knows
    more white space, is left out. *)
Definition callsign_of (c : json) : outcome string :=
  match field c "callsign" with
  | None => Ok ""
  | Some (JStr s) => if ascii_text s then Ok (trim s) else Beyond
  | Some v =>
      if truthy v
      then Throw (Error ("(c?.callsign || " +:+ empty_literal
                           +:+ ").trim is not a function"))
      else Ok ""
  end.

(** The entry [getOnlineMap] records for one controller. *)
Definition info_of (callsign : string) (c : json) (now : Z) : json :=
  JObj (<["callsign" := JStr callsign]>
       (<["frequency" := or_default_null (field c "frequency")]>
       (<["name" := or_default_null (field c "name")]>
       {[ "last_seen" := JNum now ]}))).

(** One turn of the loop of [getOnlineMap]. *)
Definition add_controller (now : Z) (map : gmap string json) (c : json)
    : outcome (gmap string json) :=
  match cid_of c with
  | Ok cid =>
      match callsign_of c with
      | Ok callsign =>
          match nonempty cid with
          | None => Ok map
          | Some cid =>
              if endsWith callsign "_ATIS" then Ok map
              else Ok (<[cid := info_of callsign c now]> map)
          end
      | Throw err => Throw err
      | Beyond => Beyond
      end
  | Throw err => Throw err
  | Beyond => Beyond
  end.

(** The loop: the first controller that makes a turn throw ends it. *)
Fixpoint add_controllers (now : Z) (cs : list json) (map : gmap string json)
    : outcome (gmap string json) :=
  match cs with
  | [] => Ok map
  | c :: rest =>
      match add_controller now map c with
      | Ok map' => add_controllers now rest map'
      | Throw err => Throw err
      | Beyond => Beyond
      end
  end.

Definition getOnlineMap : M (gmap string json) :=
  let* r := trackedFetch VatsimData in
  match r with
  | None => ret ∅
  | Some r =>
      if negb (ok r) then ret ∅ else
      let data := body_json r in
      let* now := ts in
      match data with
      | PNull => throw (null_has_no "controllers")
      | PFeed controllers =>
          let* cs := lift (controllers_of controllers) in
          lift (add_controllers now cs ∅)
      | _ => ret ∅
      end
  end.

(** The elements of [(list || [])] where the code calls an array method
    on it ([map], [filter]): only an array has one. *)
Definition elements_of (lst : json) : outcome (list json) :=
  match lst with
  | JArr l => Ok l
  | v => if truthy v then Throw (Error "list.map is not a function") else Ok []
  end.

(** [(list || []).map(String)]. *)
Definition strings_of (lst : json) : outcome (list string) :=
  match elements_of lst with
  | Ok l => Ok (String_of <$> l)
  | Throw e => Throw e
  | Beyond => Beyond
  end.

(** [x || {}]. *)
Definition or_empty (o : option json) : json :=
  match o with
  | Some v => if truthy v then v else JObj ∅
  | None => JObj ∅
  end.

(** [Object.keys(v).length > 0]. *)
Definition has_keys (v : json) : bool :=
  match v with
  | JObj m => negb (Nat.eqb (size m) 0)
  | JArr l => negb (Nat.eqb (length l) 0)
  | JStr s => negb (String.eqb s "")
  | _ => false
  end.

(** One turn of the loop of [runPresence] over [all], at time [now]. *)
Definition presence_step (now : Z) (presence : gmap string json)
    (acc : gmap string json * bool) (cid : string) : gmap string json * bool :=
  let '(state, changed) := acc in
  let prev := or_empty (state !! cid) in
  let wasOnline := truthy_opt (field prev "online") in
  let prevInfo := or_empty (field prev "last_info") in
  let nowInfo := or_empty (presence !! cid) in
  let nowOnline := has_keys nowInfo in
  if nowOnline && negb wasOnline then
    (<[cid := JObj (<["online" := JBool true]> (<["last_change" := JNum now]>
                    {[ "last_info" := nowInfo ]}))]> state, true)
  else if negb nowOnline && wasOnline then
    (<[cid := JObj (<["online" := JBool false]> (<["last_change" := JNum now]>
                    {[ "last_info" := prevInfo ]}))]> state, true)
  else (state, changed).

Definition presence_loop (now : Z) (presence state : gmap string json)
    : gmap string json * bool :=
  fold_left (presence_step now presence)
            (elements (dom state ∪ dom presence)) (state, false).

(** Vocabulary for the presence tracker: [!!prev.online] of the stored
    state, [nowOnline] of the feed, and the record a transition writes. *)
Definition was_online (state : gmap string json) (cid : string) : bool :=
  truthy_opt (field (or_empty (state !! cid)) "online").

Definition is_online (presence : gmap string json) (cid : string) : bool :=
  has_keys (or_empty (presence !! cid)).

Definition online_record (online : bool) (now : Z) (info : json) : json :=
  JObj (<["online" := JBool online]> (<["last_change" := JNum now]>
        {[ "last_info" := info ]})).

(** What one turn of the loop writes for a CID, from its stored entry
    and its feed entry: [None] in the steady state. *)
Definition transition_of (now : Z) (prev info : option json) : option json :=
  let wasOnline := truthy_opt (field (or_empty prev) "online") in
  let nowOnline := has_keys (or_empty info) in
  if nowOnline && negb wasOnline then
    Some (online_record true now (or_empty info))
  else if negb nowOnline && wasOnline then
    Some (online_record false now (or_empty (field (or_empty prev) "last_info")))
  else None.

Definition runPresence (e : env) : M unit :=
  let* watch := kvGetJSON e KV.WATCHLIST (JArr []) in
  let* watchSet := lift (strings_of watch) in
  let* state := kvGetJSON e KV.STATE (JObj ∅) in
  let* presence := getOnlineMap in
  match state with
  | JObj state =>
      let* now := ts in
      let '(state', changed) := presence_loop now presence state in
      if changed then kvPutJSON e KV.STATE (JObj state') else ret tt
  | _ => beyond
  end.

(** ** Audit engine and quarterly trigger *)

(** [job.cids?.length] as a condition. *)
Definition has_cids (job : json) : bool :=
  truthy_opt (field job "cids" ≫= length_of).

(** The body after the guard is a placeholder in the source. *)
Definition tickAudit (e : env) : M unit :=
  let* job := kvGetJSON e KV.JOB JNull in
  if negb (truthy job) || negb (has_cids job) then ret tt
  else ret tt.

Definition quarterKeyForPrev (dateUtc : Z) : string :=
  let m := getUTCMonth dateUtc in
  let y := getUTCFullYear dateUtc in
  let q := m / 3 + 1 in
  let prevQ := q - 1 in
  let '(prevQ, year) := if prevQ <? 1 then (4, y - 1) else (prevQ, y) in
  String_of_Z year +:+ "Q" +:+ String_of_Z prevQ.

Definition isQuarterStart (now : Z) : bool :=
  let m := getUTCMonth now in
  ((m =? 0) || (m =? 3) || (m =? 6) || (m =? 9))
  && (getUTCDate now =? 1) && (getUTCHours now =? 0).

Definition maybeStartQuarterlyVisiting (e : env) : M unit :=
  let* now := Date_now in
  if negb (isQuarterStart now) then ret tt else
  let key := quarterKeyForPrev now in
  let doneKey := KV.Q_AUTO key in
  let* done := kvGetJSON e doneKey JNull in
  if truthy done then ret tt else
  let* at_ := ts in
  kvPutJSON e doneKey (JObj (<["done" := JBool true]> {[ "at" := JNum at_ ]})).

(** [activeJob && activeJob.cids?.length && activeJob.cursor < activeJob.total]. *)
Definition job_active (job : json) : option bool :=
  if negb (truthy job) || negb (has_cids job) then Some false
  else less_than (field job "cursor") (field job "total").

Definition swallow (c : M unit) : M unit := try_catch c (fun _ => ret tt).

Definition handleScheduled (e : env) : M unit :=
  let* start := Date_now in
  try_finally
    (maybeCleanupStore e ;;
     tickAudit e ;;
     let* activeJob := kvGetJSON e KV.JOB JNull in
     match job_active activeJob with
     | None => beyond
     | Some active =>
         (if active then ret tt else
            let* t := Date_now in
            if t - start <? 20000 then runPresence e else ret tt) ;;
         maybeStartQuarterlyVisiting e
     end)
    (swallow (storeFlush e "bot: scheduled flush")).

Definition scheduled (e : env) : M unit :=
  resetBudgets ;; handleScheduled e.

(** ** REST API *)

Record api_request := Request {
  method : string;
  pathname : string;
  body : option json       (* [None]: the body is not JSON *)
}.

Record user_row := UserRow {
  u_cid : string; u_name : string; u_addedAt : Z; u_isOnline : bool
}.

Record online_row := OnlineRow {
  o_cid : string; o_callsign : json; o_frequency : json; o_name : json;
  o_logonTime : Z
}.

(** The JSON bodies of the API, by endpoint. Dates stand for their ISO
    rendering. The audit report is kept as the job and the rows it is
    computed from: its progress and average are floating-point values. *)
Inductive api_body : Type :=
| BNone
| BError (error : string)
| BHealth
| BSuccess
| BAdded (cid : string) (addedAt : Z)
| BUsers (users : list user_row)
| BAudit (scope : string) (active : option json) (rows : list json)
| BOnline (online : list online_row)
| BStats (totalWatched : option json) (activeAudits completedAudits lastUpdate : Z).

Record api_response := Reply {
  code : Z;
  allow_origin : string;
  data : api_body
}.

Definition origin_of (e : env) : string :=
  str_or (ALLOWED_ORIGIN e) "https://realleviticus.github.io".

Definition jsonResponse (d : api_body) (st : Z) (e : env) : api_response :=
  Reply st (origin_of e) d.

Definition handleCORS (e : env) : api_response := Reply 200 (origin_of e) BNone.

Fixpoint map_each {A B} (l : list A) (f : A -> M B) : M (list B) :=
  match l with
  | [] => ret []
  | x :: r => let* y := f x in let* ys := map_each r f in ret (y :: ys)
  end.

Definition getWatchlist (e : env) : M api_response :=
  let* lst := kvGetJSON e KV.WATCHLIST (JArr []) in
  let* presence := getOnlineMap in
  let* l := lift (elements_of lst) in
  let* users := map_each l (fun cid =>
    let cidStr := String_of cid in
    let* rating := cacheGet e (KV.rating cidStr) (Some TTL.RATING_24H) in
    let* state := kvGetJSON e KV.STATE (JObj ∅) in
    let* now := Date_now in
    let label := rating ≫= (fun r => field r "label") in
    let name := match label with
                | Some l => if truthy l
                            then "Controller " +:+ cidStr +:+ " (" +:+ String_of l +:+ ")"
                            else "Controller " +:+ cidStr
                | None => "Controller " +:+ cidStr
                end in
    ret (UserRow cidStr name now (truthy_opt (presence !! cidStr)))) in
  ret (jsonResponse (BUsers users) 200 e).

(** [new Set(l)]: the distinct elements in the order of first occurrence. *)
Definition Set_of (l : list string) : list string :=
  fold_left (fun acc x => if bool_decide (x ∈ acc) then acc else acc ++ [x]) l [].

(** [a.sort((a, b) => a - b)] on integers: the ascending arrangement. *)
Fixpoint insert_sorted (x : Z) (l : list Z) : list Z :=
  match l with
  | [] => [x]
  | y :: r => if x <? y then x :: y :: r else y :: insert_sorted x r
  end.

Definition sort_numeric (l : list Z) : list Z := fold_right insert_sorted [] l.

(** [l.map(Number)], when every element is a numeral [Number] reads. *)
Definition numbers_of (l : list string) : option (list Z) := mapM Number l.

Definition body_cid (b : option json) : outcome (option json) :=
  match b with
  | None => Ok None
  | Some JNull => Throw (Error "Cannot read properties of null")
  | Some v => Ok (field v "cid")
  end.

Definition addToWatchlist (request : api_request) (e : env) : M api_response :=
  let* raw := lift (body_cid (body request)) in
  let* cid := lift (canonicalCID raw) in
  match cid with
  | None => ret (jsonResponse (BError "Invalid CID format") 400 e)
  | Some cid =>
      let* isValid := isValidMember e cid in
      if negb isValid
      then ret (jsonResponse (BError "CID does not exist on VATSIM") 404 e)
      else
        let* lst := kvGetJSON e KV.WATCHLIST (JArr []) in
        let* strs := lift (strings_of lst) in
        let listSet := Set_of strs in
        if bool_decide (cid ∈ listSet)
        then ret (jsonResponse (BError "Already on watchlist") 409 e)
        else
          match numbers_of (listSet ++ [cid]) with
          | None => beyond
          | Some nums =>
              let next := String_of_Z <$> sort_numeric nums in
              kvPutJSON e KV.WATCHLIST (JArr (JStr <$> next)) ;;
              storeFlush e "api: watchlist add" ;;
              let* now := Date_now in
              ret (jsonResponse (BAdded cid now) 200 e)
          end
  end.

Definition removeFromWatchlist (cid : string) (e : env) : M api_response :=
  let* lst := kvGetJSON e KV.WATCHLIST (JArr []) in
  let* l := lift (elements_of lst) in
  let initialLength := length l in
  let next := filter (fun x => String_of x ≠ cid) l in
  if Nat.eqb (length next) initialLength
  then ret (jsonResponse (BError "CID not found on watchlist") 404 e)
  else
    kvPutJSON e KV.WATCHLIST (JArr next) ;;
    storeFlush e "api: watchlist remove" ;;
    ret (jsonResponse BSuccess 200 e).

(** The rows of [for (const row of (partial || []))]; a string (iterable
    by characters) is left out. *)
Definition rows_of (partial : json) : outcome (list json) :=
  match partial with
  | JArr l => Ok l
  | JStr s => if String.eqb s "" then Ok [] else Beyond
  | v => if truthy v then Throw (Error "partial is not iterable") else Ok []
  end.

(** [new Date(job.created_at * 1000).toISOString()] throws on an invalid
    date. *)
Definition startedAt (job : json) : outcome Z :=
  match field job "created_at" with
  | None => Throw (Error "Invalid time value")
  | Some (JNum t) =>
      if Z.abs (t * 1000) <=? 8640000000000000 then Ok (t * 1000)
      else Throw (Error "Invalid time value")
  | Some _ => Beyond
  end.

Definition getAudit (e : env) (scope : string) : M api_response :=
  let* partial := kvGetJSON e (KV.PARTIAL scope) (JArr []) in
  let* job := kvGetJSON e KV.JOB JNull in
  let scope_matches := match field job "scope" with
                       | Some (JStr s) => String.eqb s scope
                       | _ => false
                       end in
  let* active :=
    if negb (truthy job) || negb scope_matches then ret None
    else match job_active job with
         | None => beyond
         | Some false => ret None
         | Some true => lift (startedAt job) ;; ret (Some job)
         end in
  let* rows := lift (rows_of partial) in
  if existsb (fun row => match row with JNull => true | _ => false end) rows
  then throw (Error "Cannot read properties of null")
  else ret (jsonResponse (BAudit scope active rows) 200 e).

(** [x || 'text']. *)
Definition or_text (o : option json) (text : string) : json :=
  match o with
  | Some v => if truthy v then v else JStr text
  | None => JStr text
  end.

Definition online_row_of (cid : string) (info : json) : online_row :=
  OnlineRow cid
    (or_text (field info "callsign") "UNKNOWN")
    (or_default_null (field info "frequency"))
    (or_text (field info "name") "Unknown")
    (default 0 (number_field info "last_seen") * 1000).

Definition getPresence (e : env) : M api_response :=
  let* watch := kvGetJSON e KV.WATCHLIST (JArr []) in
  let* watchSet := lift (strings_of watch) in
  let* presence := getOnlineMap in
  let online :=
    (fun kv => online_row_of kv.1 kv.2) <$>
      filter (fun kv => kv.1 ∈ watchSet) (map_to_list presence) in
  ret (jsonResponse (BOnline online) 200 e).

(** [v?.length || 0] as a summand: [None] where the sum would coerce. *)
Definition length_or_0 (v : json) : option Z :=
  match length_of v with
  | Some (JNum z) => Some z
  | Some x => if truthy x then None else Some 0
  | None => Some 0
  end.

Definition getStats (e : env) : M api_response :=
  let* watchlist := kvGetJSON e KV.WATCHLIST (JArr []) in
  let* job := kvGetJSON e KV.JOB JNull in
  let* visitingPartial := kvGetJSON e (KV.PARTIAL "visiting") (JArr []) in
  let* localPartial := kvGetJSON e (KV.PARTIAL "local") (JArr []) in
  match job_active job, length_or_0 visitingPartial, length_or_0 localPartial with
  | Some active, Some nv, Some nl =>
      let* now := Date_now in
      let totalWatched := if truthy watchlist then length_of watchlist
                          else Some (JNum 0) in
      ret (jsonResponse (BStats totalWatched (if active then 1 else 0) (nv + nl) now) 200 e)
  | _, _, _ => beyond
  end.

(** [path.match(/^\/api\/watchlist\/\d+$/)] and, on a match,
    [path.split('/').pop()]. *)
Definition watchlist_cid_of (path : string) : option string :=
  let p := "/api/watchlist/" in
  if String.prefix p path then
    let rest := String.substring (String.length p) (String.length path - String.length p) path in
    if test_digits rest then Some rest else None
  else None.

Definition is_delete_path (path : string) : bool :=
  match watchlist_cid_of path with Some _ => true | None => false end.

(** The routes of [handleAPI]: the body of its [try] block. *)
Definition dispatch (request : api_request) (e : env) : M api_response :=
  let path := pathname request in
  let method := method request in
  if String.eqb path "/api/watchlist" && String.eqb method "GET" then
    getWatchlist e
  else if String.eqb path "/api/watchlist" && String.eqb method "POST" then
    addToWatchlist request e
  else if is_delete_path path && String.eqb method "DELETE" then
    removeFromWatchlist (default "" (watchlist_cid_of path)) e
  else if String.eqb path "/api/audit/visiting" && String.eqb method "GET" then
    getAudit e "visiting"
  else if String.eqb path "/api/audit/local" && String.eqb method "GET" then
    getAudit e "local"
  else if String.eqb path "/api/presence" && String.eqb method "GET" then
    getPresence e
  else if String.eqb path "/api/stats" && String.eqb method "GET" then
    getStats e
  else ret (jsonResponse (BError "Not Found") 404 e).

Definition handleAPI (request : api_request) (e : env) : M api_response :=
  try_catch (dispatch request e)
    (fun error =>
       ret (jsonResponse
              (BError (str_or (Some (message error)) "Internal Server Error")) 500 e)).

(** ** Worker entry point for requests *)

Definition worker_fetch (request : api_request) (e : env) : M api_response :=
  resetBudgets ;;
  try_finally
    (if String.eqb (method request) "OPTIONS" then ret (handleCORS e)
     else if String.prefix "/api/" (pathname request) then handleAPI request e
     else if String.eqb (pathname request) "/" then ret (jsonResponse BHealth 200 e)
     else ret (jsonResponse (BError "Not Found") 404 e))
    (swallow (storeFlush e "bot: fetch tail flush")).

End Worker.

(* ===================================================================== *)
(** * The pages that call the worker *)
(* ===================================================================== *)

(** The requests of the API client ([api.js]) as they reach the worker:
    the method, the path below the worker's origin ([API_BASE] ends in
    [/api]) and the JSON body. *)
Module Client.
Import Worker.

Definition request (endpoint method : string) (body : option json) : api_request :=
  Request method ("/api" +:+ endpoint) body.

Definition getWatchlist : api_request := request "/watchlist" "GET" None.

(** [JSON.stringify({ cid: String(cid) })]. *)
Definition addToWatchlist (cid : json) : api_request :=
  request "/watchlist" "POST" (Some (JObj {[ "cid" := JStr (String_of cid) ]})).

(** [`/watchlist/${cid}`]. A CID that is not a string of digits is not
    given a request here: the URL parser may rewrite its text. *)
Definition removeFromWatchlist (cid : json) : option api_request :=
  if test_digits (String_of cid)
  then Some (request ("/watchlist/" +:+ String_of cid) "DELETE" None)
  else None.

Definition getVisitingAudit : api_request := request "/audit/visiting" "GET" None.
Definition getLocalAudit : api_request := request "/audit/local" "GET" None.

Definition runAudit (type cid : json) : api_request :=
  request "/audit/run" "POST"
    (Some (JObj (<["type" := type]> {[ "cid" := JStr (String_of cid) ]}))).

Definition getPresence : api_request := request "/presence" "GET" None.
Definition getStats : api_request := request "/stats" "GET" None.

End Client.

(** The add form of the watchlist page ([watchlist.js]) with the check
    it borrows from [utils.js]. Text is ASCII here, as for [trim]. *)
Module Pages.
Import Worker.

(** [isValidCID(cid)]. *)
Definition isValidCID (cid : json) : bool :=
  test_3_10_digits (trim (String_of cid)).

(** The submit handler, up to the request it sends: none when the check
    fails. [value] is the text of the input field. *)
Definition submit (value : string) : option api_request :=
  let cid := trim value in
  if negb (isValidCID (JStr cid)) then None
  else Some (Client.addToWatchlist (JStr cid)).

End Pages.

(* ===================================================================== *)
(** * How a call may change the world *)
(* ===================================================================== *)

Module Frame.
Import Worker.

(** [c] takes every world to one that [R] relates it to, however it ends. *)
Definition keeps {A} (R : relation world) (c : M A) : Prop :=
  forall w o w', c w = (o, w') -> R w w'.

(** Every value [c] returns satisfies [P]. *)
Definition returns {A} (P : A -> Prop) (c : M A) : Prop :=
  forall w a w', c w = (Ok a, w') -> P a.

(** [c] does not end with an exception. *)
Definition never_throws {A} (c : M A) : Prop :=
  forall w err, fst (c w) <> Throw err.

Definition is_put (rq : request) : bool :=
  match rq with GithubPut _ _ _ _ => true | _ => false end.

Definition is_github (rq : request) : bool :=
  match rq with GithubGet _ | GithubPut _ _ _ _ => true | _ => false end.

(** The requests sent between [w] and [w'] all satisfy [P]. *)
Definition sends (P : request -> Prop) : relation world := fun w w' =>
  exists l, sent w' = sent w ++ l /\ Forall P l.

(** Nothing is written: the document in memory and its dirty flag are
    what they were, and no PUT went out. *)
Definition reads_only : relation world := fun w w' =>
  GH_STORE_DIRTY w' = GH_STORE_DIRTY w /\
  (forall st, GH_STORE w = Some st -> GH_STORE w' = Some st) /\
  sends (fun rq => is_put rq = false) w w'.

(** The counter only grows, stays within the budget once it is, and
    every unit of it pays for at most three requests. *)
Definition traffic : relation world := fun w w' =>
  subreqCount w <= subreqCount w' /\
  (subreqCount w <= SUBREQ_BUDGET_PER_TICK -> subreqCount w' <= SUBREQ_BUDGET_PER_TICK) /\
  exists l, sent w' = sent w ++ l /\
    Z.of_nat (length l) <= 3 * (subreqCount w' - subreqCount w).

(** The document in memory still has [v] under [key], if it had. *)
Definition holds (key : string) (v : json) : relation world := fun w w' =>
  (exists st, GH_STORE w = Some st /\ st !! key = Some v) ->
  exists st', GH_STORE w' = Some st' /\ st' !! key = Some v.

#[export] Instance holds_preorder (key : string) (v : json) : PreOrder (holds key v).
Proof. split; [intros w H; exact H | intros w1 w2 w3 H1 H2 H; auto]. Qed.

#[export] Instance sends_preorder (P : request -> Prop) : PreOrder (sends P).
Proof.
  split.
  - intros w. exists []. now rewrite app_nil_r.
  - intros w1 w2 w3 (l1 & H1 & F1) (l2 & H2 & F2). exists (l1 ++ l2).
    split; [now rewrite H2, H1, app_assoc | now apply Forall_app].
Qed.

#[export] Instance reads_only_preorder : PreOrder reads_only.
Proof.
  split.
  - intros w. repeat split; auto. reflexivity.
  - intros w1 w2 w3 (D1 & S1 & T1) (D2 & S2 & T2). repeat split.
    + congruence.
    + auto.
    + etransitivity; eassumption.
Qed.

#[export] Instance traffic_preorder : PreOrder traffic.
Proof.
  split.
  - intros w. split; [lia|]. split; [lia|].
    exists []. rewrite app_nil_r. simpl. split; [reflexivity|lia].
  - intros w1 w2 w3 (A1 & B1 & l1 & H1 & L1) (A2 & B2 & l2 & H2 & L2).
    split; [lia|]. split; [lia|].
    exists (l1 ++ l2). split; [now rewrite H2, H1, app_assoc|].
    rewrite length_app. lia.
Qed.

(** [o[k] = v] stores a property of [o] under every name but [__proto__]
    (there it sets the prototype). *)
Definition storable (k : string) : Prop := k <> "__proto__".

(** The results [ghFetch] does not settle for while attempts are left:
    a network error, and the statuses 403, 429 and 500 and above. *)
Definition retried (res : fetch_result) : bool :=
  match res with
  | NetworkError => true
  | Answer r => (status r =? 403) || (status r =? 429) || (500 <=? status r)
  end.

(** What [ghFetch] hands back for the result of its last attempt. *)
Definition response_of (res : fetch_result) : option response :=
  match res with
  | NetworkError => None
  | Answer r => Some r
  end.

(** The body of the live feed as [getOnlineMap] gets to read it: none
    when the budget is spent, the request fails or takes more than 25
    seconds, or the status is not 2xx. *)
Definition feed_body (w : world) : option payload :=
  if SUBREQ_BUDGET_PER_TICK <=? subreqCount w then None
  else
    match net w (sent w) VatsimData with
    | (Answer a, dt) => if (dt <=? 25000) && ok a then Some (body_json a) else None
    | (NetworkError, _) => None
    end.

(** The controllers of that feed, where it has a list of them. *)
Definition served (w : world) : list json :=
  match feed_body w with
  | Some (PFeed (JArr cs)) => cs
  | _ => []
  end.

(** A controller the loop of [getOnlineMap] gets past: its [cid] and its
    [callsign] can be read. *)
Definition well_formed (c : json) : Prop :=
  (exists cid, cid_of c = Ok cid) /\ (exists callsign, callsign_of c = Ok callsign).

(** A feed [getOnlineMap] reads to the end: there is none, or its body is
    not [null] and its [controllers], if any, are falsy or an array of
    well-formed controllers. *)
Definition readable (w : world) : Prop :=
  match feed_body w with
  | Some PNull => False
  | Some (PFeed v) => exists cs, controllers_of v = Ok cs /\ Forall well_formed cs
  | _ => True
  end.

(** A feed without controllers: there is none, or its body is not [null]
    and has no [controllers], a falsy value or the empty array. *)
Definition no_controllers (w : world) : Prop :=
  match feed_body w with
  | Some PNull => False
  | Some (PFeed v) => controllers_of v = Ok []
  | _ => True
  end.

(** The controller [c] is recorded under [cid] with [callsign]: it has
    that CID, not the empty one, and that callsign once trimmed, which
    is not that of an ATIS. *)
Definition listed (c : json) (cid callsign : string) : Prop :=
  cid_of c = Ok (Some cid) /\ cid <> "" /\
  callsign_of c = Ok callsign /\ endsWith callsign "_ATIS" = false.

(** The record the trigger leaves for a quarter. *)
Definition quarter_marker (at_ : Z) : json :=
  JObj (<["done" := JBool true]> {[ "at" := JNum at_ ]}).

End Frame.

(* ===================================================================== *)
(** * Sample environments *)
(* ===================================================================== *)

Module Scenario.
Import Worker.

Definition e0 : env := Env None None.

(** A network on which every exchange fails at once. *)
Definition offline : list request -> request -> fetch_result * Z :=
  fun _ _ => (NetworkError, 0).

(** A network that answers every request with the same status. *)
Definition always (st : Z) (txt : string) : list request -> request -> fetch_result * Z :=
  fun _ _ => (Answer (Response st None txt POther), 10).

(** A fresh isolate: nothing loaded yet. *)
Definition cold (now : Z) (n : list request -> request -> fetch_result * Z) : world :=
  World None None false 0 now [] n.

(** An isolate holding the document [st] as fetched under version [sha]. *)
Definition warm (st : gmap string json) (sha : string) (now : Z)
    (n : list request -> request -> fetch_result * Z) : world :=
  World (Some st) (Some sha) false 0 now [] n.

Definition rating_entry : json := JObj {[ "label" := JStr "C1" ]}.

(** GitHub and VATSIM in good health: the contents call serves [doc]
    under version "v1", a commit gets version "v2", nobody is online and
    every member exists. *)
Definition healthy (doc : gmap string json) : list request -> request -> fetch_result * Z :=
  fun _ rq =>
    match rq with
    | GithubGet _ => (Answer (Response 200 None "" (PContents (Some "v1") (CDocument doc))), 40)
    | GithubPut _ _ _ _ => (Answer (Response 200 None "" (PCommit (Some "v2"))), 60)
    | VatsimData => (Answer (Response 200 None "" (PFeed (JArr []))), 30)
    | VatsimMember _ => (Answer (Response 200 None "" POther), 20)
    end.

(** 2025-04-01T00:00:00Z, in milliseconds. *)
Definition april_first_2025 : Z := 1743465600000.

Definition stale_partial : json :=
  JArr [JObj (<["cid" := JStr "1234567"]> {[ "hours" := JNum 2 ]})].

Definition doc_q1 : gmap string json :=
  <["watchlist" := JArr [JStr "1234567"]]> {[ "audit:partial:visiting" := stale_partial ]}.

Definition post_cid (cid : json) : api_request :=
  Request "POST" "/api/watchlist" (Some (JObj {[ "cid" := cid ]})).

(** A concurrent writer got in first: a PUT is refused with 409 until
    the contents have been fetched again; the contents call serves
    [remote] under version "v2". *)
Definition conflict_once (remote : gmap string json)
    : list request -> request -> fetch_result * Z :=
  fun history rq =>
    match rq with
    | GithubPut _ _ _ _ =>
        if existsb (fun q => match q with GithubGet _ => true | _ => false end) history
        then (Answer (Response 200 None "" (PCommit (Some "v3"))), 60)
        else (Answer (Response 409 None "conflict" POther), 60)
    | _ => (Answer (Response 200 None "" (PContents (Some "v2") (CDocument remote))), 40)
    end.

(** The same conflict, but the contents call then fails with 500. *)
Definition conflict_then_down : list request -> request -> fetch_result * Z :=
  fun _ rq =>
    match rq with
    | GithubPut _ _ _ _ => (Answer (Response 409 None "conflict" POther), 60)
    | _ => (Answer (Response 500 None "down" POther), 40)
    end.

Definition local_doc : gmap string json := {[ "watchlist" := JArr [JStr "1234567"] ]}.
Definition remote_doc : gmap string json :=
  <["watchlist" := JArr []]> {[ "online_state" := JObj ∅ ]}.

(** An isolate holding [local_doc] with unsaved edits, read under "v1". *)
Definition unsaved (n : list request -> request -> fetch_result * Z) : world :=
  World (Some local_doc) (Some "v1") true 0 0 [] n.

(** A document some of whose cache entries are overdue at second
    1000000: the rating (stamped at 0) and the cool-down (expired at 5);
    the member check, three days old, is within twice its seven days. *)
Definition aged_doc : gmap string json :=
  <["rating:1" := JObj (<["label" := JStr "C1"]> {[ "cached_at" := JNum 0 ]})]>
  (<["cooldown:offline:1" := JObj {[ "expiresAt" := JNum 5 ]}]>
  (<["member:1" := JObj (<["ok" := JBool true]> {[ "cached_at" := JNum 740800 ]})]>
  (<["watchlist" := JArr [JStr "1"]]>
  (<["online_state" := JObj {[ "1" := JObj {[ "online" := JBool false ]} ]}]>
  (<["audit:job" := JObj (<["scope" := JStr "visiting"]> {[ "created_at" := JNum 0 ]})]>
  (<["audit:partial:visiting" := JArr []]>
  {[ "_last_cleanup" := JNum 0 ]})))))).

Definition swept_doc : gmap string json :=
  <["member:1" := JObj (<["ok" := JBool true]> {[ "cached_at" := JNum 740800 ]})]>
  (<["watchlist" := JArr [JStr "1"]]>
  (<["online_state" := JObj {[ "1" := JObj {[ "online" := JBool false ]} ]}]>
  (<["audit:job" := JObj (<["scope" := JStr "visiting"]> {[ "created_at" := JNum 0 ]})]>
  (<["audit:partial:visiting" := JArr []]>
  {[ "_last_cleanup" := JNum 1000000 ]})))).

(** A controller and an ATIS position as the feed has them. *)
Definition sy_app : json :=
  JObj (<["cid" := JNum 200]> (<["callsign" := JStr " SY_APP "]>
        {[ "frequency" := JStr "124.400" ]})).
Definition ml_atis : json :=
  JObj (<["cid" := JNum 300]> {[ "callsign" := JStr "ML_ATIS" ]}).

(** A live feed with one controller and one ATIS position. *)
Definition feed : list request -> request -> fetch_result * Z :=
  fun _ rq =>
    match rq with
    | VatsimData => (Answer (Response 200 None "" (PFeed (JArr [sy_app; ml_atis]))), 30)
    | _ => (NetworkError, 5)
    end.

(** A feed whose body is the JSON text [null]. *)
Definition null_feed : list request -> request -> fetch_result * Z :=
  fun _ rq =>
    match rq with
    | VatsimData => (Answer (Response 200 None "null" PNull), 30)
    | _ => (NetworkError, 5)
    end.

(** CID 100 was last seen online as BN_CTR; CID 200 is not known yet. *)
Definition presence_doc : gmap string json :=
  <["watchlist" := JArr [JStr "100"; JStr "200"]]>
  {[ "online_state" :=
       JObj {[ "100" := online_record true 900
                 (JObj {[ "callsign" := JStr "BN_CTR" ]}) ]} ]}.

Definition presence_now : gmap string json :=
  {[ "200" := info_of "SY_APP" sy_app 1000 ]}.

Definition delete_cid (cid : string) : api_request :=
  Request "DELETE" ("/api/watchlist/" +:+ cid) None.

(** A watchlist of two canonical CIDs. *)
Definition watch_doc : gmap string json :=
  {[ "watchlist" := JArr [JStr "123456"; JStr "1000000"] ]}.

(** An isolate with unsaved edits whose subrequest budget is used up. *)
Definition spent : world := World (Some ∅) None true 120 0 [] offline.

End Scenario.

(* ===================================================================== *)
(** * Properties *)
(* ===================================================================== *)

Example canonical_steps :
  strip_non_digits "a0012-3 " = "00123" /\ Number "00123" = Some 123 /\
  String_of_Z 123 = "123" /\ String_of (JArr [JNum 1; JNull; JStr "x"]) = "1,,x".
Proof. repeat split. Qed.

Example date_2025_04_01 :
  let t := 1743465600000 in
  (getUTCFullYear t, getUTCMonth t, getUTCDate t, getUTCHours t) = (2025, 3, 1, 0).
Proof. reflexivity. Qed.

Example date_2024_02_29 :
  let t := 1709251199000 in
  (getUTCFullYear t, getUTCMonth t, getUTCDate t, getUTCHours t) = (2024, 1, 29, 23).
Proof. reflexivity. Qed.

Example date_1969_12_31 :
  let t := -1 in
  (getUTCFullYear t, getUTCMonth t, getUTCDate t, getUTCHours t) = (1969, 11, 31, 23).
Proof. reflexivity. Qed.

Import Worker.
Import Frame.

(** ** Running the store functions *)

Section Store.

Variable e : env.

Lemma storeLoad_loaded w st :
  GH_STORE w = Some st -> storeLoad e w = (Ok tt, w).
Proof. intros H. unfold storeLoad, bind, read. now rewrite H. Qed.

Lemma the_store_loaded w st :
  GH_STORE w = Some st -> the_store w = (Ok st, w).
Proof. intros H. unfold the_store. now rewrite H. Qed.

Lemma kvGetJSON_loaded w st key fb :
  GH_STORE w = Some st -> kvGetJSON e key fb w = (Ok (default fb (st !! key)), w).
Proof.
  intros H. unfold kvGetJSON, bind. rewrite (storeLoad_loaded _ _ H).
  unfold storeGet, bind. now rewrite (the_store_loaded _ _ H).
Qed.

(** A load that succeeds leaves a document in memory, and loading again
    is then a no-op. *)
Lemma storeLoad_ok w w1 :
  storeLoad e w = (Ok tt, w1) -> exists st, GH_STORE w1 = Some st.
Proof.
  unfold storeLoad, bind, read. destruct (GH_STORE w) as [st|] eqn:Hst.
  - intros [= <-]. eauto.
  - destruct (ghGet e (storePath e) w) as [[r| |] w'] eqn:Hget; try discriminate.
    destruct r as [sha doc|stt txt].
    + unfold update. intros [= <-]. simpl. eauto.
    + destruct (stt =? 404); [|discriminate].
      unfold update. intros [= <-]. simpl. eauto.
Qed.

Lemma kvGetJSON_after_load w w1 st key fb :
  storeLoad e w = (Ok tt, w1) -> GH_STORE w1 = Some st ->
  kvGetJSON e key fb w = (Ok (default fb (st !! key)), w1).
Proof.
  intros Hl H. unfold kvGetJSON, bind. rewrite Hl.
  unfold storeGet, bind. now rewrite (the_store_loaded _ _ H).
Qed.

End Store.

(** ** The cache *)

(** C10. Once the document is in memory, [cacheGet] hands back the stored
    entry as it is, without looking at [cached_at] or the clock, when
    [maxAgeSec] is left out or is 0; and it answers [null] when
    [maxAgeSec] is positive and the entry has no numeric [cached_at].
    An entry is a stored value the code takes for present, that is a
    truthy one (every object is). *)
Theorem cacheGet_without_max_age (e : env) (key : string) (w w1 : world)
    (st : gmap string json) (j : json) :
  storeLoad e w = (Ok tt, w1) -> GH_STORE w1 = Some st ->
  st !! key = Some j -> truthy j = true ->
  cacheGet e key None w = (Ok (Some j), w1) /\
  cacheGet e key (Some 0) w = (Ok (Some j), w1) /\
  (forall maxAgeSec, 0 < maxAgeSec -> number_field j "cached_at" = None ->
     cacheGet e key (Some maxAgeSec) w = (Ok None, w1)).
Proof.
  intros Hload Hst Hkey Htr.
  assert (Hget : kvGetJSON e key JNull w = (Ok j, w1)).
  { rewrite (kvGetJSON_after_load e w w1 st key JNull Hload Hst). now rewrite Hkey. }
  repeat split.
  - unfold cacheGet, bind. rewrite Hget, Htr. reflexivity.
  - unfold cacheGet, bind. rewrite Hget, Htr. reflexivity.
  - intros maxAgeSec Hpos Hno. unfold cacheGet, bind. rewrite Hget, Htr, Hno. simpl.
    destruct maxAgeSec; try lia. reflexivity.
Qed.

Lemma cacheGet_without_max_age_witness :
  let w := Scenario.warm {[ "rating:1" := Scenario.rating_entry ]} "abc" 0 Scenario.offline in
  cacheGet Scenario.e0 "rating:1" None w = (Ok (Some Scenario.rating_entry), w) /\
  cacheGet Scenario.e0 "rating:1" (Some 0) w = (Ok (Some Scenario.rating_entry), w) /\
  (forall maxAgeSec, 0 < maxAgeSec ->
     number_field Scenario.rating_entry "cached_at" = None ->
     cacheGet Scenario.e0 "rating:1" (Some maxAgeSec) w = (Ok None, w)).
Proof.
  intros w.
  apply (cacheGet_without_max_age Scenario.e0 "rating:1" w w
           {[ "rating:1" := Scenario.rating_entry ]} Scenario.rating_entry);
    reflexivity.
Defined.

(** ** The subrequest budget *)

(** C3, as the code has it. With the counter at the budget, no call
    reaches [fetch] (the world, and with it the list of requests sent, is
    unchanged): [trackedFetch] returns [null], while [ghGet] and [ghPut]
    throw [Error("subrequest budget")]. *)
Theorem budget_exhausted_refuses (e : env) (w : world) :
  SUBREQ_BUDGET_PER_TICK <= subreqCount w ->
  (forall rq, trackedFetch rq w = (Ok None, w)) /\
  (forall path, ghGet e path w = (Throw (Error "subrequest budget"), w)) /\
  (forall path obj prevSha msg,
     ghPut e path obj prevSha msg w = (Throw (Error "subrequest budget"), w)).
Proof.
  intros H. apply Z.leb_le in H.
  repeat split; intros.
  - unfold trackedFetch, bind, read. now rewrite H.
  - unfold ghGet, budget_check, bind, read. now rewrite H.
  - unfold ghPut, budget_check, bind, read. now rewrite H.
Qed.

Lemma budget_exhausted_refuses_witness :
  (forall rq, trackedFetch rq Scenario.spent = (Ok None, Scenario.spent)) /\
  (forall path, ghGet Scenario.e0 path Scenario.spent = (Throw (Error "subrequest budget"), Scenario.spent)) /\
  (forall path obj prevSha msg,
     ghPut Scenario.e0 path obj prevSha msg Scenario.spent
     = (Throw (Error "subrequest budget"), Scenario.spent)).
Proof.
  apply (budget_exhausted_refuses Scenario.e0 Scenario.spent). vm_compute. discriminate.
Defined.

(** C3 as stated fails for the store calls: with the budget spent, [ghGet]
    and [ghPut] do not return to their caller, they throw. *)
Lemma ghGet_ghPut_throw_on_spent_budget :
  fst (ghGet Scenario.e0 "cf-cache/store.json" Scenario.spent) = Throw (Error "subrequest budget") /\
  fst (ghPut Scenario.e0 "cf-cache/store.json" ∅ None "m" Scenario.spent)
  = Throw (Error "subrequest budget") /\
  fst (trackedFetch VatsimData Scenario.spent) = Ok None.
Proof. repeat split. Qed.

(** ** The API's catch-all *)

(** C7, as the code has it. When the routed handler throws, [handleAPI]
    answers 500 with the [{error}] envelope, and the message in it is the
    exception's own message; the generic "Internal Server Error" is used
    only for an exception whose message is empty. *)
Theorem handleAPI_reports_thrown_message (request : api_request) (e : env)
    (w w' : world) (err : exn) :
  dispatch request e w = (Throw err, w') ->
  handleAPI request e w =
    (Ok (Reply 500 (origin_of e)
           (BError (if String.eqb (message err) "" then "Internal Server Error"
                    else message err))), w').
Proof.
  intros H. unfold handleAPI, try_catch. rewrite H. reflexivity.
Qed.

Lemma handleAPI_reports_thrown_message_witness :
  handleAPI (Scenario.post_cid (JStr "1234567")) Scenario.e0
    (Scenario.cold 0 (Scenario.always 500 "boom"))
  = (Ok (Reply 500 "https://realleviticus.github.io" (BError "GitHub GET failed 500")),
     snd (dispatch (Scenario.post_cid (JStr "1234567")) Scenario.e0
            (Scenario.cold 0 (Scenario.always 500 "boom")))).
Proof.
  apply (handleAPI_reports_thrown_message (Scenario.post_cid (JStr "1234567")) Scenario.e0
           (Scenario.cold 0 (Scenario.always 500 "boom")) _ (Error "GitHub GET failed 500")).
  vm_compute. reflexivity.
Defined.

(** C7 as stated fails: the store cannot be read (GitHub answers 500), the
    handler of POST /api/watchlist throws [Error("GitHub GET failed 500")],
    and that very text is the body's [error]. *)
Lemma handleAPI_leaks_exception_message :
  fst (dispatch (Scenario.post_cid (JStr "1234567")) Scenario.e0
         (Scenario.cold 0 (Scenario.always 500 "boom")))
  = Throw (Error "GitHub GET failed 500") /\
  fst (handleAPI (Scenario.post_cid (JStr "1234567")) Scenario.e0
         (Scenario.cold 0 (Scenario.always 500 "boom")))
  = Ok (Reply 500 "https://realleviticus.github.io" (BError "GitHub GET failed 500")).
Proof. split; vm_compute; reflexivity. Qed.

(** ** The quarterly trigger *)

Lemma Q_AUTO_not_job key : KV.Q_AUTO key <> KV.JOB.
Proof. unfold KV.Q_AUTO, KV.JOB. cbv [String.append]. discriminate. Qed.

Lemma Q_AUTO_not_partial key scope : KV.Q_AUTO key <> KV.PARTIAL scope.
Proof. unfold KV.Q_AUTO, KV.PARTIAL. cbv [String.append]. discriminate. Qed.

(** C1, what the code does at a quarter start. With the document in
    memory, the instant a quarter start and the marker of the previous
    quarter absent, [maybeStartQuarterlyVisiting] writes the marker and
    nothing else: [audit:job] and [audit:partial:visiting] are what they
    were, so no job is enqueued. *)
Theorem quarterly_trigger_only_marks (e : env) (w : world) (st : gmap string json) :
  GH_STORE w = Some st ->
  isQuarterStart (clock w) = true ->
  st !! KV.Q_AUTO (quarterKeyForPrev (clock w)) = None ->
  exists w' st',
    maybeStartQuarterlyVisiting e w = (Ok tt, w') /\
    GH_STORE w' = Some st' /\
    st' !! KV.Q_AUTO (quarterKeyForPrev (clock w))
      = Some (JObj (<["done" := JBool true]> {[ "at" := JNum (clock w / 1000) ]})) /\
    st' !! KV.JOB = st !! KV.JOB /\
    st' !! KV.PARTIAL "visiting" = st !! KV.PARTIAL "visiting".
Proof.
  intros Hst Hq Hmark.
  set (key := KV.Q_AUTO (quarterKeyForPrev (clock w))) in *.
  set (mark := JObj (<["done" := JBool true]> {[ "at" := JNum (clock w / 1000) ]})).
  exists (with_dirty true (with_store (Some (<[key := mark]> st)) w)), (<[key := mark]> st).
  repeat split.
  - unfold maybeStartQuarterlyVisiting, bind, Date_now, read. rewrite Hq. simpl.
    fold key. rewrite (kvGetJSON_loaded e w st key JNull Hst), Hmark. simpl.
    unfold ts, bind, Date_now, read, ret. unfold kvPutJSON, bind.
    rewrite (storeLoad_loaded e w st Hst). unfold storeSet, bind.
    rewrite (the_store_loaded w st Hst). reflexivity.
  - apply lookup_insert_eq.
  - apply lookup_insert_ne, Q_AUTO_not_job.
  - apply lookup_insert_ne, Q_AUTO_not_partial.
Qed.

Lemma quarterly_trigger_only_marks_witness :
  exists w' st',
    maybeStartQuarterlyVisiting Scenario.e0
      (Scenario.warm Scenario.doc_q1 "v1" Scenario.april_first_2025
         (Scenario.healthy Scenario.doc_q1)) = (Ok tt, w') /\
    GH_STORE w' = Some st' /\
    st' !! "quarter:auto:2025Q1"
      = Some (JObj (<["done" := JBool true]> {[ "at" := JNum 1743465600 ]})) /\
    st' !! "audit:job" = None /\
    st' !! "audit:partial:visiting" = Some Scenario.stale_partial.
Proof.
  apply (quarterly_trigger_only_marks Scenario.e0
           (Scenario.warm Scenario.doc_q1 "v1" Scenario.april_first_2025
              (Scenario.healthy Scenario.doc_q1)) Scenario.doc_q1);
    reflexivity.
Defined.

(** The whole scheduled tick at 2025-04-01T00:00:00Z on a fresh isolate,
    watchlist ["1234567"], no marker: the document it commits carries the
    marker [quarter:auto:2025Q1] but no [audit:job], and the stale
    [audit:partial:visiting] is still there. *)
Lemma scheduled_tick_enqueues_no_job :
  let w' := snd (scheduled Scenario.e0
                   (Scenario.cold Scenario.april_first_2025
                      (Scenario.healthy Scenario.doc_q1))) in
  (GH_STORE w' ≫= (fun st => st !! "quarter:auto:2025Q1"))
    = Some (JObj (<["done" := JBool true]> {[ "at" := JNum 1743465600 ]})) /\
  (GH_STORE w' ≫= (fun st => st !! "audit:job")) = None /\
  (GH_STORE w' ≫= (fun st => st !! "audit:partial:visiting")) = Some Scenario.stale_partial /\
  GH_STORE_DIRTY w' = false /\ GH_STORE_SHA w' = Some "v2".
Proof. vm_compute. repeat split. Qed.

(** ** Flushing the store *)

Lemma same_memory_refl w : same_memory w w.
Proof. repeat split. Qed.

Lemma same_memory_trans w1 w2 w3 :
  same_memory w1 w2 -> same_memory w2 w3 -> same_memory w1 w3.
Proof. unfold same_memory. intuition congruence. Qed.

(** [ghFetch] always returns; it sends its request between once and
    [maxAttempts] times and touches neither the store nor the counter. *)
Lemma ghFetch_loop_run (rq : request) (n : nat) :
  forall (backoff : Z) (w : world),
  exists (r : option response) (w' : world) (k : nat),
    ghFetch_loop n backoff rq w = (Ok r, w') /\
    same_memory w w' /\ subreqCount w' = subreqCount w /\
    sent w' = sent w ++ replicate k rq /\ (k <= n)%nat /\ ((0 < n)%nat -> (0 < k)%nat).
Proof.
  induction n as [|n IH]; intros backoff w.
  - exists None, w, 0%nat. simpl. rewrite app_nil_r.
    repeat split; auto using same_memory_refl; lia.
  - simpl. unfold bind at 1. unfold fetch at 1.
    destruct (net w (sent w) rq) as [res dt] eqn:Hnet.
    set (w1 := with_clock (clock w + Z.max 0 dt) (with_sent (sent w ++ [rq]) w)).
    assert (Hstep : forall b ms,
      exists r w' k,
        (sleep ms;; ghFetch_loop n b rq) w1 = (Ok r, w') /\
        same_memory w w' /\ subreqCount w' = subreqCount w /\
        sent w' = sent w ++ replicate k rq /\ (k <= S n)%nat /\ (0 < k)%nat).
    { intros b ms. unfold bind, sleep, update.
      destruct (IH b (with_clock (clock w1 + Z.max 0 ms) w1)) as (r & w' & k & Hr & Hm & Hc & Hs & Hk & _).
      exists r, w', (S k). rewrite Hr. repeat split; try apply Hm; try lia.
      - rewrite Hc. reflexivity.
      - rewrite Hs. simpl. rewrite <- app_assoc. reflexivity. }
    assert (Hstop : forall r : option response,
      exists r' w' k,
        (Ok r, w1) = (Ok r', w') /\
        same_memory w w' /\ subreqCount w' = subreqCount w /\
        sent w' = sent w ++ replicate k rq /\ (k <= S n)%nat /\ (0 < k)%nat).
    { intros r. exists r, w1, 1%nat. repeat split; lia. }
    destruct res as [|a].
    + destruct n as [|n'].
      * destruct (Hstop None) as (r & w' & k & H & ?). exists r, w', k. unfold ret. intuition.
      * destruct (Hstep (Z.min 15000 (backoff * 18 / 10)) backoff) as (r & w' & k & H & ?).
        exists r, w', k. intuition.
    + destruct (((status a =? 403) || (status a =? 429) || (500 <=? status a))
                && negb (Nat.eqb n 0)).
      * destruct (Hstep (Z.min 15000 (backoff * 18 / 10))
                    (Z.min 15000 (match retry_after a with
                                  | Some ra => ra * 1000 | None => backoff end)))
          as (r & w' & k & H & ?).
        exists r, w', k. intuition.
      * destruct (Hstop (Some a)) as (r & w' & k & H & ?). exists r, w', k. unfold ret. intuition.
Qed.

Lemma ghFetch_loop_attempts (rq : request) (n : nat) :
  forall (backoff : Z) (w : world), (0 < n)%nat ->
  exists (w' : world) (k : nat),
    let last := (net w (sent w ++ replicate (k - 1) rq) rq).1 in
    ghFetch_loop n backoff rq w = (Ok (response_of last), w') /\
    (1 <= k <= n)%nat /\
    sent w' = sent w ++ replicate k rq /\ net w' = net w /\
    (forall j, (j < k - 1)%nat ->
       retried (net w (sent w ++ replicate j rq) rq).1 = true) /\
    ((k < n)%nat -> retried last = false).
Proof.
  induction n as [|n IH]; intros backoff w Hn; [lia|].
  simpl. unfold bind at 1. unfold fetch at 1.
  destruct (net w (sent w) rq) as [res dt] eqn:Hnet.
  set (w1 := with_clock (clock w + Z.max 0 dt) (with_sent (sent w ++ [rq]) w)).
  assert (Hstop : retried res = false \/ n = 0%nat ->
    exists w' k,
      let last := (net w (sent w ++ replicate (k - 1) rq) rq).1 in
      (Ok (response_of res), w1) = (Ok (response_of last), w') /\
      (1 <= k <= S n)%nat /\ sent w' = sent w ++ replicate k rq /\ net w' = net w /\
      (forall j, (j < k - 1)%nat -> retried (net w (sent w ++ replicate j rq) rq).1 = true) /\
      ((k < S n)%nat -> retried last = false)).
  { intros Hfin. exists w1, 1%nat. simpl. rewrite app_nil_r, Hnet. simpl.
    repeat split; try lia. intros Hlt. destruct Hfin as [? | ->]; [assumption|lia]. }
  assert (Hstep : retried res = true -> n <> 0%nat -> forall b ms,
    exists w' k,
      let last := (net w (sent w ++ replicate (k - 1) rq) rq).1 in
      (sleep ms;; ghFetch_loop n b rq) w1 = (Ok (response_of last), w') /\
      (1 <= k <= S n)%nat /\ sent w' = sent w ++ replicate k rq /\ net w' = net w /\
      (forall j, (j < k - 1)%nat -> retried (net w (sent w ++ replicate j rq) rq).1 = true) /\
      ((k < S n)%nat -> retried last = false)).
  { intros Hre Hn0 b ms. unfold bind, sleep, update.
    destruct (IH b (with_clock (clock w1 + Z.max 0 ms) w1) ltac:(lia))
      as (w' & k & Hrun & Hk & Hs & Hnet' & Hbefore & Hearly).
    simpl in Hrun, Hs, Hnet', Hbefore, Hearly.
    assert (Hshift : forall j, (sent w ++ [rq]) ++ replicate j rq = sent w ++ replicate (S j) rq).
    { intros j. now rewrite <- app_assoc. }
    exists w', (S k). simpl. rewrite Nat.sub_0_r.
    rewrite Hshift in Hrun, Hs, Hearly.
    replace (S (k - 1)) with k in Hrun, Hearly by lia.
    rewrite Hrun. repeat split; try lia; try assumption.
    - intros [|j] Hj.
      + simpl. rewrite app_nil_r, Hnet. exact Hre.
      + specialize (Hbefore j ltac:(lia)). now rewrite Hshift in Hbefore.
    - intros Hlt. apply Hearly. lia. }
  destruct res as [|a].
  - destruct n as [|n'].
    + apply Hstop. now right.
    + apply Hstep; [reflexivity | discriminate].
  - change ((status a =? 403) || (status a =? 429) || (500 <=? status a))
      with (retried (Answer a)).
    destruct (retried (Answer a)) eqn:Hre; simpl.
    + destruct n as [|n']; simpl.
      * apply Hstop. now right.
      * apply Hstep; [reflexivity | discriminate].
    + apply Hstop. now left.
Qed.

Lemma replicate_last {A} (k : nat) (x : A) :
  (1 <= k)%nat -> replicate k x = replicate (k - 1) x ++ [x].
Proof.
  intros Hk. replace k with (k - 1 + 1)%nat at 1 by lia. now rewrite replicate_add.
Qed.

(** A store call either finds the budget spent and throws at once, or
    counts one subrequest and sends its request one to three times. *)
Lemma ghPut_run (e : env) (path : string) (obj : gmap string json)
    (sha : option string) (msg : string) (w : world) :
  (SUBREQ_BUDGET_PER_TICK <= subreqCount w /\
   ghPut e path obj sha msg w = (Throw (Error "subrequest budget"), w)) \/
  (subreqCount w < SUBREQ_BUDGET_PER_TICK /\
   exists (r : outcome gh_result) (w' : world) (k : nat),
     ghPut e path obj sha msg w = (r, w') /\ r <> Beyond /\
     same_memory w w' /\ subreqCount w' = subreqCount w + 1 /\
     sent w' = sent w ++ replicate k (GithubPut path obj (nonempty sha) (commit_message msg path)) /\
     (1 <= k <= 3)%nat).
Proof.
  unfold ghPut, budget_check, ghFetch, bind, read, update, throw. cbv beta.
  destruct (SUBREQ_BUDGET_PER_TICK <=? subreqCount w) eqn:Hb.
  - left. apply Z.leb_le in Hb. split; [exact Hb | reflexivity].
  - right. apply Z.leb_gt in Hb. split; [exact Hb|].
    destruct (ghFetch_loop_run (GithubPut path obj (nonempty sha) (commit_message msg path))
                3 700 (with_subreq (subreqCount w + 1) w))
      as (r & w' & k & Hr & Hm & Hc & Hs & Hk & Hk').
    rewrite Hr.
    assert (Hgoal : forall res : outcome gh_result, res <> Beyond ->
      exists res0 w0 k0, (res, w') = (res0, w0) /\ res0 <> Beyond /\ same_memory w w0 /\
        subreqCount w0 = subreqCount w + 1 /\
        sent w0 = sent w ++ replicate k0 (GithubPut path obj (nonempty sha) (commit_message msg path)) /\
        (1 <= k0 <= 3)%nat).
    { intros res Hres. exists res, w', k. repeat split; try apply Hm; auto; lia. }
    destruct r as [r|]; [|now apply Hgoal].
    destruct (negb (ok r)); [now apply Hgoal|].
    destruct (body_json r); now apply Hgoal.
Qed.

Lemma ghGet_run (e : env) (path : string) (w : world) :
  (SUBREQ_BUDGET_PER_TICK <= subreqCount w /\
   ghGet e path w = (Throw (Error "subrequest budget"), w)) \/
  (subreqCount w < SUBREQ_BUDGET_PER_TICK /\
   exists (r : outcome gh_result) (w' : world) (k : nat),
     ghGet e path w = (r, w') /\ r <> Beyond /\
     same_memory w w' /\ subreqCount w' = subreqCount w + 1 /\
     sent w' = sent w ++ replicate k (GithubGet path) /\ (1 <= k <= 3)%nat).
Proof.
  unfold ghGet, budget_check, ghFetch, bind, read, update, throw. cbv beta.
  destruct (SUBREQ_BUDGET_PER_TICK <=? subreqCount w) eqn:Hb.
  - left. apply Z.leb_le in Hb. split; [exact Hb | reflexivity].
  - right. apply Z.leb_gt in Hb. split; [exact Hb|].
    destruct (ghFetch_loop_run (GithubGet path) 3 700 (with_subreq (subreqCount w + 1) w))
      as (r & w' & k & Hr & Hm & Hc & Hs & Hk & Hk').
    rewrite Hr.
    assert (Hgoal : forall res : outcome gh_result, res <> Beyond ->
      exists res0 w0 k0, (res, w') = (res0, w0) /\ res0 <> Beyond /\ same_memory w w0 /\
        subreqCount w0 = subreqCount w + 1 /\
        sent w0 = sent w ++ replicate k0 (GithubGet path) /\ (1 <= k0 <= 3)%nat).
    { intros res Hres. exists res, w', k. repeat split; try apply Hm; auto; lia. }
    destruct r as [r|]; [|now apply Hgoal].
    destruct (status r =? 404); [now apply Hgoal|].
    destruct (negb (ok r)); [now apply Hgoal|].
    destruct (body_json r) as [|sha [|doc|]| | |]; now apply Hgoal.
Qed.

(** The last attempt of a PUT: what it sent before, and the answer that
    decided the result. *)
Lemma ghPut_last (e : env) (path : string) (obj : gmap string json) (sha : option string)
    (msg : string) (w w' : world) (res : outcome gh_result) :
  ghPut e path obj sha msg w = (res, w') -> subreqCount w < SUBREQ_BUDGET_PER_TICK ->
  exists history : list request,
    let rq := GithubPut path obj (nonempty sha) (commit_message msg path) in
    sent w' = history ++ [rq] /\ same_memory w w' /\
    match (net w history rq).1 with
    | NetworkError => res = Ok (GhFail 0 (Some "github fetch failed"))
    | Answer a =>
        if ok a
        then match body_json a with
             | PNull => res = Throw (null_has_no "content")
             | _ => exists s, res = Ok (GhOk s ∅)
             end
        else res = Ok (GhFail (status a) (Some (text a)))
    end.
Proof.
  intros Hrun Hb. apply Z.leb_gt in Hb.
  unfold ghPut, budget_check, ghFetch, bind, read, update, throw, ret in Hrun.
  cbv beta in Hrun. rewrite Hb in Hrun.
  set (rq := GithubPut path obj (nonempty sha) (commit_message msg path)) in *.
  destruct (ghFetch_loop_attempts rq 3 700 (with_subreq (subreqCount w + 1) w) (Nat.lt_0_succ 2))
    as (w1 & k & Hloop & Hk & Hs & _).
  cbv zeta in Hloop.
  change (sent (with_subreq (subreqCount w + 1) w)) with (sent w) in Hloop, Hs.
  change (net (with_subreq (subreqCount w + 1) w)) with (net w) in Hloop.
  destruct (ghFetch_loop_run rq 3 700 (with_subreq (subreqCount w + 1) w))
    as (r0 & w0 & k0 & Hrun0 & Hmem & _).
  rewrite Hloop in Hrun0. injection Hrun0 as _ <-.
  rewrite Hloop in Hrun.
  exists (sent w ++ replicate (k - 1) rq). cbv zeta.
  assert (Hsent : sent w1 = (sent w ++ replicate (k - 1) rq) ++ [rq]).
  { rewrite Hs, (replicate_last k rq) by lia. now rewrite app_assoc. }
  destruct ((net w (sent w ++ replicate (k - 1) rq) rq).1) as [|a]; simpl in Hrun.
  { injection Hrun as <- <-. auto. }
  destruct (ok a); simpl in Hrun.
  - destruct (body_json a); injection Hrun as <- <-; eauto.
  - injection Hrun as <- <-. auto.
Qed.

(** A PUT that reports success was accepted by GitHub at its last
    attempt. *)
Lemma ghPut_ok (e : env) (path : string) (obj : gmap string json) (sha : option string)
    (msg : string) (w w' : world) (res : gh_result) :
  ghPut e path obj sha msg w = (Ok res, w') -> gh_ok res = true ->
  exists (history : list request) (a : response),
    let rq := GithubPut path obj (nonempty sha) (commit_message msg path) in
    sent w' = history ++ [rq] /\ (net w history rq).1 = Answer a /\ ok a = true /\
    same_memory w w'.
Proof.
  intros Hrun Hok.
  destruct (ghPut_run e path obj sha msg w) as [[_ Hput]|(Hb & _)];
    [rewrite Hput in Hrun; discriminate|].
  destruct (ghPut_last e path obj sha msg w w' (Ok res) Hrun Hb) as (history & Hs & Hm & Hlast).
  cbv zeta in Hs, Hlast. exists history. cbv zeta.
  destruct ((net w history _).1) as [|a].
  { injection Hlast as ->. discriminate. }
  exists a. destruct (ok a) eqn:Ha; [auto|].
  injection Hlast as ->. discriminate.
Qed.

(** A PUT that reports a failure was not accepted: its last attempt met a
    network error (status 0) or an answer outside 2xx, whose status it
    reports. *)
Lemma ghPut_failed (e : env) (path : string) (obj : gmap string json) (sha : option string)
    (msg : string) (w w' : world) (st : Z) (txt : option string) :
  ghPut e path obj sha msg w = (Ok (GhFail st txt), w') ->
  exists history : list request,
    let rq := GithubPut path obj (nonempty sha) (commit_message msg path) in
    sent w' = history ++ [rq] /\
    match (net w history rq).1 with
    | NetworkError => st = 0
    | Answer a => ok a = false /\ st = status a
    end.
Proof.
  intros Hrun.
  destruct (ghPut_run e path obj sha msg w) as [[_ Hput]|(Hb & _)];
    [rewrite Hput in Hrun; discriminate|].
  destruct (ghPut_last e path obj sha msg w w' _ Hrun Hb) as (history & Hs & Hm & Hlast).
  cbv zeta in Hs, Hlast. exists history. cbv zeta. split; [exact Hs|].
  destruct ((net w history _).1) as [|a].
  { now injection Hlast as -> _. }
  destruct (ok a).
  - destruct (body_json a); try discriminate; destruct Hlast; discriminate.
  - now injection Hlast as -> _.
Qed.

(** [storeFlush] on a dirty store, call by call. *)
Lemma storeFlush_dirty (e : env) (msg : string) (w : world) (local : gmap string json) :
  GH_STORE_DIRTY w = true -> GH_STORE w = Some local ->
  storeFlush e msg w =
    match ghPut e (storePath e) local (GH_STORE_SHA w) msg w with
    | (Ok r, w1) =>
        if negb (gh_ok r) && (gh_status r =? 409) then
          match ghGet e (storePath e) w1 with
          | (Ok (GhOk rsha remote), w2) =>
              match ghPut e (storePath e) (local ∪ remote) (nonempty rsha) msg
                      (with_sha (nonempty rsha) (with_store (Some (local ∪ remote)) w2)) with
              | (Ok r2, w3) => flush_commit r2 w3
              | (Throw err, w3) => (Throw err, w3)
              | (Beyond, w3) => (Beyond, w3)
              end
          | (Ok (GhFail _ _), w2) => flush_commit r w2
          | (Throw err, w2) => (Throw err, w2)
          | (Beyond, w2) => (Beyond, w2)
          end
        else flush_commit r w1
    | (Throw err, w1) => (Throw err, w1)
    | (Beyond, w1) => (Beyond, w1)
    end.
Proof.
  intros Hd Hs. unfold storeFlush. unfold bind at 1, read. rewrite Hd. simpl.
  unfold bind at 1, the_document. rewrite Hs.
  unfold bind at 1. unfold bind at 1.
  destruct (ghPut e (storePath e) local (GH_STORE_SHA w) msg w) as [[r|err|] w1]; try reflexivity.
  unfold bind at 1.
  destruct (negb (gh_ok r) && (gh_status r =? 409)); [|reflexivity].
  unfold bind, update, ret. cbv beta.
  destruct (ghGet e (storePath e) w1) as [[remote|err|] w2]; try reflexivity.
  destruct remote as [rsha rdoc|st2 txt2]; reflexivity.
Qed.

Lemma flush_commit_run (r : gh_result) (w : world) (o : outcome unit) (w' : world) :
  flush_commit r w = (o, w') ->
  sent w' = sent w /\ subreqCount w' = subreqCount w /\ GH_STORE w' = GH_STORE w /\
  (o = Ok tt /\ GH_STORE_DIRTY w' = false /\ gh_ok r = true \/
   o = Throw (put_failed (gh_status r) (match r with GhFail _ t => t | _ => None end))
   /\ w' = w /\ gh_ok r = false).
Proof.
  destruct r as [sha j|st txt]; simpl; unfold bind, update, throw; intros [= <- <-]; simpl.
  - repeat split. left. repeat split.
  - repeat split. right. repeat split.
Qed.

Lemma nonempty_idemp (o : option string) : nonempty (nonempty o) = nonempty o.
Proof.
  destruct o as [s|]; simpl; [|reflexivity].
  destruct (String.eqb s "") eqn:E; simpl; [reflexivity | now rewrite E].
Qed.

(** How a flush of a dirty store ends, and how it starts. *)
Lemma storeFlush_outcome (e : env) (msg : string) (w w' : world)
    (local : gmap string json) (r : outcome unit) :
  GH_STORE_DIRTY w = true -> GH_STORE w = Some local ->
  storeFlush e msg w = (r, w') ->
  (subreqCount w < SUBREQ_BUDGET_PER_TICK ->
     exists rest, sent w' = sent w ++
       GithubPut (storePath e) local (nonempty (GH_STORE_SHA w))
         (commit_message msg (storePath e)) :: rest) /\
  (r = Ok tt /\ GH_STORE_DIRTY w' = false \/
   (exists err, r = Throw err) /\ GH_STORE_DIRTY w' = true).
Proof.
  intros Hd Hs Hrun. set (path := storePath e) in *.
  set (put := fun (doc : gmap string json) (sha : option string) =>
                GithubPut path doc (nonempty sha) (commit_message msg path)).
  rewrite (storeFlush_dirty e msg w local Hd Hs) in Hrun. fold path in Hrun.
  destruct (ghPut_run e path local (GH_STORE_SHA w) msg w)
    as [[Hb Hput]|(Hb & res & w1 & k & Hput & Hnb & Hm1 & Hc1 & Hs1 & Hk1)];
    rewrite Hput in Hrun.
  { injection Hrun as <- <-. split; [intros; lia|]. right. split; [eauto | exact Hd]. }
  assert (Hfirst : forall w2 l, sent w2 = sent w1 ++ l ->
            exists rest, sent w2 = sent w ++ put local (GH_STORE_SHA w) :: rest).
  { intros w2 l Hl. rewrite Hl, Hs1. destruct k as [|k]; [lia|].
    simpl. rewrite <- app_assoc. simpl. eauto. }
  destruct Hm1 as (Hm1s & Hm1h & Hm1d & Hm1n).
  assert (Hcommit : forall res0 w0 l, sent w0 = sent w1 ++ l -> GH_STORE_DIRTY w0 = true ->
            flush_commit res0 w0 = (r, w') ->
            (exists rest, sent w' = sent w ++ put local (GH_STORE_SHA w) :: rest) /\
            (r = Ok tt /\ GH_STORE_DIRTY w' = false \/
             (exists err, r = Throw err) /\ GH_STORE_DIRTY w' = true)).
  { intros res0 w0 l Hl Hd0 Hfc.
    apply flush_commit_run in Hfc as (Hsent & _ & _ & Hout).
    split; [apply (Hfirst w' l); congruence|].
    destruct Hout as [(-> & Hdd & _)|(-> & -> & _)]; [left; auto|].
    right. split; [eauto | exact Hd0]. }
  assert (Hthrown : forall err w0 l, sent w0 = sent w1 ++ l -> GH_STORE_DIRTY w0 = true ->
            (Throw err, w0) = (r, w') ->
            (exists rest, sent w' = sent w ++ put local (GH_STORE_SHA w) :: rest) /\
            (r = Ok tt /\ GH_STORE_DIRTY w' = false \/
             (exists err, r = Throw err) /\ GH_STORE_DIRTY w' = true)).
  { intros err w0 l Hl Hd0 [= <- <-]. split; [now apply (Hfirst w0 l)|].
    right. split; [eauto | exact Hd0]. }
  assert (Hgoal : (exists rest, sent w' = sent w ++ put local (GH_STORE_SHA w) :: rest) /\
            (r = Ok tt /\ GH_STORE_DIRTY w' = false \/
             (exists err, r = Throw err) /\ GH_STORE_DIRTY w' = true));
    [|destruct Hgoal; auto].
  destruct res as [res|err|]; [| |congruence].
  2:{ apply (Hthrown err w1 []); [now rewrite app_nil_r | congruence | exact Hrun]. }
  destruct (negb (gh_ok res) && (gh_status res =? 409)).
  2:{ apply (Hcommit res w1 []); [now rewrite app_nil_r | congruence | exact Hrun]. }
  destruct (ghGet_run e path w1)
    as [[Hb2 Hget]|(Hb2 & r2 & w2 & k2 & Hget & Hnb2 & Hm2 & Hc2 & Hs2 & Hk2)];
    rewrite Hget in Hrun.
  { apply (Hthrown (Error "subrequest budget") w1 []);
      [now rewrite app_nil_r | congruence | exact Hrun]. }
  destruct Hm2 as (Hm2s & Hm2h & Hm2d & Hm2n).
  destruct r2 as [[rsha remote|st2 txt2]|err|]; [| | |congruence].
  - set (wm := with_sha (nonempty rsha) (with_store (Some (local ∪ remote)) w2)) in *.
    destruct (ghPut_run e path (local ∪ remote) (nonempty rsha) msg wm)
      as [[Hb3 Hput3]|(Hb3 & res3 & w3 & k3 & Hput3 & Hnb3 & Hm3 & Hc3 & Hs3 & Hk3)];
      rewrite Hput3 in Hrun.
    + apply (Hthrown (Error "subrequest budget") wm (replicate k2 (GithubGet path)));
        [exact Hs2 | | exact Hrun].
      simpl. congruence.
    + destruct Hm3 as (Hm3s & Hm3h & Hm3d & Hm3n).
      assert (Hs3' : sent w3 = sent w1 ++ replicate k2 (GithubGet path) ++
                replicate k3 (GithubPut path (local ∪ remote) (nonempty (nonempty rsha))
                                (commit_message msg path))).
      { rewrite Hs3. simpl. rewrite Hs2. now rewrite <- app_assoc. }
      assert (Hd3 : GH_STORE_DIRTY w3 = true) by (rewrite Hm3d; simpl; congruence).
      destruct res3 as [res3|err|]; [| |congruence].
      * apply (Hcommit res3 w3 _ Hs3' Hd3 Hrun).
      * apply (Hthrown err w3 _ Hs3' Hd3 Hrun).
  - apply (Hcommit res w2 _ Hs2); [congruence | exact Hrun].
  - apply (Hthrown err w2 _ Hs2); [congruence | exact Hrun].
Qed.

(** A flush that returns has saved: its last request is the PUT of the
    document now in memory, and GitHub answered it with a 2xx status. *)
Lemma storeFlush_saved (e : env) (msg : string) (w w' : world) :
  GH_STORE_DIRTY w = true -> storeFlush e msg w = (Ok tt, w') ->
  exists (doc : gmap string json) (sha : option string) (history : list request)
         (a : response),
    let rq := GithubPut (storePath e) doc (nonempty sha) (commit_message msg (storePath e)) in
    GH_STORE w' = Some doc /\ sent w' = history ++ [rq] /\
    (net w history rq).1 = Answer a /\ ok a = true.
Proof.
  intros Hd Hrun.
  destruct (GH_STORE w) as [local|] eqn:Hs.
  2:{ unfold storeFlush, bind, read, the_document in Hrun. rewrite Hd in Hrun.
      simpl in Hrun. rewrite Hs in Hrun. discriminate. }
  rewrite (storeFlush_dirty e msg w local Hd Hs) in Hrun.
  assert (Hcommit : forall r w1 w0 doc sha,
    ghPut e (storePath e) doc sha msg w0 = (Ok r, w1) -> GH_STORE w0 = Some doc ->
    net w0 = net w -> flush_commit r w1 = (Ok tt, w') ->
    exists doc sha history a,
      let rq := GithubPut (storePath e) doc (nonempty sha) (commit_message msg (storePath e)) in
      GH_STORE w' = Some doc /\ sent w' = history ++ [rq] /\
      (net w history rq).1 = Answer a /\ ok a = true).
  { intros r w1 w0 doc sha Hput Hdoc Hnet Hfc.
    apply flush_commit_run in Hfc as (Hsent & _ & Hst & [(_ & _ & Hok)|(? & _)]);
      [|discriminate].
    destruct (ghPut_ok _ _ _ _ _ _ _ _ Hput Hok) as (history & a & H1 & H2 & H3 & (M1 & _)).
    exists doc, sha, history, a. simpl.
    rewrite Hst, M1, Hsent, <- Hnet. auto. }
  destruct (ghPut e (storePath e) local (GH_STORE_SHA w) msg w) as [[r|err|] w1] eqn:Hp;
    try discriminate.
  destruct (negb (gh_ok r) && (gh_status r =? 409)) eqn:H409.
  2:{ exact (Hcommit _ _ _ _ _ Hp Hs eq_refl Hrun). }
  destruct (ghPut_run e (storePath e) local (GH_STORE_SHA w) msg w)
    as [[_ Hp']|(_ & r' & w1' & k & Hp' & _ & (_ & _ & _ & N1) & _)]; rewrite Hp in Hp';
    [discriminate|]. injection Hp' as <- <-.
  destruct (ghGet_run e (storePath e) w1)
    as [[_ Hg]|(_ & r2 & w2 & k2 & Hg & _ & (_ & _ & _ & N2) & _)]; rewrite Hg in Hrun;
    [discriminate|].
  destruct r2 as [[rsha remote|st2 txt2]|err|]; try discriminate.
  - destruct (ghPut e (storePath e) (local ∪ remote) (nonempty rsha) msg
                (with_sha (nonempty rsha) (with_store (Some (local ∪ remote)) w2)))
      as [[r3|err|] w3] eqn:Hput3; try discriminate.
    refine (Hcommit _ _ _ _ _ Hput3 eq_refl _ Hrun). simpl. congruence.
  - apply flush_commit_run in Hrun as (_ & _ & _ & [(_ & _ & Hok)|(? & _)]); [|discriminate].
    rewrite Hok in H409. discriminate.
Qed.

(** C2, as the code has it. A clean store is left alone: no request is
    sent. On a dirty store, while the budget lasts, the first request is
    the PUT of the in-memory document under the last-observed SHA. The
    call returns with the flag cleared or throws with the flag still set,
    and it returns only after a PUT was answered 2xx, that PUT being the
    last request sent and its document the one in memory. The first PUT
    decides how the call goes on. When it succeeds the call returns. When
    it throws, that exception is the call's. When it fails (a network
    error or an answer outside 2xx at its last attempt) with a status
    other than 409, the call throws that failure and sends nothing more.
    After a 409 the remote document is fetched again: when that fetch
    throws, its exception is the call's; when it reports a failure there
    is no retry and the call throws the 409; when it succeeds the remote
    document is merged under the local one (local keys win) and the PUT
    is issued once more (three store calls in all), and the call returns
    if that PUT succeeds and throws its failure if it does not. *)
Theorem storeFlush_protocol (e : env) (msg : string) (w : world) :
  (GH_STORE_DIRTY w = false -> storeFlush e msg w = (Ok tt, w)) /\
  (forall (local : gmap string json) (r : outcome unit) (w' : world),
     GH_STORE_DIRTY w = true -> GH_STORE w = Some local ->
     storeFlush e msg w = (r, w') ->
     let path := storePath e in
     let put (doc : gmap string json) (sha : option string) :=
       GithubPut path doc (nonempty sha) (commit_message msg path) in
     (subreqCount w < SUBREQ_BUDGET_PER_TICK ->
        exists rest, sent w' = sent w ++ put local (GH_STORE_SHA w) :: rest) /\
     (r = Ok tt /\ GH_STORE_DIRTY w' = false \/
      (exists err, r = Throw err) /\ GH_STORE_DIRTY w' = true) /\
     (r = Ok tt ->
        exists (doc : gmap string json) (sha : option string)
               (history : list request) (a : response),
          GH_STORE w' = Some doc /\ sent w' = history ++ [put doc sha] /\
          (net w history (put doc sha)).1 = Answer a /\ ok a = true) /\
     (forall res w1,
        ghPut e path local (GH_STORE_SHA w) msg w = (res, w1) ->
        (forall err, res = Throw err -> r = Throw err /\ w' = w1) /\
        (forall sha j, res = Ok (GhOk sha j) -> r = Ok tt) /\
        (forall st txt, res = Ok (GhFail st txt) ->
           (exists history,
              sent w1 = history ++ [put local (GH_STORE_SHA w)] /\
              match (net w history (put local (GH_STORE_SHA w))).1 with
              | NetworkError => st = 0
              | Answer a => ok a = false /\ st = status a
              end) /\
           (st <> 409 -> r = Throw (put_failed st txt) /\ w' = w1) /\
           (st = 409 ->
            forall g w2, ghGet e path w1 = (g, w2) ->
              (forall err, g = Throw err -> r = Throw err /\ w' = w2) /\
              (forall st2 txt2, g = Ok (GhFail st2 txt2) ->
                 r = Throw (put_failed 409 txt) /\ w' = w2 /\
                 subreqCount w' = subreqCount w + 2) /\
              (forall rsha remote, g = Ok (GhOk rsha remote) ->
                 GH_STORE w' = Some (local ∪ remote) /\
                 (forall k v, local !! k = Some v -> (local ∪ remote) !! k = Some v) /\
                 (forall k, local !! k = None -> (local ∪ remote) !! k = remote !! k) /\
                 (subreqCount w2 < SUBREQ_BUDGET_PER_TICK ->
                    subreqCount w' = subreqCount w + 3 /\
                    exists n, (1 <= n <= 3)%nat /\
                      sent w' = sent w2 ++ replicate n (put (local ∪ remote) rsha)) /\
                 (forall res3 w3,
                    ghPut e path (local ∪ remote) (nonempty rsha) msg
                      (with_sha (nonempty rsha) (with_store (Some (local ∪ remote)) w2))
                    = (res3, w3) ->
                    (forall err, res3 = Throw err -> r = Throw err) /\
                    (forall sha3 j3, res3 = Ok (GhOk sha3 j3) -> r = Ok tt) /\
                    (forall st3 txt3, res3 = Ok (GhFail st3 txt3) ->
                       r = Throw (put_failed st3 txt3)))))))).
Proof.
  split.
  { intros Hd. unfold storeFlush, bind, read. now rewrite Hd. }
  intros local r w' Hd Hs Hrun path put.
  destruct (storeFlush_outcome e msg w w' local r Hd Hs Hrun) as [Hfirst Hout].
  split; [exact Hfirst|]. split; [exact Hout|]. split.
  { intros ->. exact (storeFlush_saved e msg w w' Hd Hrun). }
  intros res w1 Hput.
  rewrite (storeFlush_dirty e msg w local Hd Hs) in Hrun. fold path in Hrun.
  rewrite Hput in Hrun. split; [|split].
  { intros err ->. now injection Hrun as <- <-. }
  { intros sha j ->. simpl in Hrun. unfold bind, update in Hrun. now injection Hrun as <- _. }
  intros st txt ->. split; [exact (ghPut_failed _ _ _ _ _ _ _ _ _ Hput)|].
  simpl in Hrun. split.
  { intros Hne. apply Z.eqb_neq in Hne. rewrite Hne in Hrun.
    unfold throw in Hrun. now injection Hrun as <- <-. }
  intros -> g w2 Hget. change (409 =? 409) with true in Hrun. rewrite Hget in Hrun.
  destruct (ghPut_run e path local (GH_STORE_SHA w) msg w)
    as [[_ Hp]|(_ & res' & w1' & k & Hp & _ & _ & Hc1 & _)]; rewrite Hput in Hp;
    [discriminate|]. injection Hp as <- <-.
  split; [|split].
  { intros err ->. now injection Hrun as <- <-. }
  { intros st2 txt2 ->. unfold throw in Hrun. injection Hrun as <- <-.
    split; [reflexivity|]. split; [reflexivity|].
    destruct (ghGet_run e path w1) as [[_ Hg]|(_ & g' & w2' & k2 & Hg & _ & _ & Hc2 & _)];
      rewrite Hget in Hg; [discriminate|]. injection Hg as <- <-. lia. }
  intros rsha remote ->.
  set (wm := with_sha (nonempty rsha) (with_store (Some (local ∪ remote)) w2)) in *.
  destruct (ghGet_run e path w1) as [[_ Hg]|(_ & g' & w2' & k2 & Hg & _ & _ & Hc2 & _)];
    rewrite Hget in Hg; [discriminate|]. injection Hg as <- <-.
  destruct (ghPut e path (local ∪ remote) (nonempty rsha) msg wm) as [res3 w3] eqn:Hput3.
  assert (Hst' : GH_STORE w' = Some (local ∪ remote) /\
                 (subreqCount w2 < SUBREQ_BUDGET_PER_TICK ->
                  subreqCount w' = subreqCount w + 3 /\
                  exists n, (1 <= n <= 3)%nat /\
                    sent w' = sent w2 ++ replicate n (put (local ∪ remote) rsha))).
  { destruct (ghPut_run e path (local ∪ remote) (nonempty rsha) msg wm)
      as [[Hb3 Hp3]|(Hb3 & res3' & w3' & k3 & Hp3 & Hnb3 & (M1 & _) & Hc3 & Hs3 & Hk3)];
      rewrite Hput3 in Hp3.
    - injection Hp3 as -> ->. injection Hrun as _ <-.
      split; [reflexivity|]. simpl in Hb3. intros; lia.
    - injection Hp3 as <- <-.
      assert (Hw' : GH_STORE w' = GH_STORE w3 /\ sent w' = sent w3 /\
                    subreqCount w' = subreqCount w3).
      { destruct res3 as [res3|err|]; [| |congruence].
        - apply flush_commit_run in Hrun as (? & ? & ? & _). auto.
        - injection Hrun as _ <-. auto. }
      destruct Hw' as (E1 & E2 & E3). split; [rewrite E1, M1; reflexivity|].
      intros _. split; [rewrite E3, Hc3; simpl; lia|].
      exists k3. split; [exact Hk3|]. rewrite E2, Hs3. simpl.
      unfold put. now rewrite nonempty_idemp. }
  destruct Hst' as [Hst' Hcount].
  split; [exact Hst'|].
  split; [intros; now apply lookup_union_Some_l|].
  split; [intros; now apply lookup_union_r|].
  split; [exact Hcount|].
  intros res3' w3' [= <- <-]. split; [|split].
  - intros err ->. now injection Hrun as <- _.
  - intros sha3 j3 ->. simpl in Hrun. unfold bind, update in Hrun. now injection Hrun as <- _.
  - intros st3 txt3 ->. simpl in Hrun. unfold throw in Hrun. now injection Hrun as <- _.
Qed.

Lemma storeFlush_protocol_witness :
  let w := Scenario.unsaved (Scenario.conflict_once Scenario.remote_doc) in
  let w' := snd (storeFlush Scenario.e0 "api: watchlist add" w) in
  let put doc sha := GithubPut "cf-cache/store.json" doc (Some sha) "api: watchlist add" in
  let merged := Scenario.local_doc ∪ Scenario.remote_doc in
  GH_STORE w' = Some merged /\
  merged !! "watchlist" = Some (JArr [JStr "1234567"]) /\
  merged !! "online_state" = Some (JObj ∅) /\
  subreqCount w' = 3 /\
  sent w' = [put Scenario.local_doc "v1"; GithubGet "cf-cache/store.json"; put merged "v2"] /\
  GH_STORE_DIRTY w' = false.
Proof.
  intros w w' put merged.
  destruct (storeFlush_protocol Scenario.e0 "api: watchlist add" w) as [_ H].
  destruct (H Scenario.local_doc (fst (storeFlush Scenario.e0 "api: watchlist add" w)) w'
              eq_refl eq_refl (surjective_pairing _)) as (_ & _ & _ & Hc).
  destruct (Hc _ _ (surjective_pairing _)) as (_ & _ & Hfail).
  destruct (Hfail 409 (Some "conflict")) as (_ & _ & Hconflict).
  { vm_compute. reflexivity. }
  destruct (Hconflict eq_refl _ _ (surjective_pairing _)) as (_ & _ & Hmerge).
  destruct (Hmerge (Some "v2") Scenario.remote_doc) as (Hst & Hl & Hr & Hn & _).
  { vm_compute. reflexivity. }
  split; [exact Hst|].
  split; [apply Hl; reflexivity|].
  split; [rewrite Hr; reflexivity|].
  split; [vm_compute; reflexivity|].
  split; vm_compute; reflexivity.
Defined.

(** C2 as stated fails in two ways. After a 409 whose re-fetch fails (the
    contents call answers 500) nothing is merged and the PUT is not
    retried: one PUT, three attempts at the GET, then the 409 is thrown.
    And with the subrequest budget spent a dirty store is not PUT at all. *)
Lemma storeFlush_conflict_without_retry :
  let put := GithubPut "cf-cache/store.json" Scenario.local_doc (Some "v1") "m" in
  let get := GithubGet "cf-cache/store.json" in
  fst (storeFlush Scenario.e0 "m" (Scenario.unsaved Scenario.conflict_then_down))
    = Throw (Error "GitHub PUT failed 409: conflict") /\
  sent (snd (storeFlush Scenario.e0 "m" (Scenario.unsaved Scenario.conflict_then_down)))
    = [put; get; get; get] /\
  GH_STORE_DIRTY Scenario.spent = true /\
  storeFlush Scenario.e0 "m" Scenario.spent
    = (Throw (Error "subrequest budget"), Scenario.spent).
Proof. vm_compute. repeat split. Qed.

(** ** The cleanup sweep *)

Lemma maxAge_of_ttlMap (key : string) :
  maxAge_of key ttlMap = if String.prefix "member:" key then 604800 else 86400.
Proof.
  unfold ttlMap, maxAge_of.
  destruct (String.prefix "rating:" key) eqn:E1.
  { destruct key as [|[[][][][][][][][]] key]; simpl in *; try discriminate; reflexivity. }
  destruct (String.prefix "division:" key) eqn:E2.
  { destruct key as [|[[][][][][][][][]] key]; simpl in *; try discriminate; reflexivity. }
  destruct (String.prefix "member:" key); [reflexivity|].
  repeat match goal with |- context [if ?b then _ else _] => destruct b end; reflexivity.
Qed.

Lemma elem_of_keysToDelete (now : Z) (st : gmap string json) (key : string) :
  key ∈ keysToDelete now st <->
  exists entry, st !! key = Some entry /\ sweeps now key entry = true.
Proof.
  unfold keysToDelete. rewrite list_elem_of_bind. split.
  - intros (k & Hin & _). destruct (st !! k) as [entry|] eqn:Hk; [|now apply elem_of_nil in Hin].
    destruct (sweeps now k entry) eqn:Hsw; [|now apply elem_of_nil in Hin].
    apply list_elem_of_singleton in Hin. subst. eauto.
  - intros (entry & Hk & Hsw). exists key. rewrite Hk, Hsw. split.
    + apply list_elem_of_singleton. reflexivity.
    + apply list_elem_of_fmap. exists (key, entry). split; [reflexivity|].
      now apply elem_of_map_to_list.
Qed.

(** What a key that [sweeps] selects looks like. *)
Lemma sweeps_true (now : Z) (key : string) (entry : json) :
  sweeps now key entry = true ->
  key <> STORE_CLEANUP_KEY /\ (exists m, entry = JObj m) /\
  ((exists c, number_field entry "cached_at" = Some c
              /\ now - c > 2 * (if String.prefix "member:" key then 604800 else 86400))
   \/ (exists x, number_field entry "expiresAt" = Some x /\ x < now)).
Proof.
  unfold sweeps. rewrite maxAge_of_ttlMap.
  destruct (String.eqb key STORE_CLEANUP_KEY) eqn:Ek; [discriminate|].
  apply String.eqb_neq in Ek.
  destruct (negb (truthy entry) || negb (typeof_object entry)) eqn:Eo; [discriminate|].
  intros H. split; [exact Ek|].
  assert (Hexp : match number_field entry "expiresAt" with
                 | Some x => x <? now | None => false end = true ->
                 exists x, number_field entry "expiresAt" = Some x /\ x < now).
  { destruct (number_field entry "expiresAt") as [x|]; [|discriminate].
    intros Hx%Z.ltb_lt. eauto. }
  assert (Hobj : (exists c, number_field entry "cached_at" = Some c) \/
                 (exists x, number_field entry "expiresAt" = Some x) ->
                 exists m, entry = JObj m).
  { unfold number_field, field. destruct entry; eauto; intros [[? ?]|[? ?]]; discriminate. }
  destruct (number_field entry "cached_at") as [c|] eqn:Ec.
  - destruct (now - c >? (if String.prefix "member:" key then 604800 else 86400) * 2) eqn:Eg.
    + split; [apply Hobj; eauto|]. left. exists c. split; [reflexivity|].
      apply Z.gtb_lt in Eg. lia.
    + split; [apply Hobj; eauto|]. right. now apply Hexp.
  - destruct (Hexp H) as (x & Hx & Hlt). split; [apply Hobj; eauto|]. right. eauto.
Qed.

Lemma for_each_storeDel (l : list string) :
  forall (w : world) (st : gmap string json),
  GH_STORE w = Some st ->
  exists w', for_each l storeDel w = (Ok tt, w') /\
    GH_STORE w' = Some (foldl (fun m k => delete k m) st l) /\
    clock w' = clock w.
Proof.
  induction l as [|k l IH]; intros w st Hst.
  - exists w. simpl. auto.
  - simpl. unfold bind at 1. unfold storeDel at 1. unfold bind at 1.
    rewrite (the_store_loaded w st Hst).
    destruct (st !! k) as [v|] eqn:Hk.
    + unfold bind, update. cbv beta.
      destruct (IH (with_dirty true (with_store (Some (delete k st)) w)) (delete k st) eq_refl)
        as (w' & Hrun & Hst' & Hc).
      exists w'. rewrite Hrun. auto.
    + unfold ret. destruct (IH w st Hst) as (w' & Hrun & Hst' & Hc).
      exists w'. rewrite Hrun. rewrite (delete_id st k Hk). auto.
Qed.

Lemma lookup_foldl_delete (l : list string) :
  forall (st : gmap string json) (key : string),
  foldl (fun m k => delete k m) st l !! key = if decide (key ∈ l) then None else st !! key.
Proof.
  induction l as [|k l IH]; intros st key; simpl.
  - destruct (decide (key ∈ [])) as [H|_]; [now apply elem_of_nil in H | reflexivity].
  - rewrite IH. destruct (decide (key ∈ l)) as [Hin|Hnin].
    + destruct (decide (key ∈ k :: l)) as [_|Hn]; [reflexivity|].
      exfalso. apply Hn. now right.
    + destruct (decide (key = k)) as [->|Hne].
      * rewrite lookup_delete_eq. destruct (decide (k ∈ k :: l)) as [_|Hn]; [reflexivity|].
        exfalso. apply Hn. left.
      * rewrite lookup_delete_ne by congruence.
        destruct (decide (key ∈ k :: l)) as [Hin|_]; [|reflexivity].
        apply elem_of_cons in Hin as [?|?]; contradiction.
Qed.

(** The two ways [maybeCleanupStore] ends once the document is in
    memory: without a sweep, or with the swept document stamped. *)
Lemma maybeCleanupStore_run (e : env) (w w0 : world) (st : gmap string json) :
  storeLoad e w = (Ok tt, w0) -> GH_STORE w0 = Some st ->
  exists r w', maybeCleanupStore e w = (r, w') /\
    (GH_STORE w' = Some st \/
     GH_STORE w' = Some (<[STORE_CLEANUP_KEY := JNum (clock w0 / 1000)]>
                          (foldl (fun m k => delete k m) st
                                 (keysToDelete (clock w0 / 1000) st)))).
Proof.
  intros Hl Hst. unfold maybeCleanupStore. unfold bind at 1. rewrite Hl.
  unfold bind at 1. unfold storeGet, bind at 1. rewrite (the_store_loaded w0 st Hst).
  unfold ret at 1. unfold bind at 1. unfold ts, bind at 1, Date_now, read. unfold ret at 1.
  destruct (default (JNum 0) (st !! STORE_CLEANUP_KEY)) as [| |last| | |];
    try (eexists _, _; split; [reflexivity|left; exact Hst]).
  destruct (clock w0 / 1000 - last <? STORE_CLEANUP_INTERVAL).
  { eexists _, _. split; [reflexivity|left; exact Hst]. }
  unfold bind at 1. rewrite (the_store_loaded w0 st Hst).
  unfold bind at 1.
  destruct (for_each_storeDel (keysToDelete (clock w0 / 1000) st) w0 st Hst)
    as (w1 & Hrun & Hst1 & Hc1).
  rewrite Hrun. unfold storeSet, bind at 1. rewrite (the_store_loaded w1 _ Hst1).
  unfold bind, update. cbv beta.
  eexists _, _. split; [reflexivity|]. right. reflexivity.
Qed.

(** A long-lived key shaped as the data model says carries no numeric
    [cached_at] or [expiresAt]. *)
Lemma data_model_unstamped (key : string) (entry : json) :
  long_lived key -> key <> STORE_CLEANUP_KEY -> follows_data_model key entry ->
  number_field entry "cached_at" = None /\ number_field entry "expiresAt" = None.
Proof.
  intros Hll Hne (Hw & Hp & Hs & Hj).
  destruct Hll as [Hk|[Hk|[Hk|[[scope Hk]|Hk]]]]; [| | | |contradiction].
  - destruct (Hw Hk) as [l ->]. split; reflexivity.
  - destruct (Hs Hk) as (m & -> & Hm). unfold number_field, field.
    split.
    + destruct (m !! "cached_at") as [x|] eqn:E; [|reflexivity].
      destruct (Hm _ _ E) as [r ->]. reflexivity.
    + destruct (m !! "expiresAt") as [x|] eqn:E; [|reflexivity].
      destruct (Hm _ _ E) as [r ->]. reflexivity.
  - destruct (Hj Hk) as (m & -> & Hm). unfold number_field, field.
    assert (Hout : forall f, f ∉ job_fields -> m !! f = None).
    { intros f Hf. apply not_elem_of_dom. intros Hin. apply Hf, Hm, Hin. }
    rewrite !Hout; [split; reflexivity| |]; unfold job_fields;
      rewrite !not_elem_of_union, !not_elem_of_singleton; repeat split; discriminate.
  - destruct (Hp scope Hk) as [l ->]. split; reflexivity.
Qed.

Lemma unstamped_not_swept (now : Z) (key : string) (entry : json) :
  number_field entry "cached_at" = None -> number_field entry "expiresAt" = None ->
  sweeps now key entry = false.
Proof.
  intros Hc Hx. unfold sweeps. rewrite Hc, Hx.
  destruct (String.eqb key STORE_CLEANUP_KEY); [reflexivity|].
  destruct (negb (truthy entry) || negb (typeof_object entry)); reflexivity.
Qed.

(** C8. Whatever a run of [maybeCleanupStore] removes from the document
    is an object with a numeric [cached_at] more than twice the TTL of its
    prefix in the past (7 days for [member:], 24 hours otherwise) or with
    a numeric [expiresAt] in the past. [watchlist], [online_state],
    [audit:job] and [audit:partial:<scope>], shaped as the data model
    says, come out as they went in, and [_last_cleanup] is never
    removed. *)
Theorem cleanup_deletes_only_expired_entries (e : env) (w w0 w' : world)
    (st st' : gmap string json) (r : outcome unit) :
  storeLoad e w = (Ok tt, w0) -> GH_STORE w0 = Some st ->
  maybeCleanupStore e w = (r, w') -> GH_STORE w' = Some st' ->
  let now := clock w0 / 1000 in
  (forall key entry, st !! key = Some entry -> st' !! key = None ->
     key <> STORE_CLEANUP_KEY /\ (exists m, entry = JObj m) /\
     ((exists c, number_field entry "cached_at" = Some c /\
                 now - c > 2 * (if String.prefix "member:" key then 604800 else 86400))
      \/ (exists x, number_field entry "expiresAt" = Some x /\ x < now))) /\
  (forall key entry, long_lived key -> key <> STORE_CLEANUP_KEY ->
     st !! key = Some entry -> follows_data_model key entry ->
     st' !! key = Some entry) /\
  (is_Some (st !! STORE_CLEANUP_KEY) -> is_Some (st' !! STORE_CLEANUP_KEY)).
Proof.
  intros Hl Hst Hrun Hst' now.
  destruct (maybeCleanupStore_run e w w0 st Hl Hst) as (r0 & w1 & Hrun' & Hend).
  rewrite Hrun in Hrun'. injection Hrun' as <- <-.
  destruct Hend as [Hsame|Hswept]; rewrite Hst' in *.
  { injection Hsame as ->. repeat split; try congruence.
    all: intros; congruence. }
  injection Hswept as ->. fold now.
  split; [|split].
  - intros key entry Hk Hgone.
    destruct (decide (key = STORE_CLEANUP_KEY)) as [->|Hne].
    { rewrite lookup_insert_eq in Hgone. discriminate. }
    rewrite lookup_insert_ne in Hgone by congruence.
    rewrite lookup_foldl_delete in Hgone.
    destruct (decide (key ∈ keysToDelete now st)) as [Hin|_]; [|congruence].
    apply elem_of_keysToDelete in Hin as (entry' & Hk' & Hsw).
    rewrite Hk in Hk'. injection Hk' as <-.
    now apply sweeps_true.
  - intros key entry Hll Hne Hk Hdm.
    rewrite lookup_insert_ne by congruence.
    rewrite lookup_foldl_delete.
    destruct (decide (key ∈ keysToDelete now st)) as [Hin|_]; [|exact Hk].
    apply elem_of_keysToDelete in Hin as (entry' & Hk' & Hsw).
    rewrite Hk in Hk'. injection Hk' as <-.
    destruct (data_model_unstamped key entry Hll Hne Hdm) as [Hc Hx].
    rewrite (unstamped_not_swept now key entry Hc Hx) in Hsw. discriminate.
  - intros _. rewrite lookup_insert_eq. eauto.
Qed.

Lemma cleanup_deletes_only_expired_entries_witness :
  let w := Scenario.warm Scenario.aged_doc "v1" 1000000000 Scenario.offline in
  GH_STORE (snd (maybeCleanupStore Scenario.e0 w)) = Some Scenario.swept_doc /\
  let now := 1000000 in
  (forall key entry, Scenario.aged_doc !! key = Some entry ->
     Scenario.swept_doc !! key = None ->
     key <> STORE_CLEANUP_KEY /\ (exists m, entry = JObj m) /\
     ((exists c, number_field entry "cached_at" = Some c /\
                 now - c > 2 * (if String.prefix "member:" key then 604800 else 86400))
      \/ (exists x, number_field entry "expiresAt" = Some x /\ x < now))) /\
  (forall key entry, long_lived key -> key <> STORE_CLEANUP_KEY ->
     Scenario.aged_doc !! key = Some entry -> follows_data_model key entry ->
     Scenario.swept_doc !! key = Some entry) /\
  (is_Some (Scenario.aged_doc !! STORE_CLEANUP_KEY) ->
   is_Some (Scenario.swept_doc !! STORE_CLEANUP_KEY)).
Proof.
  intros w. split; [vm_compute; reflexivity|].
  apply (cleanup_deletes_only_expired_entries Scenario.e0 w w
           (snd (maybeCleanupStore Scenario.e0 w)) Scenario.aged_doc Scenario.swept_doc
           (fst (maybeCleanupStore Scenario.e0 w))).
  - reflexivity.
  - reflexivity.
  - apply surjective_pairing.
  - vm_compute. reflexivity.
Defined.

(** ** The presence tracker *)

Lemma presence_step_transition (now : Z) (presence state : gmap string json)
    (changed : bool) (cid : string) :
  presence_step now presence (state, changed) cid =
    match transition_of now (state !! cid) (presence !! cid) with
    | Some v => (<[cid := v]> state, true)
    | None => (state, changed)
    end.
Proof.
  unfold presence_step, transition_of, online_record.
  destruct (has_keys (or_empty (presence !! cid)) &&
            negb (truthy_opt (field (or_empty (state !! cid)) "online"))); [reflexivity|].
  destruct (negb (has_keys (or_empty (presence !! cid))) &&
            truthy_opt (field (or_empty (state !! cid)) "online")); reflexivity.
Qed.

Lemma transition_of_changes (now : Z) (prev info : option json) :
  is_Some (transition_of now prev info) <->
  truthy_opt (field (or_empty prev) "online") <> has_keys (or_empty info).
Proof.
  unfold transition_of.
  destruct (has_keys (or_empty info)), (truthy_opt (field (or_empty prev) "online"));
    simpl; split; intros H; try (now eauto); try congruence;
    try (destruct H as [? H]; discriminate).
Qed.

(** The loop over a duplicate-free list of CIDs treats each of them on its
    own. *)
Lemma presence_fold (now : Z) (presence : gmap string json) (l : list string) :
  NoDup l -> forall (state : gmap string json) (changed : bool),
  let r := fold_left (presence_step now presence) l (state, changed) in
  (forall cid, r.1 !! cid =
     if decide (cid ∈ l) then
       match transition_of now (state !! cid) (presence !! cid) with
       | Some v => Some v
       | None => state !! cid
       end
     else state !! cid) /\
  (r.2 = true <->
   changed = true \/
   exists cid, cid ∈ l /\ is_Some (transition_of now (state !! cid) (presence !! cid))).
Proof.
  induction 1 as [|k l Hk Hnd IH]; intros state changed; cbv zeta; cbn [fold_left].
  - simpl. split.
    + intros cid. destruct (decide (cid ∈ [])) as [H|_]; [now apply elem_of_nil in H|reflexivity].
    + split; [auto|]. intros [?|(cid & H & _)]; [assumption|now apply elem_of_nil in H].
  - rewrite presence_step_transition.
    destruct (transition_of now (state !! k) (presence !! k)) as [v|] eqn:Hv.
    + destruct (IH (<[k := v]> state) true) as [Hlook Hch]. split.
      * intros cid. rewrite Hlook.
        destruct (decide (cid = k)) as [->|Hne].
        -- destruct (decide (k ∈ l)) as [?|_]; [contradiction|].
           destruct (decide (k ∈ k :: l)) as [_|Hn]; [|exfalso; apply Hn; left].
           rewrite Hv. apply lookup_insert_eq.
        -- rewrite !lookup_insert_ne by congruence.
           destruct (decide (cid ∈ l)) as [Hin|Hnin];
             destruct (decide (cid ∈ k :: l)) as [Hin'|Hnin']; try reflexivity.
           ++ exfalso. apply Hnin'. now right.
           ++ apply elem_of_cons in Hin' as [?|?]; contradiction.
      * rewrite Hch. split; [|auto]. intros _. right. exists k. split; [left|].
        rewrite Hv. eauto.
    + destruct (IH state changed) as [Hlook Hch]. split.
      * intros cid. rewrite Hlook.
        destruct (decide (cid = k)) as [->|Hne].
        -- destruct (decide (k ∈ l)) as [?|_]; [contradiction|].
           destruct (decide (k ∈ k :: l)) as [_|Hn]; [|exfalso; apply Hn; left].
           now rewrite Hv.
        -- destruct (decide (cid ∈ l)) as [Hin|Hnin];
             destruct (decide (cid ∈ k :: l)) as [Hin'|Hnin']; try reflexivity.
           ++ exfalso. apply Hnin'. now right.
           ++ apply elem_of_cons in Hin' as [?|?]; contradiction.
      * rewrite Hch. split.
        -- intros [?|(cid & Hin & Hs)]; [auto|]. right. exists cid. split; [now right|assumption].
        -- intros [?|(cid & Hin & Hs)]; [auto|]. right. exists cid. split; [|assumption].
           apply elem_of_cons in Hin as [->|?]; [|assumption].
           rewrite Hv in Hs. destruct Hs as [? ?]. discriminate.
Qed.

(** The loop of [runPresence], CID by CID: a CID whose online status in
    the feed differs from the stored one gets the record of its
    transition, every other entry is left as it is, and [changed] says
    whether any status differed. *)
Lemma presence_loop_spec (now : Z) (presence state : gmap string json) :
  (forall cid, (presence_loop now presence state).1 !! cid =
     match transition_of now (state !! cid) (presence !! cid) with
     | Some v => Some v
     | None => state !! cid
     end) /\
  ((presence_loop now presence state).2 = true <->
   exists cid, was_online state cid <> is_online presence cid).
Proof.
  unfold presence_loop.
  destruct (presence_fold now presence (elements (dom state ∪ dom presence))
              (NoDup_elements _) state false) as [Hlook Hch].
  split.
  - intros cid. rewrite Hlook.
    destruct (decide (cid ∈ elements (dom state ∪ dom presence))) as [_|Hn]; [reflexivity|].
    rewrite elem_of_elements, elem_of_union, !elem_of_dom in Hn.
    destruct (state !! cid) eqn:E1; [exfalso; apply Hn; left; eauto|].
    destruct (presence !! cid) eqn:E2; [exfalso; apply Hn; right; eauto|].
    reflexivity.
  - rewrite Hch. split.
    + intros [?|(cid & _ & Hs)]; [discriminate|]. exists cid.
      now apply transition_of_changes in Hs.
    + intros (cid & Hne). right. exists cid. split.
      * rewrite elem_of_elements, elem_of_union, !elem_of_dom.
        destruct (state !! cid) eqn:E1; [left; eauto|].
        destruct (presence !! cid) eqn:E2; [right; eauto|].
        exfalso. apply Hne. unfold was_online, is_online. now rewrite E1, E2.
      * now apply transition_of_changes.
Qed.

Lemma trackedFetch_run (rq : request) (w : world) :
  exists r w1, trackedFetch rq w = (Ok r, w1) /\ same_memory w w1.
Proof.
  unfold trackedFetch, bind, read, update, try_catch, fetchWithTimeout, ret. cbv beta.
  destruct (SUBREQ_BUDGET_PER_TICK <=? subreqCount w).
  { eexists _, _. split; [reflexivity | apply same_memory_refl]. }
  simpl. destruct (net w (sent w) rq) as [res dt].
  destruct (25000 <? dt).
  { eexists _, _. split; [reflexivity | repeat split]. }
  destruct res as [|a]; eexists _, _; (split; [reflexivity | repeat split]).
Qed.

(** Every entry of the map [getOnlineMap] builds is a record with keys. *)
Lemma add_controller_entries (now : Z) (cs : list json) :
  forall m m' : gmap string json,
  (forall cid v, m !! cid = Some v -> has_keys v = true /\ truthy v = true) ->
  add_controllers now cs m = Ok m' ->
  forall cid v, m' !! cid = Some v -> has_keys v = true /\ truthy v = true.
Proof.
  induction cs as [|c cs IH]; intros m m' Hm; simpl.
  { intros [= <-]. exact Hm. }
  destruct (add_controller now m c) as [m1| |] eqn:Hadd; try discriminate.
  apply IH. intros cid v. unfold add_controller in Hadd.
  destruct (cid_of c) as [k| |]; try discriminate.
  destruct (callsign_of c) as [callsign| |]; try discriminate.
  destruct (nonempty k) as [k'|]; [|injection Hadd as <-; apply Hm].
  destruct (endsWith callsign "_ATIS"); injection Hadd as <-; [apply Hm|].
  destruct (decide (k' = cid)) as [->|Hne].
  - rewrite lookup_insert_eq. intros [= <-]. split; reflexivity.
  - rewrite lookup_insert_ne by exact Hne. apply Hm.
Qed.

(** [getOnlineMap] leaves the store alone however it ends, and in the map
    it returns a CID is online exactly when it has an entry. *)
Lemma getOnlineMap_run (w : world) :
  exists (o : outcome (gmap string json)) (w1 : world),
    getOnlineMap w = (o, w1) /\ same_memory w w1 /\
    forall presence, o = Ok presence ->
      forall cid, is_online presence cid = true <-> is_Some (presence !! cid).
Proof.
  assert (Hempty : forall presence, Ok (∅ : gmap string json) = Ok presence ->
            forall cid, is_online presence cid = true <-> is_Some (presence !! cid)).
  { intros presence [= <-] cid. unfold is_online. rewrite lookup_empty. simpl.
    split; [discriminate|]. intros [? ?]; discriminate. }
  unfold getOnlineMap, bind at 1.
  destruct (trackedFetch_run VatsimData w) as (r & w1 & Hr & Hm). rewrite Hr.
  destruct r as [r|]; [|eexists _, w1; split; [reflexivity | auto]].
  destruct (negb (ok r)); [eexists _, w1; split; [reflexivity | auto]|].
  unfold bind at 1, ts, bind at 1, Date_now, read, ret.
  destruct (body_json r) as [| | |controllers|];
    try solve [eexists _, w1; split; [reflexivity | auto]].
  2:{ eexists _, w1. split; [reflexivity|]. split; [exact Hm|]. discriminate. }
  unfold bind, lift.
  destruct (controllers_of controllers) as [cs| |];
    try (eexists _, w1; split; [reflexivity|]; split; [exact Hm|]; discriminate).
  eexists _, w1. split; [reflexivity|]. split; [exact Hm|].
  intros presence Hp cid. unfold is_online.
  destruct (presence !! cid) as [v|] eqn:Hv.
  - apply (add_controller_entries _ _ _ _ (fun cid v H => ltac:(rewrite lookup_empty in H; discriminate)) Hp) in Hv as [Hk Ht].
    unfold or_empty. rewrite Ht, Hk. split; eauto.
  - simpl. split; [discriminate|]. intros [? ?]; discriminate.
Qed.

Lemma runPresence_run (e : env) (w w1 : world) (st state presence : gmap string json)
    (watch : list json) :
  GH_STORE w = Some st ->
  elements_of (default (JArr []) (st !! KV.WATCHLIST)) = Ok watch ->
  default (JObj ∅) (st !! KV.STATE) = JObj state ->
  getOnlineMap w = (Ok presence, w1) ->
  runPresence e w =
    (Ok tt,
     if (presence_loop (clock w1 / 1000) presence state).2
     then with_dirty true
            (with_store (Some (<[KV.STATE :=
                JObj (presence_loop (clock w1 / 1000) presence state).1]> st)) w1)
     else w1).
Proof.
  intros Hst Hw Hs Hp.
  destruct (getOnlineMap_run w) as (p' & w1' & Hp' & Hm & _).
  rewrite Hp in Hp'. injection Hp' as <- <-.
  destruct Hm as (Hm1 & Hm2 & Hm3 & Hm4).
  assert (Hst1 : GH_STORE w1 = Some st) by congruence.
  unfold runPresence. unfold bind at 1.
  rewrite (kvGetJSON_loaded e w st _ _ Hst).
  unfold bind at 1, lift, strings_of. rewrite Hw.
  unfold bind at 1. rewrite (kvGetJSON_loaded e w st _ _ Hst), Hs.
  unfold bind at 1. rewrite Hp.
  unfold bind at 1, ts, bind at 1, Date_now, read, ret.
  destruct (presence_loop (clock w1 / 1000) presence state) as [state' changed].
  simpl. destruct changed; [|reflexivity].
  unfold kvPutJSON, bind at 1. rewrite (storeLoad_loaded e w1 st Hst1).
  unfold storeSet, bind at 1. rewrite (the_store_loaded w1 st Hst1).
  reflexivity.
Qed.

(** C6. With the document in memory (its watchlist an array, its
    [online_state] an object or absent) and [presence] the map the feed
    gives, [runPresence] writes [online_state] back exactly when some CID
    changed online status, and otherwise leaves the store as it is. A CID
    that came online gets [{online: true, last_change: now, last_info}]
    with the feed's info; one that went offline gets [online: false] with
    the [last_info] it had; every other entry is untouched. A second tick
    that finds the state so left and a feed with the same CIDs online
    writes nothing. *)
Theorem runPresence_tracks_transitions (e : env) (w w1 : world)
    (st state presence : gmap string json) (watch : list json) :
  GH_STORE w = Some st ->
  elements_of (default (JArr []) (st !! KV.WATCHLIST)) = Ok watch ->
  default (JObj ∅) (st !! KV.STATE) = JObj state ->
  getOnlineMap w = (Ok presence, w1) ->
  let now := clock w1 / 1000 in
  exists (state' : gmap string json) (changed : bool) (w' : world),
    runPresence e w = (Ok tt, w') /\
    (changed = true <-> exists cid, was_online state cid <> is_online presence cid) /\
    (changed = true ->
       GH_STORE w' = Some (<[KV.STATE := JObj state']> st) /\ GH_STORE_DIRTY w' = true) /\
    (changed = false -> w' = w1 /\ GH_STORE w' = Some st /\ state' = state) /\
    (forall cid, was_online state cid = false -> is_online presence cid = true ->
       state' !! cid = Some (online_record true now (or_empty (presence !! cid)))) /\
    (forall cid, was_online state cid = true -> is_online presence cid = false ->
       state' !! cid = Some (online_record false now
                               (or_empty (field (or_empty (state !! cid)) "last_info")))) /\
    (forall cid, was_online state cid = is_online presence cid ->
       state' !! cid = state !! cid) /\
    (forall (w2 w3 : world) (st2 presence2 : gmap string json) (watch2 : list json),
       GH_STORE w2 = Some st2 ->
       elements_of (default (JArr []) (st2 !! KV.WATCHLIST)) = Ok watch2 ->
       default (JObj ∅) (st2 !! KV.STATE) = JObj state' ->
       getOnlineMap w2 = (Ok presence2, w3) ->
       (forall cid, is_online presence2 cid = is_online presence cid) ->
       runPresence e w2 = (Ok tt, w3) /\ GH_STORE w3 = Some st2 /\
       GH_STORE_DIRTY w3 = GH_STORE_DIRTY w2).
Proof.
  intros Hst Hw Hs Hp now.
  destruct (presence_loop_spec now presence state) as [Hlook Hch].
  assert (Hstep : forall cid,
    (presence_loop now presence state).1 !! cid =
      if is_online presence cid && negb (was_online state cid)
      then Some (online_record true now (or_empty (presence !! cid)))
      else if negb (is_online presence cid) && was_online state cid
      then Some (online_record false now
                   (or_empty (field (or_empty (state !! cid)) "last_info")))
      else state !! cid).
  { intros cid. rewrite Hlook. unfold transition_of, is_online, was_online.
    destruct (has_keys (or_empty (presence !! cid)) &&
              negb (truthy_opt (field (or_empty (state !! cid)) "online"))); [reflexivity|].
    destruct (negb (has_keys (or_empty (presence !! cid))) &&
              truthy_opt (field (or_empty (state !! cid)) "online")); reflexivity. }
  assert (Hsettled : forall cid,
    was_online (presence_loop now presence state).1 cid = is_online presence cid).
  { intros cid. unfold was_online at 1. rewrite Hstep.
    destruct (is_online presence cid) eqn:Hi, (was_online state cid) eqn:Hwas; simpl;
      try reflexivity; exact Hwas. }
  exists (presence_loop now presence state).1, (presence_loop now presence state).2.
  eexists. split; [apply (runPresence_run e w w1 st state presence watch Hst Hw Hs Hp)|].
  fold now. split; [exact Hch|].
  destruct (getOnlineMap_run w) as (p' & w1' & Hp' & Hm & _).
  rewrite Hp in Hp'. injection Hp' as <- <-. destruct Hm as (Hm1 & Hm2 & Hm3 & Hm4).
  split; [intros ->; split; reflexivity|].
  split.
  { intros Hno. rewrite Hno. split; [reflexivity|]. split; [congruence|].
    apply map_eq. intros cid. rewrite Hlook.
    destruct (transition_of now (state !! cid) (presence !! cid)) eqn:Ht; [|reflexivity].
    exfalso. assert (Hyes : (presence_loop now presence state).2 = true).
    { apply Hch. exists cid. apply (transition_of_changes now). rewrite Ht. eauto. }
    congruence. }
  split; [intros cid Hwas Hi; rewrite Hstep, Hi, Hwas; reflexivity|].
  split; [intros cid Hwas Hi; rewrite Hstep, Hi, Hwas; reflexivity|].
  split.
  { intros cid Heq. rewrite Hstep, Heq. destruct (is_online presence cid); reflexivity. }
  intros w2 w3 st2 presence2 watch2 Hst2 Hw2 Hs2 Hp2 Hsame.
  rewrite (runPresence_run e w2 w3 st2 _ presence2 watch2 Hst2 Hw2 Hs2 Hp2).
  destruct (presence_loop_spec (clock w3 / 1000) presence2 (presence_loop now presence state).1)
    as [_ Hch2].
  destruct (getOnlineMap_run w2) as (p2 & w3' & Hp2' & Hm' & _).
  rewrite Hp2 in Hp2'. injection Hp2' as <- <-. destruct Hm' as (Hn1 & Hn2 & Hn3 & Hn4).
  destruct (presence_loop (clock w3 / 1000) presence2 (presence_loop now presence state).1).2
    eqn:Hagain.
  - exfalso. destruct Hch2 as [Hex _]. destruct (Hex eq_refl) as (cid & Hne).
    apply Hne. rewrite Hsettled. symmetry. apply Hsame.
  - split; [reflexivity|]. split; congruence.
Qed.

Lemma runPresence_tracks_transitions_witness :
  let w := Scenario.warm Scenario.presence_doc "v1" 1000000 Scenario.feed in
  let state := {[ "100" := online_record true 900 (JObj {[ "callsign" := JStr "BN_CTR" ]}) ]} in
  exists (state' : gmap string json) (changed : bool) (w' : world),
    runPresence Scenario.e0 w = (Ok tt, w') /\
    (changed = true <->
       exists cid, was_online state cid <> is_online Scenario.presence_now cid) /\
    (changed = true ->
       GH_STORE w' = Some (<[KV.STATE := JObj state']> Scenario.presence_doc) /\
       GH_STORE_DIRTY w' = true) /\
    (changed = false ->
       w' = snd (getOnlineMap w) /\ GH_STORE w' = Some Scenario.presence_doc /\
       state' = state) /\
    (forall cid, was_online state cid = false ->
       is_online Scenario.presence_now cid = true ->
       state' !! cid
       = Some (online_record true 1000 (or_empty (Scenario.presence_now !! cid)))) /\
    (forall cid, was_online state cid = true ->
       is_online Scenario.presence_now cid = false ->
       state' !! cid
       = Some (online_record false 1000
                 (or_empty (field (or_empty (state !! cid)) "last_info")))) /\
    (forall cid, was_online state cid = is_online Scenario.presence_now cid ->
       state' !! cid = state !! cid) /\
    (forall (w2 w3 : world) (st2 presence2 : gmap string json) (watch2 : list json),
       GH_STORE w2 = Some st2 ->
       elements_of (default (JArr []) (st2 !! KV.WATCHLIST)) = Ok watch2 ->
       default (JObj ∅) (st2 !! KV.STATE) = JObj state' ->
       getOnlineMap w2 = (Ok presence2, w3) ->
       (forall cid, is_online presence2 cid = is_online Scenario.presence_now cid) ->
       runPresence Scenario.e0 w2 = (Ok tt, w3) /\ GH_STORE w3 = Some st2 /\
       GH_STORE_DIRTY w3 = GH_STORE_DIRTY w2).
Proof.
  intros w state.
  apply (runPresence_tracks_transitions Scenario.e0 w (snd (getOnlineMap w))
           Scenario.presence_doc state Scenario.presence_now
           [JStr "100"; JStr "200"]).
  - reflexivity.
  - reflexivity.
  - reflexivity.
  - vm_compute. reflexivity.
Defined.

(** ** Decimal numerals *)

Lemma parse_spec (s : string) :
  match NilEmpty.uint_of_string s with
  | Some d => all_digits s = true /\ NilEmpty.string_of_uint d = s
  | None => all_digits s = false
  end.
Proof.
  induction s as [|c s IH]; simpl; [auto|].
  destruct (NilEmpty.uint_of_string s) as [d|].
  - destruct IH as (Ha & Hs).
    destruct c as [[] [] [] [] [] [] [] []]; simpl; rewrite ?Ha, ?Hs; auto.
  - destruct c as [[] [] [] [] [] [] [] []]; simpl; rewrite ?IH; auto.
Qed.

Lemma string_of_uint_length (d : Decimal.uint) :
  String.length (NilEmpty.string_of_uint d) = Decimal.nb_digits d.
Proof. induction d; simpl; auto. Qed.

Lemma string_of_uint_digits (d : Decimal.uint) :
  all_digits (NilEmpty.string_of_uint d) = true.
Proof. induction d; simpl; auto. Qed.

Lemma string_of_nzhead (d : Decimal.uint) :
  NilEmpty.string_of_uint (Decimal.nzhead d) = drop_zeros (NilEmpty.string_of_uint d).
Proof. induction d; simpl; auto. Qed.

Lemma string_of_unorm (d : Decimal.uint) :
  NilZero.string_of_uint (Decimal.unorm d)
  = leading_zeros_stripped (NilEmpty.string_of_uint d).
Proof.
  unfold leading_zeros_stripped. rewrite <- string_of_nzhead. unfold Decimal.unorm.
  destruct (Decimal.nzhead d); reflexivity.
Qed.

Lemma drop_zeros_length (s : string) :
  (String.length (drop_zeros s) <= String.length s)%nat.
Proof.
  induction s as [|c s IH]; simpl; [lia|].
  destruct c as [[] [] [] [] [] [] [] []]; simpl; lia.
Qed.

Lemma drop_zeros_digits (s : string) :
  all_digits s = true -> all_digits (drop_zeros s) = true.
Proof.
  induction s as [|c s IH]; simpl; [auto|].
  intros [Hc Hs]%andb_prop.
  destruct c as [[] [] [] [] [] [] [] []]; simpl in *; auto; try discriminate.
Qed.

Lemma drop_zeros_head (s : string) : leading_zero (drop_zeros s) = false.
Proof.
  induction s as [|c s IH]; simpl; [reflexivity|].
  destruct c as [[] [] [] [] [] [] [] []]; simpl; auto.
Qed.

Lemma drop_zeros_canonical (s : string) :
  s <> "" -> leading_zero s = false -> leading_zeros_stripped s = s.
Proof.
  unfold leading_zeros_stripped.
  destruct s as [|c s]; [congruence|]. intros _.
  destruct c as [[] [] [] [] [] [] [] []]; simpl; try reflexivity.
  destruct s; [reflexivity | discriminate].
Qed.

(** [String(Number(d))] for a numeral [d] of at most 15 digits. *)
Lemma String_of_Number (d : string) :
  all_digits d = true -> (String.length d <= 15)%nat ->
  exists n, Number d = Some n /\ 0 <= n /\ String_of_Z n = leading_zeros_stripped d.
Proof.
  intros Hd Hlen. unfold Number. apply Nat.leb_le in Hlen. rewrite Hlen.
  pose proof (parse_spec d) as Hp.
  destruct (NilEmpty.uint_of_string d) as [u|]; [|congruence].
  destruct Hp as [_ Hs]. exists (Z.of_N (N.of_uint u)).
  split; [reflexivity|]. split; [apply N2Z.is_nonneg|].
  unfold String_of_Z. pose proof (N2Z.is_nonneg (N.of_uint u)) as Hpos.
  destruct (Z.of_N (N.of_uint u) <? 0) eqn:E; [lia|].
  rewrite N2Z.id, DecimalN.Unsigned.to_of, string_of_unorm, Hs. reflexivity.
Qed.

Lemma stripped_facts (d : string) :
  all_digits d = true ->
  all_digits (leading_zeros_stripped d) = true /\
  leading_zero (leading_zeros_stripped d) = false /\
  (1 <= String.length (leading_zeros_stripped d))%nat /\
  (d <> "" -> String.length (leading_zeros_stripped d) <= String.length d)%nat.
Proof.
  intros Hd. unfold leading_zeros_stripped.
  pose proof (drop_zeros_length d) as Hl. pose proof (drop_zeros_digits d Hd) as Hdd.
  pose proof (drop_zeros_head d) as Hh.
  destruct (drop_zeros d) as [|c r] eqn:E.
  - repeat split; simpl; try lia. intros Hne. destruct d; [congruence|simpl; lia].
  - repeat split; auto; simpl in *; lia.
Qed.

Lemma stripped_idemp (d : string) :
  leading_zeros_stripped (leading_zeros_stripped d) = leading_zeros_stripped d.
Proof.
  apply drop_zeros_canonical.
  - unfold leading_zeros_stripped. destruct (drop_zeros d); discriminate.
  - unfold leading_zeros_stripped. pose proof (drop_zeros_head d) as Hh.
    destruct (drop_zeros d); [reflexivity|exact Hh].
Qed.

(** A canonical CID is the decimal string of the integer it denotes. *)
Lemma canonical_roundtrip (lo : nat) (s : string) :
  canonical_cid lo s -> s <> "" ->
  exists n, Number s = Some n /\ 0 <= n /\ String_of_Z n = s.
Proof.
  intros (Hd & Hlen & Hz) Hne.
  destruct (String_of_Number s Hd) as (n & Hn & Hpos & Hs); [lia|].
  exists n. rewrite Hs, (drop_zeros_canonical s Hne Hz). auto.
Qed.

Lemma Number_stripped (d : string) (n : Z) :
  all_digits d = true -> d <> "" -> Number d = Some n ->
  Number (leading_zeros_stripped d) = Some n.
Proof.
  intros Hd Hne Hn.
  destruct (stripped_facts d Hd) as (_ & _ & _ & Hsl). specialize (Hsl Hne).
  unfold Number in *.
  destruct (String.length d <=? 15)%nat eqn:Hlen; [|discriminate].
  apply Nat.leb_le in Hlen.
  assert (Hlen' : (String.length (leading_zeros_stripped d) <=? 15)%nat = true)
    by (apply Nat.leb_le; lia).
  rewrite Hlen'.
  pose proof (parse_spec d) as Hp.
  destruct (NilEmpty.uint_of_string d) as [u|]; [|discriminate].
  destruct Hp as [_ Hs]. injection Hn as <-.
  rewrite <- Hs, <- string_of_unorm.
  assert (Hnz : NilZero.string_of_uint (Decimal.unorm u)
                = NilEmpty.string_of_uint (Decimal.unorm u)).
  { pose proof (unorm_nonnil u) as Hnn. destruct (Decimal.unorm u); [congruence|..]; reflexivity. }
  rewrite Hnz, NilEmpty.usu. simpl. now rewrite DecimalN.Unsigned.of_uint_norm.
Qed.

(** ** Canonical CIDs *)

Lemma bind_Ok_inv {A B} (c : M A) (k : A -> M B) (w w' : world) (b : B) :
  bind c k w = (Ok b, w') -> exists a w1, c w = (Ok a, w1) /\ k a w1 = (Ok b, w').
Proof.
  unfold bind. destruct (c w) as [[a|err|] w1]; try discriminate. eauto.
Qed.

Lemma strip_non_digits_digits (s : string) : all_digits (strip_non_digits s) = true.
Proof.
  induction s as [|c s IH]; simpl; [reflexivity|].
  destruct (is_digit c) eqn:E; simpl; [now rewrite E|assumption].
Qed.

Lemma strip_non_digits_filter (s : string) :
  list_ascii_of_string (strip_non_digits s)
  = List.filter is_digit (list_ascii_of_string s).
Proof.
  induction s as [|c s IH]; simpl; [reflexivity|].
  destruct (is_digit c); simpl; now rewrite IH.
Qed.

Lemma canonicalCID_string (s : string) :
  canonicalCID (Some (JStr s)) =
    if test_3_10_digits (strip_non_digits s)
    then Ok (Some (leading_zeros_stripped (strip_non_digits s)))
    else Ok None.
Proof.
  unfold canonicalCID.
  destruct (test_3_10_digits (strip_non_digits s)) eqn:Ht; simpl; [|reflexivity].
  unfold test_3_10_digits in Ht.
  apply andb_prop in Ht as [[Hd H3]%andb_prop H10].
  apply Nat.leb_le in H3, H10.
  destruct (String_of_Number (strip_non_digits s) Hd) as (n & Hn & _ & Hs); [lia|].
  now rewrite Hn, Hs.
Qed.

Lemma test_3_10_digits_strip (s : string) :
  test_3_10_digits (strip_non_digits s) = true <->
  (3 <= String.length (strip_non_digits s) <= 10)%nat.
Proof.
  unfold test_3_10_digits. rewrite strip_non_digits_digits. cbn [andb].
  rewrite andb_true_iff, !Nat.leb_le. reflexivity.
Qed.

Lemma canonicalCID_falsy (v : option json) :
  truthy_opt v = false -> canonicalCID v = Ok None.
Proof.
  destruct v as [v|]; [|reflexivity]. simpl. intros Hv.
  destruct v; simpl in *; try rewrite Hv; try reflexivity; try discriminate.
  apply negb_false_iff, String.eqb_eq in Hv. subst. reflexivity.
Qed.

(** The answers of [addToWatchlist]: 400 comes from a CID that does not
    canonicalise, and from nowhere else. *)
Lemma addToWatchlist_400 (request : api_request) (e : env) (w w' : world)
    (resp : api_response) :
  addToWatchlist request e w = (Ok resp, w') ->
  (code resp = 400 <->
   exists raw, body_cid (body request) = Ok raw /\ canonicalCID raw = Ok None).
Proof.
  unfold addToWatchlist. intros H.
  apply bind_Ok_inv in H as (raw & w1 & Hraw & H).
  unfold lift in Hraw. injection Hraw as Hraw <-.
  apply bind_Ok_inv in H as (cid & w2 & Hcid & H).
  unfold lift in Hcid. injection Hcid as Hcid <-.
  rewrite Hraw. destruct cid as [cid|].
  - assert (Hcode : code resp <> 400).
    { apply bind_Ok_inv in H as (isValid & w3 & _ & H).
      destruct (negb isValid); [injection H as <- _; discriminate|].
      apply bind_Ok_inv in H as (lst & w4 & _ & H).
      apply bind_Ok_inv in H as (strs & w5 & _ & H).
      destruct (bool_decide (cid ∈ Set_of strs)); [injection H as <- _; discriminate|].
      destruct (numbers_of (Set_of strs ++ [cid])); [|discriminate].
      apply bind_Ok_inv in H as (? & w6 & _ & H).
      apply bind_Ok_inv in H as (? & w7 & _ & H).
      apply bind_Ok_inv in H as (now & w8 & _ & H).
      injection H as <- _. discriminate. }
    split; [contradiction|]. intros (raw' & [= <-] & Hnone). congruence.
  - injection H as <- _. split; [|reflexivity]. intros _. eauto.
Qed.

Lemma addToWatchlist_invalid (request : api_request) (e : env) (w : world)
    (raw : option json) :
  body_cid (body request) = Ok raw -> canonicalCID raw = Ok None ->
  addToWatchlist request e w = (Ok (jsonResponse (BError "Invalid CID format") 400 e), w).
Proof.
  intros Hraw Hcid. unfold addToWatchlist, bind, lift. now rewrite Hraw, Hcid.
Qed.

Lemma dispatch_post (request : api_request) (e : env) :
  method request = "POST" -> pathname request = "/api/watchlist" ->
  dispatch request e = addToWatchlist request e.
Proof. intros Hm Hp. unfold dispatch. rewrite Hm, Hp. reflexivity. Qed.

(** C4, as the code has it. On a string [canonicalCID] keeps the digits
    and drops every other character; it returns [null] exactly when
    fewer than 3 or more than 10 digits remain, and otherwise the digits
    with their leading zeros stripped, which is the decimal string of the
    same integer. An absent or falsy [cid] counts as the empty string.
    POST /api/watchlist answers 400, with the error body, exactly when
    the request's [cid] canonicalises to [null]. A [cid] that is neither
    falsy nor a string, a JSON number for one, is not canonicalised at
    all: [(s||"").replace] is not a function, [canonicalCID] throws the
    [TypeError], and POST /api/watchlist answers 500 with the engine's
    message, having read and written nothing, where 400 or the canonical
    CID was due. *)
Theorem canonicalCID_canonical_form :
  (forall s : string,
     let d := strip_non_digits s in
     all_digits d = true /\
     list_ascii_of_string d = List.filter is_digit (list_ascii_of_string s) /\
     (canonicalCID (Some (JStr s)) = Ok None <->
      (String.length d < 3 \/ 10 < String.length d)%nat) /\
     ((3 <= String.length d <= 10)%nat ->
      canonicalCID (Some (JStr s)) = Ok (Some (leading_zeros_stripped d)) /\
      exists n, Number d = Some n /\ String_of_Z n = leading_zeros_stripped d /\
                Number (leading_zeros_stripped d) = Some n)) /\
  (forall v : option json, truthy_opt v = false -> canonicalCID v = Ok None) /\
  (forall (request : api_request) (e : env) (w w' : world) (resp : api_response),
     method request = "POST" -> pathname request = "/api/watchlist" ->
     handleAPI request e w = (Ok resp, w') ->
     (code resp = 400 <->
      exists raw, body_cid (body request) = Ok raw /\ canonicalCID raw = Ok None) /\
     (code resp = 400 -> data resp = BError "Invalid CID format")) /\
  (forall (v : json) (e : env) (w : world),
     truthy v = true -> (forall s, v <> JStr s) ->
     canonicalCID (Some v) = Throw replace_is_not_a_function /\
     handleAPI (Request "POST" "/api/watchlist" (Some (JObj {[ "cid" := v ]}))) e w
     = (Ok (jsonResponse (BError (message replace_is_not_a_function)) 500 e), w)).
Proof.
  split; [|split; [|split]].
  - intros s d. pose proof (strip_non_digits_digits s) as Hd. fold d in Hd.
    split; [exact Hd|]. split; [apply strip_non_digits_filter|].
    pose proof (test_3_10_digits_strip s) as Ht. fold d in Ht.
    rewrite canonicalCID_string. fold d. split.
    + destruct (test_3_10_digits d).
      * split; [discriminate|]. intros Hlen.
        assert (3 <= String.length d <= 10)%nat by (now apply Ht). lia.
      * split; [|reflexivity]. intros _.
        destruct (decide (3 <= String.length d <= 10)%nat) as [Hin|Hout]; [|lia].
        apply Ht in Hin. discriminate.
    + intros Hlen. pose proof Hlen as Hlen'. apply Ht in Hlen. rewrite Hlen.
      split; [reflexivity|].
      destruct (String_of_Number d Hd) as (n & Hn & _ & Hs); [lia|].
      exists n. split; [exact Hn|]. split; [exact Hs|].
      apply Number_stripped; auto. intros ->. simpl in Hlen'. lia.
  - apply canonicalCID_falsy.
  - intros request e w w' resp Hm Hp Hrun.
    unfold handleAPI, try_catch in Hrun. rewrite (dispatch_post request e Hm Hp) in Hrun.
    destruct (addToWatchlist request e w) as [[r|err|] w1] eqn:Hadd.
    + injection Hrun as <- <-. pose proof (addToWatchlist_400 request e w w1 r Hadd) as H400.
      split; [exact H400|]. intros Hc. apply H400 in Hc as (raw & Hraw & Hcid).
      rewrite (addToWatchlist_invalid request e w raw Hraw Hcid) in Hadd.
      injection Hadd as <- _. reflexivity.
    + injection Hrun as <- <-. simpl. split; [|discriminate]. split; [discriminate|].
      intros (raw & Hraw & Hcid).
      rewrite (addToWatchlist_invalid request e w raw Hraw Hcid) in Hadd. discriminate.
    + discriminate.
  - intros v e w Hv Hstr.
    assert (Hthrow : canonicalCID (Some v) = Throw replace_is_not_a_function).
    { unfold canonicalCID. destruct v as [| | |s| |]; try (now rewrite Hv).
      now destruct (Hstr s). }
    split; [exact Hthrow|].
    unfold handleAPI, try_catch. rewrite dispatch_post by reflexivity.
    assert (Hbody : body_cid (Some (JObj {[ "cid" := v ]})) = Ok (Some v)).
    { unfold body_cid, field. now rewrite lookup_singleton_eq. }
    unfold addToWatchlist, bind at 1, lift. cbn [body]. rewrite Hbody.
    unfold bind at 1. rewrite Hthrow. reflexivity.
Qed.

(** ** Sets and sorting of the watchlist *)

Lemma Set_of_fold (l : list string) :
  forall acc, NoDup (acc ++ l) ->
  fold_left (fun acc x => if bool_decide (x ∈ acc) then acc else acc ++ [x]) l acc = acc ++ l.
Proof.
  induction l as [|x l IH]; intros acc Hnd; simpl; [now rewrite app_nil_r|].
  assert (Hx : x ∉ acc).
  { apply NoDup_app in Hnd as (_ & Hdis & _). intros Hin. apply (Hdis x Hin). left. }
  rewrite bool_decide_eq_false_2 by exact Hx.
  rewrite IH; rewrite <- app_assoc; [reflexivity|exact Hnd].
Qed.

Lemma Set_of_NoDup (l : list string) : NoDup l -> Set_of l = l.
Proof. intros H. unfold Set_of. now rewrite Set_of_fold. Qed.

Lemma insert_sorted_perm (x : Z) (l : list Z) : insert_sorted x l ≡ₚ x :: l.
Proof.
  induction l as [|y l IH]; simpl; [reflexivity|].
  destruct (x <? y); [reflexivity|]. rewrite IH. apply Permutation_swap.
Qed.

Lemma sort_numeric_perm (l : list Z) : sort_numeric l ≡ₚ l.
Proof.
  induction l as [|x l IH]; simpl; [reflexivity|].
  rewrite insert_sorted_perm. now rewrite IH.
Qed.

Lemma insert_sorted_lt (x : Z) (l : list Z) :
  StronglySorted Z.lt l -> x ∉ l -> StronglySorted Z.lt (insert_sorted x l).
Proof.
  induction l as [|y l IH]; simpl; intros Hs Hx.
  - repeat constructor.
  - apply StronglySorted_inv in Hs as [Hs Hy].
    destruct (x <? y) eqn:E.
    + apply Z.ltb_lt in E. constructor; [now constructor|].
      constructor; [exact E|]. eapply Forall_impl; [exact Hy|]. intros z Hz. simpl in Hz. lia.
    + apply Z.ltb_ge in E. assert (y < x).
      { destruct (decide (x = y)) as [->|?]; [|lia]. exfalso. apply Hx. left. }
      constructor.
      * apply IH; [exact Hs|]. intros Hin. apply Hx. now right.
      * rewrite insert_sorted_perm. now constructor.
Qed.

Lemma sort_numeric_lt (l : list Z) : NoDup l -> StronglySorted Z.lt (sort_numeric l).
Proof.
  induction 1 as [|x l Hx Hnd IH]; simpl; [constructor|].
  apply insert_sorted_lt; [exact IH|]. now rewrite sort_numeric_perm.
Qed.

Lemma insert_sorted_le (x : Z) (l : list Z) :
  StronglySorted Z.le l -> StronglySorted Z.le (insert_sorted x l).
Proof.
  induction l as [|y l IH]; simpl; intros Hs.
  - repeat constructor.
  - apply StronglySorted_inv in Hs as [Hs Hy].
    destruct (x <? y) eqn:E.
    + apply Z.ltb_lt in E. constructor; [now constructor|].
      constructor; [lia|]. eapply Forall_impl; [exact Hy|]. intros z Hz. simpl in Hz. lia.
    + apply Z.ltb_ge in E. constructor; [now apply IH|].
      rewrite insert_sorted_perm. now constructor.
Qed.

(** [sort_numeric] stands for any sort by [(a, b) => a - b]: an ascending
    arrangement of the same integers is this one. *)
Lemma sort_numeric_unique (l l' : list Z) :
  l' ≡ₚ l -> StronglySorted Z.le l' -> l' = sort_numeric l.
Proof.
  intros Hp Hs. apply (StronglySorted_unique Z.le); [exact Hs| |].
  - induction l as [|x l IH] in |- *; simpl; [constructor|].
    apply insert_sorted_le.
    clear -l. induction l as [|y l IH]; simpl; [constructor|]. now apply insert_sorted_le.
  - now rewrite sort_numeric_perm.
Qed.

Lemma strings_of_strings (l : list string) : String_of <$> (JStr <$> l) = l.
Proof.
  induction l as [|x l IH]; [reflexivity|]. rewrite !fmap_cons. cbn [String_of]. now f_equal.
Qed.

Lemma canonical_cid_nonempty (lo : nat) (s : string) :
  (1 <= lo)%nat -> canonical_cid lo s -> s <> "".
Proof. intros Hlo (_ & Hlen & _) ->. simpl in Hlen. lia. Qed.

(** The numbers of a list of canonical CIDs, and the way back. *)
Lemma numbers_of_canonical (lo : nat) (l : list string) :
  (1 <= lo)%nat -> Forall (canonical_cid lo) l ->
  exists nums, numbers_of l = Some nums /\ String_of_Z <$> nums = l /\
    Forall (fun n => exists s, s ∈ l /\ Number s = Some n /\ String_of_Z n = s) nums.
Proof.
  intros Hlo. induction 1 as [|s l Hs Hl (nums & Hn & Hback & Hall)].
  - exists []. repeat split; constructor.
  - destruct (canonical_roundtrip lo s Hs (canonical_cid_nonempty lo s Hlo Hs))
      as (n & Hnum & _ & Hstr).
    exists (n :: nums). unfold numbers_of in *.
    split; [apply mapM_Some; constructor; [exact Hnum|now apply mapM_Some]|].
    split; [now rewrite fmap_cons, Hstr, Hback|].
    constructor.
    + exists s. split; [left|auto].
    + eapply Forall_impl; [exact Hall|]. intros m (s' & Hin & H1 & H2).
      exists s'. split; [now right|auto].
Qed.

Lemma sorted_strings (nums : list Z) :
  StronglySorted Z.lt nums ->
  Forall (fun n => Number (String_of_Z n) = Some n) nums ->
  StronglySorted numeric_lt (String_of_Z <$> nums).
Proof.
  induction 1 as [|x nums Hs IH Hx]; intros Hall; [constructor|].
  apply Forall_cons in Hall as [Hnx Hall]. rewrite fmap_cons. constructor; [now apply IH|].
  apply Forall_fmap, Forall_forall. intros y Hy.
  exists x, y. split; [exact Hnx|]. split.
  - rewrite Forall_forall in Hall. now apply Hall.
  - rewrite Forall_forall in Hx. now apply Hx.
Qed.

(** Inserting a new canonical CID the way [addToWatchlist] does keeps the
    watchlist canonical, duplicate-free and ascending. *)
Lemma add_keeps_invariant (lo : nat) (l : list string) (cid : string) :
  (1 <= lo)%nat -> Forall (canonical_cid lo) l -> NoDup l ->
  canonical_cid lo cid -> cid ∉ l ->
  exists nums, numbers_of (l ++ [cid]) = Some nums /\
    watchlist_invariant lo (JArr (JStr <$> (String_of_Z <$> sort_numeric nums))).
Proof.
  intros Hlo Hl Hnd Hcid Hnew.
  assert (Hall : Forall (canonical_cid lo) (l ++ [cid])).
  { apply Forall_app. split; [exact Hl|]. now constructor. }
  destruct (numbers_of_canonical lo (l ++ [cid]) Hlo Hall) as (nums & Hnums & Hback & Hfacts).
  exists nums. split; [exact Hnums|].
  assert (Hnd' : NoDup (l ++ [cid])).
  { apply NoDup_app. split; [exact Hnd|]. split; [|apply NoDup_singleton].
    intros x Hx Hx'. apply list_elem_of_singleton in Hx'. subst. contradiction. }
  assert (Hndn : NoDup nums).
  { apply (NoDup_fmap_1 String_of_Z). now rewrite Hback. }
  pose proof (sort_numeric_perm nums) as Hperm.
  assert (Hfacts' : Forall (fun n => exists s, s ∈ l ++ [cid] /\ Number s = Some n
                                       /\ String_of_Z n = s) (sort_numeric nums)).
  { now rewrite Hperm. }
  exists (String_of_Z <$> sort_numeric nums). split; [reflexivity|].
  split; [|split].
  - apply Forall_fmap. eapply Forall_impl; [exact Hfacts'|].
    intros n (s & Hin & _ & Hs). simpl. rewrite Hs.
    rewrite Forall_forall in Hall. now apply Hall.
  - rewrite Hperm, Hback. exact Hnd'.
  - apply sorted_strings; [now apply sort_numeric_lt|].
    eapply Forall_impl; [exact Hfacts'|]. intros n (s & _ & Hn & Hs). now rewrite Hs.
Qed.

Lemma filter_strings (cid : string) (l : list string) :
  filter (fun x => String_of x ≠ cid) (JStr <$> l) = JStr <$> filter (fun s => s ≠ cid) l.
Proof.
  induction l as [|s l IH]; [reflexivity|].
  rewrite fmap_cons, !filter_cons. cbn [String_of].
  destruct (decide (s ≠ cid)); [rewrite fmap_cons|]; now rewrite IH.
Qed.

Lemma StronglySorted_filter {A} (R : relation A) (P : A -> Prop)
    `{forall x, Decision (P x)} (l : list A) :
  StronglySorted R l -> StronglySorted R (filter P l).
Proof.
  induction 1 as [|x l Hs IH Hx]; [constructor|].
  rewrite filter_cons. destruct (decide (P x)); [|exact IH].
  constructor; [exact IH|]. apply Forall_forall. intros y Hy.
  apply list_elem_of_filter in Hy as [_ Hy]. rewrite Forall_forall in Hx. now apply Hx.
Qed.

(** Filtering a CID out the way [removeFromWatchlist] does keeps it so. *)
Lemma remove_keeps_invariant (lo : nat) (cid : string) (v : json) :
  watchlist_invariant lo v ->
  exists l, v = JArr l /\
    watchlist_invariant lo (JArr (filter (fun x => String_of x ≠ cid) l)).
Proof.
  intros (l & -> & Hl & Hnd & Hs). eexists. split; [reflexivity|].
  exists (filter (fun s => s ≠ cid) l). split; [f_equal; apply filter_strings|].
  split; [|split].
  - apply Forall_forall. intros s Hin. apply list_elem_of_filter in Hin as [_ Hin].
    rewrite Forall_forall in Hl. now apply Hl.
  - now apply NoDup_filter.
  - now apply StronglySorted_filter.
Qed.

Lemma canonicalCID_output (raw : option json) (cid : string) :
  canonicalCID raw = Ok (Some cid) -> canonical_cid 1 cid.
Proof.
  assert (Hstr : forall s, canonicalCID (Some (JStr s)) = Ok (Some cid) -> canonical_cid 1 cid).
  { intros s. unfold canonicalCID.
    destruct (test_3_10_digits (strip_non_digits s)) eqn:Ht; simpl; [|discriminate].
    unfold test_3_10_digits in Ht.
    apply andb_prop in Ht as [[Hd H3]%andb_prop H10]. apply Nat.leb_le in H3, H10.
    destruct (String_of_Number (strip_non_digits s) Hd) as (n & Hn & _ & Hs); [lia|].
    rewrite Hn, Hs. intros [= <-].
    destruct (stripped_facts (strip_non_digits s) Hd) as (H1 & H2 & H4 & H5).
    split; [exact H1|]. split; [|exact H2].
    split; [exact H4|]. etransitivity; [apply H5|exact H10].
    intros E. rewrite E in H3. simpl in H3. lia. }
  destruct raw as [v|]; [|discriminate].
  destruct v; try (simpl; discriminate); try (apply Hstr).
  - simpl. destruct b; discriminate.
  - simpl. destruct (negb (z =? 0)); discriminate.
Qed.

(** ** The watchlist endpoints *)

Lemma cacheGet_loaded (e : env) (key : string) (maxAge : option Z) (w : world)
    (st : gmap string json) :
  GH_STORE w = Some st -> exists r, cacheGet e key maxAge w = (Ok r, w).
Proof.
  intros Hst. unfold cacheGet. unfold bind at 1.
  rewrite (kvGetJSON_loaded e w st key JNull Hst).
  destruct (negb (truthy (default JNull (st !! key)))); [eexists; reflexivity|].
  destruct maxAge as [[|p|p]|]; try (eexists; reflexivity);
    (destruct (number_field (default JNull (st !! key)) "cached_at") as [[|q|q]|];
     try (eexists; reflexivity);
     unfold ts, bind, Date_now, read, ret;
     match goal with |- context [if ?b then _ else _] => destruct b end;
     eexists; reflexivity).
Qed.

Lemma cachePut_loaded (e : env) (key : string) (obj : gmap string json) (w : world)
    (st : gmap string json) :
  GH_STORE w = Some st ->
  cachePut e key obj w =
    (Ok tt, with_dirty true
              (with_store (Some (<[key := JObj (<["cached_at" := JNum (clock w / 1000)]> obj)]> st)) w)).
Proof.
  intros Hst. unfold cachePut, ts, Date_now. unfold bind at 1 2, read, ret.
  unfold kvPutJSON, bind at 1. rewrite (storeLoad_loaded e w st Hst).
  unfold storeSet, bind at 1. rewrite (the_store_loaded w st Hst). reflexivity.
Qed.

Lemma member_not_watchlist (cid : string) : KV.member cid <> KV.WATCHLIST.
Proof. unfold KV.member, KV.WATCHLIST. cbv [String.append]. discriminate. Qed.

(** With the document in memory [isValidMember] always answers, and it
    writes at most the [member:] entry. *)
Lemma isValidMember_loaded (e : env) (cid : string) (w : world) (st : gmap string json) :
  GH_STORE w = Some st ->
  exists b w' st', isValidMember e cid w = (Ok b, w') /\
    GH_STORE w' = Some st' /\ st' !! KV.WATCHLIST = st !! KV.WATCHLIST.
Proof.
  intros Hst. unfold isValidMember. unfold bind at 1.
  destruct (cacheGet_loaded e (KV.member cid) (Some TTL.MEMBER_7D) w st Hst) as [c Hc].
  rewrite Hc.
  assert (Hfetch : exists b w' st',
    (let* r := trackedFetch (VatsimMember cid) in
     cachePut e (KV.member cid)
       {[ "ok" := JBool (match r with Some r0 => status r0 =? 200 | None => false end) ]} ;;
     ret (match r with Some r0 => status r0 =? 200 | None => false end)) w = (Ok b, w') /\
    GH_STORE w' = Some st' /\ st' !! KV.WATCHLIST = st !! KV.WATCHLIST).
  { unfold bind at 1. destruct (trackedFetch_run (VatsimMember cid) w) as (r & w1 & Hr & Hm).
    rewrite Hr. destruct Hm as (Hm1 & _).
    assert (Hst1 : GH_STORE w1 = Some st) by congruence.
    unfold bind at 1. rewrite (cachePut_loaded e _ _ w1 st Hst1).
    eexists _, _, _. split; [reflexivity|]. split; [reflexivity|].
    apply lookup_insert_ne, member_not_watchlist. }
  destruct (c ≫= (fun c0 => field c0 "ok")) as [[]|]; try exact Hfetch.
  exists b, w, st. auto.
Qed.

(** A flush keeps every key of the in-memory document, whatever happens. *)
Lemma storeFlush_keeps (e : env) (msg : string) (w w' : world) (r : outcome unit)
    (local : gmap string json) :
  GH_STORE w = Some local -> storeFlush e msg w = (r, w') ->
  exists st', GH_STORE w' = Some st' /\
    forall k v, local !! k = Some v -> st' !! k = Some v.
Proof.
  intros Hs Hrun.
  destruct (GH_STORE_DIRTY w) eqn:Hd.
  2:{ unfold storeFlush, bind, read in Hrun. rewrite Hd in Hrun. injection Hrun as _ <-. eauto. }
  rewrite (storeFlush_dirty e msg w local Hd Hs) in Hrun.
  destruct (ghPut_run e (storePath e) local (GH_STORE_SHA w) msg w)
    as [[_ Hput]|(_ & res & w1 & k & Hput & _ & Hm1 & _)]; rewrite Hput in Hrun.
  { injection Hrun as _ <-. eauto. }
  destruct Hm1 as (Hm1 & _).
  destruct res as [res|err|];
    [|injection Hrun as _ <-; exists local; split; [congruence|auto]..].
  destruct (negb (gh_ok res) && (gh_status res =? 409)).
  2:{ apply flush_commit_run in Hrun as (_ & _ & Hst & _). exists local. split; [congruence|auto]. }
  destruct (ghGet_run e (storePath e) w1)
    as [[_ Hget]|(_ & r2 & w2 & k2 & Hget & _ & Hm2 & _)]; rewrite Hget in Hrun.
  { injection Hrun as _ <-. exists local. split; [congruence|auto]. }
  destruct Hm2 as (Hm2 & _).
  destruct r2 as [[rsha remote|st2 txt2]|err|].
  - destruct (ghPut_run e (storePath e) (local ∪ remote) (nonempty rsha) msg
                (with_sha (nonempty rsha) (with_store (Some (local ∪ remote)) w2)))
      as [[_ Hput3]|(_ & res3 & w3 & k3 & Hput3 & _ & Hm3 & _)]; rewrite Hput3 in Hrun.
    + injection Hrun as _ <-. exists (local ∪ remote). split; [reflexivity|].
      intros. now apply lookup_union_Some_l.
    + destruct Hm3 as (Hm3 & _).
      assert (Hst : GH_STORE w' = GH_STORE w3).
      { destruct res3 as [res3|err|]; [|now injection Hrun as _ <-..].
        now apply flush_commit_run in Hrun as (_ & _ & Hst & _). }
      exists (local ∪ remote). split; [rewrite Hst, Hm3; reflexivity|].
      intros. now apply lookup_union_Some_l.
  - apply flush_commit_run in Hrun as (_ & _ & Hst & _). exists local. split; [congruence|auto].
  - injection Hrun as _ <-. exists local. split; [congruence|auto].
  - injection Hrun as _ <-. exists local. split; [congruence|auto].
Qed.

Lemma kvPutJSON_loaded (e : env) (key : string) (v : json) (w : world)
    (st : gmap string json) :
  GH_STORE w = Some st ->
  kvPutJSON e key v w = (Ok tt, with_dirty true (with_store (Some (<[key := v]> st)) w)).
Proof.
  intros Hst. unfold kvPutJSON, bind at 1. rewrite (storeLoad_loaded e w st Hst).
  unfold storeSet, bind at 1. rewrite (the_store_loaded w st Hst). reflexivity.
Qed.

(** After a write followed by a flush, the watchlist in memory is the one
    written. *)
Lemma write_then_flush (e : env) (msg : string) (v : json) (k : M api_response)
    (w w' : world) (st st' : gmap string json) (r : outcome api_response) :
  GH_STORE w = Some st ->
  (forall w1 x w2, k w1 = (x, w2) -> GH_STORE w2 = GH_STORE w1) ->
  (kvPutJSON e KV.WATCHLIST v ;; storeFlush e msg ;; k) w = (r, w') ->
  GH_STORE w' = Some st' -> st' !! KV.WATCHLIST = Some v.
Proof.
  intros Hst Hk Hrun Hst'. unfold bind at 1 in Hrun.
  rewrite (kvPutJSON_loaded e _ v w st Hst) in Hrun.
  set (w1 := with_dirty true (with_store (Some (<[KV.WATCHLIST := v]> st)) w)) in *.
  unfold bind at 1 in Hrun.
  destruct (storeFlush e msg w1) as [o w2] eqn:Hflush.
  destruct (storeFlush_keeps e msg w1 w2 o (<[KV.WATCHLIST := v]> st) eq_refl Hflush)
    as (st2 & Hst2 & Hkeep).
  assert (Hv : st2 !! KV.WATCHLIST = Some v) by (apply Hkeep, lookup_insert_eq).
  destruct o as [[]|err|].
  - destruct (k w2) as [x w3] eqn:Hkw. injection Hrun as _ <-.
    rewrite (Hk w2 x w3 Hkw), Hst2 in Hst'. congruence.
  - injection Hrun as _ <-. congruence.
  - injection Hrun as _ <-. congruence.
Qed.

Lemma invariant_elements (lo : nat) (v : json) :
  watchlist_invariant lo v ->
  exists l, v = JArr (JStr <$> l) /\ elements_of v = Ok (JStr <$> l) /\
    strings_of v = Ok l /\ Forall (canonical_cid lo) l /\ NoDup l.
Proof.
  intros (l & -> & Hl & Hnd & _). exists l. unfold strings_of. simpl.
  rewrite strings_of_strings. auto.
Qed.

(** C5, as the code has it. With the document in memory and its
    watchlist an array of canonical CIDs (digits only, 1 to 10 of them, no
    leading zero), free of duplicates and in ascending numeric order, the
    watchlist is again so after [addToWatchlist] and after
    [removeFromWatchlist], however the call ends. An absent watchlist
    counts as the empty one. *)
Theorem watchlist_writes_keep_invariant (e : env) (w : world) (st : gmap string json) :
  GH_STORE w = Some st ->
  watchlist_invariant 1 (default (JArr []) (st !! KV.WATCHLIST)) ->
  (forall request r w' st',
     addToWatchlist request e w = (r, w') -> GH_STORE w' = Some st' ->
     watchlist_invariant 1 (default (JArr []) (st' !! KV.WATCHLIST))) /\
  (forall cid r w' st',
     removeFromWatchlist cid e w = (r, w') -> GH_STORE w' = Some st' ->
     watchlist_invariant 1 (default (JArr []) (st' !! KV.WATCHLIST))).
Proof.
  intros Hst Hinv. split.
  - intros request r w' st' Hrun Hst'.
    unfold addToWatchlist in Hrun. unfold bind at 1, lift in Hrun.
    destruct (body_cid (body request)) as [raw|err|];
      [|injection Hrun as _ <-; congruence..].
    unfold bind at 1 in Hrun.
    destruct (canonicalCID raw) as [[cid|]|err|] eqn:Hcid;
      [|injection Hrun as _ <-; congruence..].
    apply canonicalCID_output in Hcid.
    unfold bind at 1 in Hrun.
    destruct (isValidMember_loaded e cid w st Hst) as (b & w1 & st1 & Hv & Hst1 & Hw1).
    rewrite Hv in Hrun. rewrite <- Hw1 in Hinv.
    destruct (negb b); [injection Hrun as _ <-; congruence|].
    unfold bind at 1 in Hrun. rewrite (kvGetJSON_loaded e w1 st1 _ _ Hst1) in Hrun.
    destruct (invariant_elements 1 _ Hinv) as (l & Hl & _ & Hstrs & Hcan & Hnd).
    unfold bind at 1, lift in Hrun. rewrite Hstrs in Hrun.
    rewrite (Set_of_NoDup l Hnd) in Hrun.
    destruct (bool_decide (cid ∈ l)) eqn:Hmem; [injection Hrun as _ <-; congruence|].
    apply bool_decide_eq_false in Hmem.
    destruct (add_keeps_invariant 1 l cid (le_n 1) Hcan Hnd Hcid Hmem) as (nums & Hnums & Hnext).
    rewrite Hnums in Hrun.
    rewrite (write_then_flush e _ _ _ w1 w' st1 st' r Hst1) with (2 := Hrun) (3 := Hst');
      [exact Hnext|].
    intros w2 x w3. unfold bind, Date_now, read, ret. intros [= _ <-]. reflexivity.
  - intros cid r w' st' Hrun Hst'.
    unfold removeFromWatchlist in Hrun. unfold bind at 1 in Hrun.
    rewrite (kvGetJSON_loaded e w st _ _ Hst) in Hrun.
    destruct (remove_keeps_invariant 1 cid _ Hinv) as (l & Hl & Hnext).
    rewrite Hl in Hrun. unfold bind at 1, lift in Hrun. simpl elements_of in Hrun.
    cbv beta iota in Hrun.
    destruct (Nat.eqb (length (filter (fun x => String_of x ≠ cid) l)) (length l)).
    + injection Hrun as _ <-. rewrite Hst in Hst'. injection Hst' as <-. exact Hinv.
    + rewrite (write_then_flush e _ _ _ w w' st st' r Hst) with (2 := Hrun) (3 := Hst');
        [exact Hnext|].
      intros w2 x w3. unfold ret. intros [= _ <-]. reflexivity.
Qed.

(** ** Deleting by path *)

Lemma substring_all (s : string) : String.substring 0 (String.length s) s = s.
Proof. induction s as [|c s IH]; simpl; [reflexivity|]. now rewrite IH. Qed.

Lemma append_cons (c : ascii) (p r : string) : String c p +:+ r = String c (p +:+ r).
Proof. reflexivity. Qed.

Lemma prefix_nil (s : string) : String.prefix "" s = true.
Proof. destruct s; reflexivity. Qed.

Lemma prefix_append (p rest : string) : String.prefix p (p +:+ rest) = true.
Proof.
  induction p as [|c p IH]; [apply prefix_nil|].
  rewrite append_cons. simpl. destruct (ascii_dec c c); [exact IH|congruence].
Qed.

Lemma prefix_split (p s : string) :
  String.prefix p s = true -> exists rest, s = p +:+ rest.
Proof.
  revert s. induction p as [|c p IH]; intros s.
  - intros _. exists s. reflexivity.
  - destruct s as [|c' s]; simpl; [discriminate|].
    destruct (ascii_dec c c') as [->|Hne]; [|discriminate].
    intros H. destruct (IH s H) as [rest ->]. exists rest. reflexivity.
Qed.

Lemma substring_append (p rest : string) :
  String.substring (String.length p) (String.length (p +:+ rest) - String.length p)
    (p +:+ rest) = rest.
Proof.
  induction p as [|c p IH].
  - change ("" +:+ rest) with rest. simpl String.length. rewrite Nat.sub_0_r.
    apply substring_all.
  - rewrite append_cons. simpl. exact IH.
Qed.

Lemma watchlist_cid_of_path (rest : string) :
  watchlist_cid_of ("/api/watchlist/" +:+ rest) = if test_digits rest then Some rest else None.
Proof.
  unfold watchlist_cid_of. now rewrite prefix_append, substring_append.
Qed.

(** DELETE is routed to [removeFromWatchlist] for the paths
    [/api/watchlist/<digits>] and no others. *)
Lemma is_delete_path_spec (path : string) :
  is_delete_path path = true <->
  exists cid, path = "/api/watchlist/" +:+ cid /\ all_digits cid = true /\ cid <> "".
Proof.
  unfold is_delete_path. split.
  - destruct (watchlist_cid_of path) as [cid|] eqn:H; [|discriminate]. intros _.
    unfold watchlist_cid_of in H.
    destruct (String.prefix "/api/watchlist/" path) eqn:Hp; [|discriminate].
    apply prefix_split in Hp as [rest ->].
    rewrite substring_append in H.
    destruct (test_digits rest) eqn:Ht; [|discriminate]. injection H as <-.
    unfold test_digits in Ht. apply andb_prop in Ht as [Hd Hl]. apply Nat.leb_le in Hl.
    exists rest. split; [reflexivity|]. split; [exact Hd|]. intros ->. simpl in Hl. lia.
  - intros (cid & -> & Hd & Hne). rewrite watchlist_cid_of_path. unfold test_digits.
    rewrite Hd. destruct cid; [congruence|reflexivity].
Qed.

Lemma pad_zeros_digits (n : nat) (s : string) :
  all_digits s = true -> all_digits (pad_zeros n s) = true.
Proof. intros H. induction n as [|n IH]; simpl; auto. Qed.

Lemma pad_zeros_leading (n : nat) (s : string) :
  s <> "" -> leading_zero (pad_zeros (S n) s) = true.
Proof.
  intros Hs. simpl. destruct n as [|n]; simpl; [|reflexivity].
  destruct s; [congruence|reflexivity].
Qed.

Lemma filter_keeps_all (cid : string) (l : list string) :
  cid ∉ l -> filter (fun x => String_of x ≠ cid) (JStr <$> l) = JStr <$> l.
Proof.
  intros Hn. induction l as [|s l IH]; [reflexivity|].
  rewrite fmap_cons, filter_cons. cbn [String_of].
  destruct (decide (s ≠ cid)) as [_|He].
  - rewrite IH; [reflexivity|]. intros Hin. apply Hn. now right.
  - exfalso. apply Hn. apply dec_stable in He. subst. left.
Qed.

(** C9. With the document in memory and every stored entry canonical, a
    DELETE for a stored CID written with one or more zeros in front
    ([/api/watchlist/0123456] for the stored [123456]) is routed to
    [removeFromWatchlist], which compares the raw strings, finds nothing
    to remove and answers 404; the world, and with it the watchlist, is
    unchanged. *)
Theorem delete_with_leading_zeros_is_not_found (e : env) (w : world)
    (st : gmap string json) (l : list string) (c : string) (n : nat) (b : option json) :
  GH_STORE w = Some st ->
  st !! KV.WATCHLIST = Some (JArr (JStr <$> l)) ->
  Forall (canonical_cid 1) l -> c ∈ l ->
  handleAPI (Request "DELETE" ("/api/watchlist/" +:+ pad_zeros (S n) c) b) e w
  = (Ok (Reply 404 (origin_of e) (BError "CID not found on watchlist")), w).
Proof.
  intros Hst Hw Hl Hc.
  assert (Hcan : canonical_cid 1 c) by (rewrite Forall_forall in Hl; now apply Hl).
  assert (Hne : c <> "") by (apply (canonical_cid_nonempty 1); [lia|exact Hcan]).
  assert (Hcid : watchlist_cid_of ("/api/watchlist/" +:+ pad_zeros (S n) c)
                 = Some (pad_zeros (S n) c)).
  { rewrite watchlist_cid_of_path. unfold test_digits.
    rewrite pad_zeros_digits by apply Hcan. reflexivity. }
  assert (Hnot : pad_zeros (S n) c ∉ l).
  { intros Hin. rewrite Forall_forall in Hl. destruct (Hl _ Hin) as (_ & _ & Hz).
    rewrite pad_zeros_leading in Hz by exact Hne. discriminate. }
  unfold handleAPI, try_catch, dispatch. cbn [pathname method]. unfold is_delete_path.
  rewrite Hcid.
  replace (String.eqb ("/api/watchlist/" +:+ pad_zeros (S n) c) "/api/watchlist") with false
    by (cbv [String.append]; reflexivity).
  cbn [andb String.eqb Ascii.eqb Bool.eqb default]. simpl (String.eqb "DELETE" "DELETE").
  cbv iota. cbn [default from_option].
  unfold removeFromWatchlist. unfold bind at 1.
  rewrite (kvGetJSON_loaded e w st _ _ Hst), Hw. simpl default.
  unfold bind at 1, lift. simpl elements_of. cbv beta iota.
  unfold id. rewrite (filter_keeps_all _ l Hnot), Nat.eqb_refl. reflexivity.
Qed.

Lemma delete_with_leading_zeros_is_not_found_witness :
  let w := Scenario.warm Scenario.watch_doc "v1" 0 Scenario.offline in
  handleAPI (Scenario.delete_cid "0123456") Scenario.e0 w
  = (Ok (Reply 404 "https://realleviticus.github.io" (BError "CID not found on watchlist")), w).
Proof.
  intros w.
  apply (delete_with_leading_zeros_is_not_found Scenario.e0 w Scenario.watch_doc
           ["123456"; "1000000"] "123456" 0 None).
  - reflexivity.
  - reflexivity.
  - repeat constructor.
  - left.
Defined.

(** ** Instances *)

Lemma canonicalCID_canonical_form_witness :
  canonicalCID (Some (JStr "a0012-3 ")) = Ok (Some "123") /\
  canonicalCID (Some (JStr "12")) = Ok None /\
  canonicalCID None = Ok None /\
  code (Reply 400 "https://realleviticus.github.io" (BError "Invalid CID format")) = 400 /\
  canonicalCID (Some (JNum 1234567)) = Throw replace_is_not_a_function /\
  handleAPI (Scenario.post_cid (JNum 1234567)) Scenario.e0
    (Scenario.cold 0 (Scenario.healthy ∅))
  = (Ok (Reply 500 "https://realleviticus.github.io"
           (BError (message replace_is_not_a_function))),
     Scenario.cold 0 (Scenario.healthy ∅)).
Proof.
  destruct canonicalCID_canonical_form as (Hstr & Hfalsy & Hpost & Hother).
  destruct (Hstr "a0012-3 ") as (_ & _ & _ & Hsome).
  destruct (Hstr "12") as (_ & _ & Hnone & _).
  split; [apply Hsome; simpl; lia|].
  split; [apply Hnone; simpl; lia|].
  split; [apply Hfalsy; reflexivity|].
  split.
  { apply (Hpost (Scenario.post_cid (JStr "abc")) Scenario.e0
             (Scenario.cold 0 Scenario.offline) (Scenario.cold 0 Scenario.offline)
             (Reply 400 "https://realleviticus.github.io" (BError "Invalid CID format"))
             eq_refl eq_refl eq_refl).
    exists (Some (JStr "abc")). split; reflexivity. }
  apply (Hother (JNum 1234567) Scenario.e0 (Scenario.cold 0 (Scenario.healthy ∅)));
    [reflexivity | discriminate].
Defined.

Lemma watchlist_writes_keep_invariant_witness :
  let w := Scenario.warm Scenario.watch_doc "v1" 0 (Scenario.healthy Scenario.watch_doc) in
  (forall request r w' st',
     addToWatchlist request Scenario.e0 w = (r, w') -> GH_STORE w' = Some st' ->
     watchlist_invariant 1 (default (JArr []) (st' !! KV.WATCHLIST))) /\
  (forall cid r w' st',
     removeFromWatchlist cid Scenario.e0 w = (r, w') -> GH_STORE w' = Some st' ->
     watchlist_invariant 1 (default (JArr []) (st' !! KV.WATCHLIST))).
Proof.
  intros w.
  apply (watchlist_writes_keep_invariant Scenario.e0 w Scenario.watch_doc).
  - reflexivity.
  - exists ["123456"; "1000000"]. split; [reflexivity|].
    split; [repeat constructor|]. split.
    + repeat constructor; rewrite ?list_elem_of_singleton, ?elem_of_nil; intuition discriminate.
    + repeat constructor. exists 123456, 1000000. repeat split.
Defined.

(** C5 as stated fails on the length: "007" passes the 3-to-10-digit
    test, its canonical form is "7", the member check succeeds, and the
    watchlist written is ["7"], one character long. *)
Lemma watchlist_gets_short_cid :
  let run := handleAPI (Scenario.post_cid (JStr "007")) Scenario.e0
               (Scenario.warm ∅ "v1" 0 (Scenario.healthy ∅)) in
  fst run = Ok (Reply 200 "https://realleviticus.github.io" (BAdded "7" 80)) /\
  (GH_STORE (snd run) ≫= (fun st => st !! "watchlist")) = Some (JArr [JStr "7"]) /\
  String.length "7" = 1%nat.
Proof. vm_compute. repeat split. Qed.

(* ===================================================================== *)
(** * Further properties of the worker and its callers *)
(* ===================================================================== *)

(* ===================================================================== *)
(** * Frames: what a call leaves alone *)
(* ===================================================================== *)

Section Keeps.

Context (R : relation world) `{!PreOrder R}.

Lemma keeps_ret {A} (a : A) : keeps R (ret a).
Proof. intros w o w' [= _ <-]. reflexivity. Qed.

Lemma keeps_throw {A} (err : exn) : keeps R (throw (A := A) err).
Proof. intros w o w' [= _ <-]. reflexivity. Qed.

Lemma keeps_beyond {A} : keeps R (beyond (A := A)).
Proof. intros w o w' [= _ <-]. reflexivity. Qed.

Lemma keeps_lift {A} (r : outcome A) : keeps R (lift r).
Proof. intros w o w' [= _ <-]. reflexivity. Qed.

Lemma keeps_read {A} (f : world -> A) : keeps R (read f).
Proof. intros w o w' [= _ <-]. reflexivity. Qed.

Lemma keeps_the_store : keeps R the_store.
Proof. intros w o w'. unfold the_store. destruct (GH_STORE w); intros [= _ <-]; reflexivity. Qed.

Lemma keeps_bind {A B} (c : M A) (k : A -> M B) :
  keeps R c -> (forall a, keeps R (k a)) -> keeps R (bind c k).
Proof.
  intros Hc Hk w o w'. unfold bind. destruct (c w) as [[a|err|] w1] eqn:E.
  - intros H. etransitivity; [exact (Hc _ _ _ E) | exact (Hk _ _ _ _ H)].
  - intros [= _ <-]. exact (Hc _ _ _ E).
  - intros [= _ <-]. exact (Hc _ _ _ E).
Qed.

Lemma keeps_try_catch {A} (c : M A) (h : exn -> M A) :
  keeps R c -> (forall err, keeps R (h err)) -> keeps R (try_catch c h).
Proof.
  intros Hc Hh w o w'. unfold try_catch. destruct (c w) as [[a|err|] w1] eqn:E.
  - intros [= _ <-]. exact (Hc _ _ _ E).
  - intros H. etransitivity; [exact (Hc _ _ _ E) | exact (Hh _ _ _ _ H)].
  - intros [= _ <-]. exact (Hc _ _ _ E).
Qed.

Lemma keeps_try_finally {A} (c : M A) (f : M unit) :
  keeps R c -> keeps R f -> keeps R (try_finally c f).
Proof.
  intros Hc Hf w o w'. unfold try_finally. destruct (c w) as [r w1] eqn:E.
  destruct (f w1) as [[[]|err|] w2] eqn:F; intros [= _ <-];
    (etransitivity; [exact (Hc _ _ _ E) | exact (Hf _ _ _ F)]).
Qed.

Lemma keeps_for_each {A} (l : list A) (body : A -> M unit) :
  (forall x, keeps R (body x)) -> keeps R (for_each l body).
Proof.
  intros Hb. induction l as [|x l IH]; simpl.
  - apply keeps_ret.
  - apply keeps_bind; auto.
Qed.

Lemma keeps_map_each {A B} (l : list A) (f : A -> M B) :
  (forall x, keeps R (f x)) -> keeps R (map_each l f).
Proof.
  intros Hf. induction l as [|x l IH]; simpl.
  - apply keeps_ret.
  - apply keeps_bind; [auto|]. intros y. apply keeps_bind; [auto|]. intros ys. apply keeps_ret.
Qed.

End Keeps.

Create HintDb frame discriminated.

#[local] Hint Resolve keeps_ret keeps_throw keeps_beyond keeps_lift keeps_read
  keeps_the_store keeps_bind keeps_try_catch keeps_try_finally keeps_for_each
  keeps_map_each : frame.
#[local] Hint Extern 0 (PreOrder _) => exact _ : frame.
#[local] Hint Extern 1 (keeps _ (match ?x with _ => _ end)) => destruct x : frame.
#[local] Hint Extern 1 (keeps _ Date_now) => unfold Date_now : frame.
#[local] Hint Extern 1 (keeps _ ts) => unfold ts : frame.
#[local] Hint Extern 1 (keeps _ (swallow _)) => unfold swallow : frame.
#[local] Hint Extern 1 (keeps _ (storeGet _ _)) => unfold storeGet : frame.

Section Returns.

Context {A : Type} (P : A -> Prop).

Lemma returns_ret (a : A) : P a -> returns P (ret a).
Proof. intros H w a' w' [= <- _]. exact H. Qed.

Lemma returns_throw (err : exn) : returns P (throw err).
Proof. intros w a w'. discriminate. Qed.

Lemma returns_beyond : returns P beyond.
Proof. intros w a w'. discriminate. Qed.

Lemma returns_bind {B} (c : M B) (k : B -> M A) :
  (forall b, returns P (k b)) -> returns P (bind c k).
Proof.
  intros Hk w a w' H. apply bind_Ok_inv in H as (b & w1 & _ & H). exact (Hk _ _ _ _ H).
Qed.

Lemma returns_try_catch (c : M A) (h : exn -> M A) :
  returns P c -> (forall err, returns P (h err)) -> returns P (try_catch c h).
Proof.
  intros Hc Hh w a w'. unfold try_catch. destruct (c w) as [[x|err|] w1] eqn:E.
  - intros [= <- <-]. exact (Hc _ _ _ E).
  - apply Hh.
  - discriminate.
Qed.

Lemma returns_try_finally (c : M A) (f : M unit) :
  returns P c -> returns P (try_finally c f).
Proof.
  intros Hc w a w'. unfold try_finally. destruct (c w) as [r w1] eqn:E.
  destruct (f w1) as [[[]|err|] w2]; try discriminate.
  intros [= -> <-]. exact (Hc _ _ _ E).
Qed.

End Returns.

#[local] Hint Resolve returns_ret returns_throw returns_beyond returns_bind
  returns_try_catch returns_try_finally : frame.
#[local] Hint Extern 1 (returns _ (match ?x with _ => _ end)) => destruct x : frame.

(** ** The entry point never rejects *)

Lemma swallow_run (c : M unit) (w : world) :
  exists w', swallow c w = (Ok tt, w') \/ swallow c w = (Beyond, w').
Proof.
  unfold swallow, try_catch, ret. destruct (c w) as [[[]|err|] w']; eauto.
Qed.

Lemma handleAPI_never_throws (request : api_request) (e : env) :
  never_throws (handleAPI request e).
Proof.
  intros w err. unfold handleAPI, try_catch, ret.
  destruct (dispatch request e w) as [[a|x|] w']; discriminate.
Qed.

(** X1. Whatever the request, the state and the network, the promise
    [fetch] returns is never rejected: what a route throws becomes the 500
    answer of [handleAPI], and what the closing [storeFlush] throws is
    dropped. *)
Theorem worker_fetch_never_throws (request : api_request) (e : env) :
  never_throws (handleAPI request e) /\ never_throws (worker_fetch request e).
Proof.
  split; [apply handleAPI_never_throws|].
  intros w err. unfold worker_fetch, bind, resetBudgets, update, try_finally.
  set (w0 := with_subreq 0 w).
  match goal with |- context [match ?c w0 with _ => _ end] =>
    assert (Hbody : forall x, fst (c w0) <> Throw x); [|destruct (c w0) as [r w1]] end.
  { intros x. destruct (String.eqb (method request) "OPTIONS"); [discriminate|].
    destruct (String.prefix "/api/" (pathname request)); [apply handleAPI_never_throws|].
    destruct (String.eqb (pathname request) "/"); discriminate. }
  destruct (swallow_run (storeFlush e "bot: fetch tail flush") w1) as [w2 [H|H]];
    rewrite H; simpl; [apply Hbody | discriminate].
Qed.

(** ** What every reply carries *)

Lemma returns_reply (e : env) (d : api_body) (st : Z) :
  st ∈ [200; 400; 404; 409; 500] ->
  returns (fun resp => allow_origin resp = origin_of e /\
                       code resp ∈ [200; 400; 404; 409; 500])
          (ret (jsonResponse d st e)).
Proof. intros H. apply returns_ret. split; [reflexivity | exact H]. Qed.

(** X2. Every answer of the worker, the errors and the pre-flight
    included, carries the configured origin ([ALLOWED_ORIGIN], or the
    project's GitHub Pages site when none is set) in
    [Access-Control-Allow-Origin], and its status is one of 200, 400,
    404, 409 and 500. *)
Theorem every_reply_allows_the_origin (request : api_request) (e : env)
    (w w' : world) (resp : api_response) :
  worker_fetch request e w = (Ok resp, w') ->
  allow_origin resp = origin_of e /\ code resp ∈ [200; 400; 404; 409; 500].
Proof.
  revert w resp w'.
  change (returns (fun resp => allow_origin resp = origin_of e /\
                               code resp ∈ [200; 400; 404; 409; 500])
                  (worker_fetch request e)).
  assert (Hin : forall st, st ∈ [200; 400; 404; 409; 500] ->
    forall d, returns (fun resp => allow_origin resp = origin_of e /\
                                   code resp ∈ [200; 400; 404; 409; 500])
                      (ret (jsonResponse d st e))).
  { intros st H d. now apply returns_reply. }
  assert (H200 := Hin 200 ltac:(repeat constructor)).
  assert (H400 := Hin 400 ltac:(repeat constructor)).
  assert (H404 := Hin 404 ltac:(repeat constructor)).
  assert (H409 := Hin 409 ltac:(repeat constructor)).
  assert (H500 := Hin 500 ltac:(repeat constructor)).
  unfold worker_fetch. apply returns_bind. intros _. apply returns_try_finally.
  destruct (String.eqb (method request) "OPTIONS").
  { apply returns_ret. split; [reflexivity|repeat constructor]. }
  destruct (String.prefix "/api/" (pathname request)); [|destruct (String.eqb (pathname request) "/"); auto].
  unfold handleAPI. apply returns_try_catch; [|auto].
  unfold dispatch, getWatchlist, addToWatchlist, removeFromWatchlist, getAudit,
    getPresence, getStats.
  repeat first
    [ apply H200 | apply H400 | apply H404 | apply H409
    | apply returns_throw | apply returns_beyond
    | apply returns_bind; intros ?
    | match goal with |- returns _ (match ?x with _ => _ end) => destruct x end ].
Qed.

Lemma every_reply_allows_the_origin_witness :
  allow_origin (Reply 404 "https://realleviticus.github.io" (BError "Not Found"))
    = origin_of Scenario.e0 /\
  code (Reply 404 "https://realleviticus.github.io" (BError "Not Found"))
    ∈ [200; 400; 404; 409; 500].
Proof.
  apply (every_reply_allows_the_origin (Request "PUT" "/api/watchlist" None) Scenario.e0
           (Scenario.cold 0 Scenario.offline) (with_subreq 0 (Scenario.cold 0 Scenario.offline))).
  reflexivity.
Defined.

(** ** Requests that only read *)

(** [trackedFetch], case by case. *)
Lemma trackedFetch_eq (rq : request) (w : world) :
  trackedFetch rq w =
    if SUBREQ_BUDGET_PER_TICK <=? subreqCount w then (Ok None, w)
    else
      let w1 := with_sent (sent w ++ [rq]) (with_subreq (subreqCount w + 1) w) in
      if 25000 <? (net w (sent w) rq).2
      then (Ok None, with_clock (clock w + 25000) w1)
      else (Ok (match (net w (sent w) rq).1 with
                | Answer a => Some a
                | NetworkError => None
                end),
            with_clock (clock w + Z.max 0 (net w (sent w) rq).2) w1).
Proof.
  unfold trackedFetch, bind, read, update, try_catch, fetchWithTimeout, ret. cbv beta.
  destruct (SUBREQ_BUDGET_PER_TICK <=? subreqCount w); [reflexivity|].
  simpl. destruct (net w (sent w) rq) as [res dt]. simpl.
  destruct (25000 <? dt); [reflexivity|]. destruct res; reflexivity.
Qed.

Lemma sends_one (P : request -> Prop) (rq : request) (w w' : world) :
  P rq -> sent w' = sent w ++ [rq] -> sends P w w'.
Proof. intros H E. exists [rq]. split; [exact E | constructor; [exact H | constructor]]. Qed.

Lemma reads_only_trackedFetch (rq : request) :
  is_put rq = false -> keeps reads_only (trackedFetch rq).
Proof.
  intros Hrq w o w'. rewrite trackedFetch_eq.
  destruct (SUBREQ_BUDGET_PER_TICK <=? subreqCount w); [intros [= _ <-]; reflexivity|].
  cbv zeta. destruct (25000 <? (net w (sent w) rq).2); intros [= _ <-];
    (split; [reflexivity|]; split; [auto|]; now apply (sends_one _ rq)).
Qed.

Lemma reads_only_ghGet (e : env) (path : string) : keeps reads_only (ghGet e path).
Proof.
  intros w o w' H.
  destruct (ghGet_run e path w) as [[_ Hg]|(_ & r & w1 & k & Hg & _ & (M1 & M2 & M3 & _) & _ & Hs & _)];
    rewrite Hg in H; injection H as _ <-; [reflexivity|].
  split; [exact M3|]. split; [intros st; rewrite M1; auto|].
  exists (replicate k (GithubGet path)). split; [exact Hs|].
  apply Forall_replicate. reflexivity.
Qed.

Lemma reads_only_storeLoad (e : env) : keeps reads_only (storeLoad e).
Proof.
  intros w o w'. unfold storeLoad, bind at 1, read.
  destruct (GH_STORE w) as [st|] eqn:Hst; [intros [= _ <-]; reflexivity|].
  intros H.
  assert (Hnone : forall w1, reads_only w w1 -> forall f,
            GH_STORE_DIRTY (f w1) = GH_STORE_DIRTY w1 -> sent (f w1) = sent w1 ->
            reads_only w (f w1)).
  { intros w1 (D & _ & l & S & F) f Hd Hs. split; [congruence|]. split; [intros ?; congruence|].
    exists l. split; [congruence | exact F]. }
  unfold bind in H.
  destruct (ghGet e (storePath e) w) as [[[sha doc|stt txt]|err|] w1] eqn:Hg;
    pose proof (reads_only_ghGet e _ _ _ _ Hg) as Hro.
  - unfold update in H. injection H as _ <-.
    apply (Hnone w1 Hro (fun w => with_sha (nonempty sha) (with_store (Some doc) w))); reflexivity.
  - destruct (stt =? 404).
    + unfold update in H. injection H as _ <-.
      apply (Hnone w1 Hro (with_store (Some ∅))); reflexivity.
    + injection H as _ <-. exact Hro.
  - injection H as _ <-. exact Hro.
  - injection H as _ <-. exact Hro.
Qed.

#[local] Hint Resolve reads_only_storeLoad reads_only_ghGet : frame.
#[local] Hint Extern 1 (keeps reads_only (trackedFetch _)) =>
  apply reads_only_trackedFetch; reflexivity : frame.

Lemma reads_only_kvGetJSON (e : env) (key : string) (fb : json) :
  keeps reads_only (kvGetJSON e key fb).
Proof. unfold kvGetJSON. auto 10 with frame. Qed.

#[local] Hint Resolve reads_only_kvGetJSON : frame.

Lemma reads_only_cacheGet (e : env) (key : string) (maxAge : option Z) :
  keeps reads_only (cacheGet e key maxAge).
Proof. unfold cacheGet. auto 20 with frame. Qed.

Lemma reads_only_getOnlineMap : keeps reads_only getOnlineMap.
Proof. unfold getOnlineMap. auto 20 with frame. Qed.

#[local] Hint Resolve reads_only_cacheGet reads_only_getOnlineMap : frame.

Lemma reads_only_getWatchlist (e : env) : keeps reads_only (getWatchlist e).
Proof. unfold getWatchlist. auto 30 with frame. Qed.

Lemma reads_only_getAudit (e : env) (scope : string) : keeps reads_only (getAudit e scope).
Proof. unfold getAudit, startedAt, rows_of. auto 30 with frame. Qed.

Lemma reads_only_getPresence (e : env) : keeps reads_only (getPresence e).
Proof. unfold getPresence. auto 30 with frame. Qed.

Lemma reads_only_getStats (e : env) : keeps reads_only (getStats e).
Proof. unfold getStats. auto 30 with frame. Qed.

#[local] Hint Resolve reads_only_getWatchlist reads_only_getAudit reads_only_getPresence
  reads_only_getStats : frame.

Lemma reads_only_dispatch_get (request : api_request) (e : env) :
  method request = "GET" -> keeps reads_only (dispatch request e).
Proof.
  intros Hm. unfold dispatch. rewrite Hm.
  change (String.eqb "GET" "GET") with true.
  change (String.eqb "GET" "POST") with false.
  change (String.eqb "GET" "DELETE") with false.
  rewrite !andb_false_r, !andb_true_r. auto 20 with frame.
Qed.

(** X3. A GET request that finds the store clean writes nothing.
    Whatever its path, the document in memory and the network: the
    document is the one that was there, the store is still clean when the
    request is over, and no PUT is sent to GitHub, the closing flush
    included. The condition is needed: on an isolate that an earlier
    failed flush left dirty, the closing flush of a GET does PUT. *)
Theorem get_requests_write_nothing (request : api_request) (e : env) (w : world) :
  method request = "GET" -> GH_STORE_DIRTY w = false ->
  reads_only w (snd (worker_fetch request e w)).
Proof.
  intros Hm Hd.
  assert (H0 : reads_only w (with_subreq 0 w)).
  { split; [reflexivity|]. split; [auto|]. exists []. simpl. now rewrite app_nil_r. }
  unfold worker_fetch, bind, resetBudgets, update, try_finally. rewrite Hm.
  change (String.eqb "GET" "OPTIONS") with false. cbv iota.
  match goal with |- context [match ?c (with_subreq 0 w) with _ => _ end] =>
    assert (Hbody : keeps reads_only c); [|destruct (c (with_subreq 0 w)) as [r w1] eqn:E] end.
  { destruct (String.prefix "/api/" (pathname request)).
    - unfold handleAPI. apply (keeps_try_catch reads_only); [|auto with frame].
      now apply reads_only_dispatch_get.
    - auto with frame. }
  pose proof (Hbody _ _ _ E) as H1.
  assert (Hclean : GH_STORE_DIRTY w1 = false).
  { destruct H1 as (D & _). rewrite D. exact Hd. }
  assert (Hflush : swallow (storeFlush e "bot: fetch tail flush") w1 = (Ok tt, w1)).
  { unfold swallow, try_catch, storeFlush, bind, read. rewrite Hclean. reflexivity. }
  rewrite Hflush. simpl. now transitivity (with_subreq 0 w).
Qed.

Lemma get_requests_write_nothing_witness :
  reads_only (Scenario.cold 0 (Scenario.healthy Scenario.watch_doc))
    (snd (worker_fetch (Request "GET" "/api/watchlist" None) Scenario.e0
            (Scenario.cold 0 (Scenario.healthy Scenario.watch_doc)))).
Proof.
  apply (get_requests_write_nothing (Request "GET" "/api/watchlist" None) Scenario.e0
           (Scenario.cold 0 (Scenario.healthy Scenario.watch_doc))); reflexivity.
Defined.

(** The closing flush of a GET on an isolate with unsaved edits. *)
Example get_on_a_dirty_store_flushes :
  let w := Scenario.unsaved (Scenario.healthy Scenario.local_doc) in
  sent (snd (worker_fetch (Request "GET" "/api/stats" None) Scenario.e0 w))
  = [GithubPut "cf-cache/store.json" Scenario.local_doc (Some "v1") "bot: fetch tail flush"].
Proof. vm_compute. reflexivity. Qed.

(** ** The budget bounds the traffic *)

Lemma traffic_memory (w w' : world) :
  sent w' = sent w -> subreqCount w' = subreqCount w -> traffic w w'.
Proof.
  intros Hs Hc. split; [lia|]. split; [lia|]. exists []. rewrite app_nil_r.
  split; [exact Hs | simpl; lia].
Qed.

Lemma traffic_update (f : world -> world) :
  (forall w, sent (f w) = sent w /\ subreqCount (f w) = subreqCount w) ->
  keeps traffic (update f).
Proof. intros Hf w o w' [= _ <-]. apply traffic_memory; apply Hf. Qed.

#[local] Hint Extern 1 (keeps traffic (update _)) =>
  apply traffic_update; intros ?; split; reflexivity : frame.

Lemma traffic_the_document : keeps traffic the_document.
Proof.
  intros w o w'. unfold the_document. destruct (GH_STORE w); intros [= _ <-]; reflexivity.
Qed.

Lemma traffic_trackedFetch (rq : request) : keeps traffic (trackedFetch rq).
Proof.
  intros w o w'. rewrite trackedFetch_eq.
  destruct (SUBREQ_BUDGET_PER_TICK <=? subreqCount w) eqn:Hb; [intros [= _ <-]; reflexivity|].
  apply Z.leb_gt in Hb. cbv zeta.
  destruct (25000 <? (net w (sent w) rq).2); intros [= _ <-]; simpl;
    (split; [simpl; lia|]; split; [simpl; lia|]; exists [rq]; simpl; split; [reflexivity|lia]).
Qed.

Lemma traffic_ghGet (e : env) (path : string) : keeps traffic (ghGet e path).
Proof.
  intros w o w' H.
  destruct (ghGet_run e path w) as [[_ Hg]|(Hb & r & w1 & k & Hg & _ & _ & Hc & Hs & Hk)];
    rewrite Hg in H; injection H as _ <-; [reflexivity|].
  split; [lia|]. split; [lia|]. exists (replicate k (GithubGet path)).
  split; [exact Hs|]. rewrite length_replicate. lia.
Qed.

Lemma traffic_ghPut (e : env) (path : string) (obj : gmap string json)
    (sha : option string) (msg : string) :
  keeps traffic (ghPut e path obj sha msg).
Proof.
  intros w o w' H.
  destruct (ghPut_run e path obj sha msg w) as [[_ Hg]|(Hb & r & w1 & k & Hg & _ & _ & Hc & Hs & Hk)];
    rewrite Hg in H; injection H as _ <-; [reflexivity|].
  split; [lia|]. split; [lia|].
  exists (replicate k (GithubPut path obj (nonempty sha) (commit_message msg path))).
  split; [exact Hs|]. rewrite length_replicate. lia.
Qed.

#[local] Hint Resolve traffic_the_document traffic_trackedFetch traffic_ghGet traffic_ghPut : frame.

Lemma traffic_storeLoad (e : env) : keeps traffic (storeLoad e).
Proof. unfold storeLoad. auto 20 with frame. Qed.

Lemma traffic_storeFlush (e : env) (msg : string) : keeps traffic (storeFlush e msg).
Proof. unfold storeFlush, flush_commit. auto 30 with frame. Qed.

#[local] Hint Resolve traffic_storeLoad traffic_storeFlush : frame.

Lemma traffic_kvGetJSON (e : env) (key : string) (fb : json) :
  keeps traffic (kvGetJSON e key fb).
Proof. unfold kvGetJSON. auto 10 with frame. Qed.

Lemma traffic_storeSet (key : string) (v : json) : keeps traffic (storeSet key v).
Proof. unfold storeSet. auto 10 with frame. Qed.

Lemma traffic_storeDel (key : string) : keeps traffic (storeDel key).
Proof. unfold storeDel. auto 10 with frame. Qed.

#[local] Hint Resolve traffic_kvGetJSON traffic_storeSet traffic_storeDel : frame.

Lemma traffic_kvPutJSON (e : env) (key : string) (v : json) :
  keeps traffic (kvPutJSON e key v).
Proof. unfold kvPutJSON. auto 10 with frame. Qed.

#[local] Hint Resolve traffic_kvPutJSON : frame.

Lemma traffic_cacheGet (e : env) (key : string) (maxAge : option Z) :
  keeps traffic (cacheGet e key maxAge).
Proof. unfold cacheGet. auto 20 with frame. Qed.

Lemma traffic_cachePut (e : env) (key : string) (obj : gmap string json) :
  keeps traffic (cachePut e key obj).
Proof. unfold cachePut. auto 20 with frame. Qed.

Lemma traffic_getOnlineMap : keeps traffic getOnlineMap.
Proof. unfold getOnlineMap. auto 20 with frame. Qed.

#[local] Hint Resolve traffic_cacheGet traffic_cachePut traffic_getOnlineMap : frame.

Lemma traffic_isValidMember (e : env) (cid : string) : keeps traffic (isValidMember e cid).
Proof. unfold isValidMember. auto 20 with frame. Qed.

Lemma traffic_maybeCleanupStore (e : env) : keeps traffic (maybeCleanupStore e).
Proof. unfold maybeCleanupStore. auto 30 with frame. Qed.

Lemma traffic_runPresence (e : env) : keeps traffic (runPresence e).
Proof. unfold runPresence. auto 30 with frame. Qed.

Lemma traffic_maybeStartQuarterlyVisiting (e : env) :
  keeps traffic (maybeStartQuarterlyVisiting e).
Proof. unfold maybeStartQuarterlyVisiting. auto 30 with frame. Qed.

#[local] Hint Resolve traffic_isValidMember traffic_maybeCleanupStore traffic_runPresence
  traffic_maybeStartQuarterlyVisiting : frame.

Lemma traffic_handleScheduled (e : env) : keeps traffic (handleScheduled e).
Proof. unfold handleScheduled, tickAudit. auto 40 with frame. Qed.

Lemma traffic_handleAPI (request : api_request) (e : env) :
  keeps traffic (handleAPI request e).
Proof.
  unfold handleAPI, dispatch, getWatchlist, addToWatchlist, removeFromWatchlist, getAudit,
    getPresence, getStats.
  auto 60 with frame.
Qed.

(** X4. One invocation, of [fetch] or of [scheduled], counts at most 120
    subrequests and sends at most three requests for each one it counts
    (a store call is counted once and tried up to three times): at most
    360 requests leave the worker, whatever the request, the state and the
    network. *)
Theorem invocation_traffic_is_bounded (e : env) (w : world) :
  (forall request,
     let w' := snd (worker_fetch request e w) in
     0 <= subreqCount w' <= SUBREQ_BUDGET_PER_TICK /\
     exists l, sent w' = sent w ++ l /\ Z.of_nat (length l) <= 3 * subreqCount w') /\
  (let w' := snd (scheduled e w) in
   0 <= subreqCount w' <= SUBREQ_BUDGET_PER_TICK /\
   exists l, sent w' = sent w ++ l /\ Z.of_nat (length l) <= 3 * subreqCount w').
Proof.
  assert (Hreset : forall A (k : M A), keeps traffic k ->
    let w' := snd ((resetBudgets ;; k) w) in
    0 <= subreqCount w' <= SUBREQ_BUDGET_PER_TICK /\
    exists l, sent w' = sent w ++ l /\ Z.of_nat (length l) <= 3 * subreqCount w').
  { intros A k Hk. unfold bind, resetBudgets, update.
    destruct (k (with_subreq 0 w)) as [r w1] eqn:E.
    destruct (Hk _ _ _ E) as (H1 & H2 & l & Hs & Hl). simpl in *.
    assert (subreqCount w1 <= SUBREQ_BUDGET_PER_TICK)
      by (apply H2; unfold SUBREQ_BUDGET_PER_TICK; lia).
    destruct r; simpl; (split; [lia|]; exists l; split; [exact Hs|lia]). }
  split.
  - intros request. apply Hreset.
    apply (keeps_try_finally traffic); [|unfold swallow; auto with frame].
    destruct (String.eqb (method request) "OPTIONS"); [auto with frame|].
    destruct (String.prefix "/api/" (pathname request)); [apply traffic_handleAPI|].
    destruct (String.eqb (pathname request) "/"); auto with frame.
  - apply Hreset. apply traffic_handleScheduled.
Qed.

(** ** Retries of a store call *)

(** X5. [ghFetch] with [n] attempts allowed sends its request [k] times,
    one to [n], and returns. Every attempt but the last met a network
    error or one of the statuses 403, 429, 500 and above; what comes back
    is the last attempt's response, whatever its status, or [null] when
    that attempt was a network error; and it stops before the [n]-th
    attempt only on a response with another status. *)
Theorem ghFetch_retries_until_settled (rq : request) (n : nat) (w : world) :
  (0 < n)%nat ->
  exists (w' : world) (k : nat),
    let last := (net w (sent w ++ replicate (k - 1) rq) rq).1 in
    ghFetch rq n w = (Ok (response_of last), w') /\
    (1 <= k <= n)%nat /\
    sent w' = sent w ++ replicate k rq /\
    (forall j, (j < k - 1)%nat ->
       retried (net w (sent w ++ replicate j rq) rq).1 = true) /\
    ((k < n)%nat -> retried last = false).
Proof.
  intros Hn. destruct (ghFetch_loop_attempts rq n 700 w Hn) as (w' & k & H1 & H2 & H3 & _ & H4 & H5).
  exists w', k. auto.
Qed.

Lemma ghFetch_retries_until_settled_witness :
  exists (w' : world) (k : nat),
    let w := Scenario.cold 0 (Scenario.always 503 "busy") in
    let last := (net w (sent w ++ replicate (k - 1) (GithubGet "p")) (GithubGet "p")).1 in
    ghFetch (GithubGet "p") 3 w = (Ok (response_of last), w') /\
    (1 <= k <= 3)%nat /\
    sent w' = sent w ++ replicate k (GithubGet "p") /\
    (forall j, (j < k - 1)%nat ->
       retried (net w (sent w ++ replicate j (GithubGet "p")) (GithubGet "p")).1 = true) /\
    ((k < 3)%nat -> retried last = false).
Proof.
  apply (ghFetch_retries_until_settled (GithubGet "p") 3
           (Scenario.cold 0 (Scenario.always 503 "busy"))).
  lia.
Defined.

(** ** One tracked fetch *)

(** X6. While the budget lasts, [trackedFetch] sends its request once and
    counts it, whether or not it succeeds; it never throws. It returns the
    response, whatever its status, when the network answers within 25
    seconds, and [null] on a network error or when the answer takes
    longer; the call is over after 25 seconds at most and leaves the store
    alone. *)
Theorem trackedFetch_counts_and_never_throws (rq : request) (w : world) :
  subreqCount w < SUBREQ_BUDGET_PER_TICK ->
  exists (r : option response) (w' : world),
    trackedFetch rq w = (Ok r, w') /\
    subreqCount w' = subreqCount w + 1 /\ sent w' = sent w ++ [rq] /\
    same_memory w w' /\ clock w <= clock w' <= clock w + 25000 /\
    r = (if 25000 <? (net w (sent w) rq).2 then None
         else response_of (net w (sent w) rq).1).
Proof.
  intros Hb. apply Z.leb_gt in Hb. rewrite trackedFetch_eq, Hb. cbv zeta.
  destruct (25000 <? (net w (sent w) rq).2) eqn:Ht.
  - eexists _, _. split; [reflexivity|]. simpl. repeat split; lia.
  - apply Z.ltb_ge in Ht. eexists _, _. split; [reflexivity|]. simpl.
    repeat split; lia.
Qed.

Lemma trackedFetch_counts_and_never_throws_witness :
  exists (r : option response) (w' : world),
    let w := Scenario.cold 0 Scenario.offline in
    trackedFetch VatsimData w = (Ok r, w') /\
    subreqCount w' = subreqCount w + 1 /\ sent w' = sent w ++ [VatsimData] /\
    same_memory w w' /\ clock w <= clock w' <= clock w + 25000 /\
    r = (if 25000 <? (net w (sent w) VatsimData).2 then None
         else response_of (net w (sent w) VatsimData).1).
Proof.
  apply (trackedFetch_counts_and_never_throws VatsimData (Scenario.cold 0 Scenario.offline)).
  reflexivity.
Defined.

(** ** What goes out *)

Lemma sends_memory (P : request -> Prop) (w w' : world) :
  sent w' = sent w -> sends P w w'.
Proof. intros H. exists []. now rewrite app_nil_r. Qed.

Lemma sends_update (P : request -> Prop) (f : world -> world) :
  (forall w, sent (f w) = sent w) -> keeps (sends P) (update f).
Proof. intros Hf w o w' [= _ <-]. apply sends_memory, Hf. Qed.

Lemma sends_the_document (P : request -> Prop) : keeps (sends P) the_document.
Proof.
  intros w o w'. unfold the_document. destruct (GH_STORE w); intros [= _ <-]; reflexivity.
Qed.

Lemma sends_trackedFetch (P : request -> Prop) (rq : request) :
  P rq -> keeps (sends P) (trackedFetch rq).
Proof.
  intros Hrq w o w'. rewrite trackedFetch_eq.
  destruct (SUBREQ_BUDGET_PER_TICK <=? subreqCount w); [intros [= _ <-]; reflexivity|].
  cbv zeta. destruct (25000 <? (net w (sent w) rq).2); intros [= _ <-];
    now apply (sends_one _ rq).
Qed.

Lemma sends_ghGet (P : request -> Prop) (e : env) (path : string) :
  P (GithubGet path) -> keeps (sends P) (ghGet e path).
Proof.
  intros HP w o w' H.
  destruct (ghGet_run e path w) as [[_ Hg]|(_ & r & w1 & k & Hg & _ & _ & _ & Hs & _)];
    rewrite Hg in H; injection H as _ <-; [reflexivity|].
  exists (replicate k (GithubGet path)). split; [exact Hs|]. now apply Forall_replicate.
Qed.

Lemma sends_ghPut (P : request -> Prop) (e : env) (path : string) (obj : gmap string json)
    (sha : option string) (msg : string) :
  P (GithubPut path obj (nonempty sha) (commit_message msg path)) ->
  keeps (sends P) (ghPut e path obj sha msg).
Proof.
  intros HP w o w' H.
  destruct (ghPut_run e path obj sha msg w) as [[_ Hg]|(_ & r & w1 & k & Hg & _ & _ & _ & Hs & _)];
    rewrite Hg in H; injection H as _ <-; [reflexivity|].
  eexists. split; [exact Hs|]. now apply Forall_replicate.
Qed.

#[local] Hint Extern 1 (keeps (sends _) (update _)) =>
  apply sends_update; intros ?; reflexivity : frame.
#[local] Hint Extern 1 (keeps (sends _) (ghGet _ _)) =>
  apply sends_ghGet; solve [exact I | reflexivity] : frame.
#[local] Hint Extern 1 (keeps (sends _) (ghPut _ _ _ _ _)) =>
  apply sends_ghPut; solve [exact I | reflexivity] : frame.
#[local] Hint Extern 1 (keeps (sends _) (trackedFetch _)) =>
  apply sends_trackedFetch; solve [exact I | reflexivity] : frame.
#[local] Hint Resolve sends_the_document : frame.

(** [storeFlush] on a dirty store starts with the PUT of the document in
    memory. *)
Lemma storeFlush_first_put (e : env) (msg : string) (w : world) (local : gmap string json) :
  GH_STORE_DIRTY w = true -> GH_STORE w = Some local ->
  subreqCount w < SUBREQ_BUDGET_PER_TICK ->
  exists (o : outcome unit) (w' : world) (k : nat) (rest : list request),
    storeFlush e msg w = (o, w') /\ (1 <= k <= 3)%nat /\
    sent w' = sent w ++
      replicate k (GithubPut (storePath e) local (nonempty (GH_STORE_SHA w))
                     (commit_message msg (storePath e))) ++ rest.
Proof.
  intros Hd Hs Hb. unfold storeFlush. unfold bind at 1, read. rewrite Hd. simpl.
  unfold bind at 1, the_document. rewrite Hs.
  unfold bind at 1. unfold bind at 1.
  destruct (ghPut_run e (storePath e) local (GH_STORE_SHA w) msg w)
    as [[Hb' _]|(_ & res & w1 & k & Hput & _ & _ & _ & Hsent & Hk)]; [lia|].
  rewrite Hput.
  destruct res as [res|err|];
    [|eexists _, w1, k, []; split; [reflexivity|]; split; [exact Hk|];
      now rewrite app_nil_r..].
  match goal with |- context [bind ?c ?f w1] =>
    assert (Hrest : keeps (sends (fun _ => True)) (bind c f));
      [|destruct (bind c f w1) as [o w'] eqn:E] end.
  { unfold flush_commit. auto 20 with frame. }
  destruct (Hrest _ _ _ E) as (rest & Hr & _).
  exists o, w', k, rest. split; [reflexivity|]. split; [exact Hk|].
  now rewrite Hr, Hsent, <- app_assoc.
Qed.

(** ** A repository without a store file *)

(** X7. On a fresh isolate, when GitHub answers 404 for [store.json],
    the store starts as the empty document with no SHA, and the first
    write creates the file: after the GET, the flush PUTs the document
    that holds the one key written, without a [sha]. *)
Theorem first_write_creates_the_store_file (e : env) (key : string) (v : json)
    (msg : string) (w : world) (a : response) (dt : Z) :
  storable key -> GH_STORE w = None -> GH_STORE_SHA w = None ->
  subreqCount w + 1 < SUBREQ_BUDGET_PER_TICK ->
  net w (sent w) (GithubGet (storePath e)) = (Answer a, dt) -> status a = 404 ->
  exists (o : outcome unit) (w' : world) (k : nat) (rest : list request),
    bind (kvPutJSON e key v) (fun _ => storeFlush e msg) w = (o, w') /\
    (1 <= k <= 3)%nat /\
    sent w' = sent w ++
      GithubGet (storePath e) ::
        (replicate k (GithubPut (storePath e) {[ key := v ]} None
                        (commit_message msg (storePath e))) ++ rest).
Proof.
  intros _ Hst Hsha Hb Hnet H404.
  assert (Hb' : (SUBREQ_BUDGET_PER_TICK <=? subreqCount w) = false) by (apply Z.leb_gt; lia).
  set (w1 := with_clock (clock w + Z.max 0 dt)
               (with_sent (sent w ++ [GithubGet (storePath e)])
                  (with_subreq (subreqCount w + 1) w))).
  assert (Hload : storeLoad e w = (Ok tt, with_store (Some ∅) w1)).
  { unfold storeLoad, bind at 1, read. rewrite Hst.
    unfold bind at 1, ghGet, bind at 1, budget_check, bind at 1, read. rewrite Hb'.
    unfold update. cbv beta iota. unfold bind at 1, ghFetch. simpl ghFetch_loop.
    unfold bind at 1, fetch. simpl. rewrite Hnet. simpl. rewrite H404. simpl.
    rewrite H404. reflexivity. }
  set (w2 := with_dirty true (with_store (Some (<[key:=v]> ∅)) (with_store (Some ∅) w1))).
  assert (Hput : kvPutJSON e key v w = (Ok tt, w2)).
  { unfold kvPutJSON, bind. rewrite Hload. reflexivity. }
  unfold bind at 1. rewrite Hput.
  destruct (storeFlush_first_put e msg w2 (<[key:=v]> ∅) eq_refl eq_refl)
    as (o & w' & k & rest & Hrun & Hk & Hsent).
  { simpl. lia. }
  exists o, w', k, rest. split; [exact Hrun|]. split; [exact Hk|].
  rewrite Hsent. simpl. rewrite Hsha. simpl. rewrite <- app_assoc. simpl.
  now rewrite insert_empty.
Qed.

Lemma first_write_creates_the_store_file_witness :
  exists (o : outcome unit) (w' : world) (k : nat) (rest : list request),
    bind (kvPutJSON Scenario.e0 "watchlist" (JArr [])) (fun _ => storeFlush Scenario.e0 "init")
      (Scenario.cold 0 (Scenario.always 404 "Not Found")) = (o, w') /\ (1 <= k <= 3)%nat /\
    sent w' = [] ++
      GithubGet "cf-cache/store.json" ::
        (replicate k (GithubPut "cf-cache/store.json" {[ "watchlist" := JArr [] ]} None "init")
           ++ rest).
Proof.
  apply (first_write_creates_the_store_file Scenario.e0 "watchlist" (JArr []) "init"
           (Scenario.cold 0 (Scenario.always 404 "Not Found"))
           (Response 404 None "Not Found" POther) 10); try reflexivity.
  discriminate.
Defined.

(** ** What a flush that returns has done *)

Lemma storeFlush_clean (e : env) (msg : string) (w w' : world) :
  storeFlush e msg w = (Ok tt, w') -> GH_STORE_DIRTY w' = false.
Proof.
  intros H. destruct (GH_STORE_DIRTY w) eqn:Hd.
  2:{ unfold storeFlush, bind, read in H. rewrite Hd in H. simpl in H.
      injection H as <-. exact Hd. }
  destruct (GH_STORE w) as [local|] eqn:Hs.
  2:{ unfold storeFlush, bind, read, the_document in H. rewrite Hd in H.
      simpl in H. rewrite Hs in H. discriminate. }
  rewrite (storeFlush_dirty e msg w local Hd Hs) in H.
  assert (Hfc : forall r w0, flush_commit r w0 = (Ok tt, w') -> GH_STORE_DIRTY w' = false).
  { intros r w0 Hc. apply flush_commit_run in Hc as (_ & _ & _ & [(_ & Hc & _)|(? & _)]);
      [exact Hc | discriminate]. }
  destruct (ghPut e (storePath e) local (GH_STORE_SHA w) msg w) as [[r|err|] w1];
    try discriminate.
  destruct (negb (gh_ok r) && (gh_status r =? 409)); [|exact (Hfc _ _ H)].
  destruct (ghGet e (storePath e) w1) as [[[rsha remote|st2 txt2]|err|] w2];
    try discriminate; [|exact (Hfc _ _ H)].
  destruct (ghPut e (storePath e) (local ∪ remote) (nonempty rsha) msg
              (with_sha (nonempty rsha) (with_store (Some (local ∪ remote)) w2)))
    as [[r3|err|] w3]; try discriminate.
  exact (Hfc _ _ H).
Qed.

(** X8. When [storeFlush] returns on a dirty store, the last request it
    sent is the PUT of exactly the document that is now in memory, GitHub
    answered that request with a 2xx status, and the dirty flag is
    cleared: what the isolate holds is what the repository holds. *)
Theorem flush_returns_only_after_saving (e : env) (msg : string) (w w' : world) :
  GH_STORE_DIRTY w = true -> storeFlush e msg w = (Ok tt, w') ->
  exists (doc : gmap string json) (sha : option string) (history : list request)
         (a : response),
    let rq := GithubPut (storePath e) doc sha (commit_message msg (storePath e)) in
    GH_STORE w' = Some doc /\ GH_STORE_DIRTY w' = false /\
    sent w' = history ++ [rq] /\ (net w history rq).1 = Answer a /\ ok a = true.
Proof.
  intros Hd Hrun.
  destruct (GH_STORE w) as [local|] eqn:Hs.
  2:{ unfold storeFlush, bind, read, the_document in Hrun. rewrite Hd in Hrun.
      simpl in Hrun. rewrite Hs in Hrun. discriminate. }
  rewrite (storeFlush_dirty e msg w local Hd Hs) in Hrun.
  assert (Hcommit : forall r w1 w0 doc sha,
    ghPut e (storePath e) doc sha msg w0 = (Ok r, w1) -> GH_STORE w0 = Some doc ->
    net w0 = net w -> flush_commit r w1 = (Ok tt, w') ->
    exists doc sha history a,
      let rq := GithubPut (storePath e) doc sha (commit_message msg (storePath e)) in
      GH_STORE w' = Some doc /\ GH_STORE_DIRTY w' = false /\
      sent w' = history ++ [rq] /\ (net w history rq).1 = Answer a /\ ok a = true).
  { intros r w1 w0 doc sha Hput Hdoc Hnet Hfc.
    apply flush_commit_run in Hfc as (Hsent & _ & Hst & [(_ & Hclean & Hok)|(? & _)]);
      [|discriminate].
    destruct (ghPut_ok _ _ _ _ _ _ _ _ Hput Hok) as (history & a & H1 & H2 & H3 & (M1 & _)).
    exists doc, (nonempty sha), history, a. simpl.
    rewrite Hst, M1, Hsent, <- Hnet. auto. }
  destruct (ghPut_run e (storePath e) local (GH_STORE_SHA w) msg w)
    as [[_ Hp]|(_ & r & w1 & k & Hp & _ & (_ & _ & _ & N1) & _)]; rewrite Hp in Hrun;
    [discriminate|].
  destruct r as [r|err|]; try discriminate.
  destruct (negb (gh_ok r) && (gh_status r =? 409)) eqn:H409.
  2:{ exact (Hcommit _ _ _ _ _ Hp Hs eq_refl Hrun). }
  destruct (ghGet_run e (storePath e) w1)
    as [[_ Hg]|(_ & r2 & w2 & k2 & Hg & _ & (_ & _ & _ & N2) & _)]; rewrite Hg in Hrun;
    [discriminate|].
  destruct r2 as [[rsha remote|st2 txt2]|err|]; try discriminate.
  - destruct (ghPut e (storePath e) (local ∪ remote) (nonempty rsha) msg
                (with_sha (nonempty rsha) (with_store (Some (local ∪ remote)) w2)))
      as [[r3|err|] w3] eqn:Hput3; try discriminate.
    refine (Hcommit _ _ _ _ _ Hput3 eq_refl _ Hrun). simpl. congruence.
  - apply flush_commit_run in Hrun as (_ & _ & _ & [(_ & _ & Hok)|(? & _)]); [|discriminate].
    rewrite Hok in H409. discriminate.
Qed.

Lemma flush_returns_only_after_saving_witness :
  exists (doc : gmap string json) (sha : option string) (history : list request)
         (a : response),
    let w := Scenario.unsaved (Scenario.conflict_once Scenario.remote_doc) in
    let w' := snd (storeFlush Scenario.e0 "m" w) in
    let rq := GithubPut (storePath Scenario.e0) doc sha
                (commit_message "m" (storePath Scenario.e0)) in
    GH_STORE w' = Some doc /\ GH_STORE_DIRTY w' = false /\
    sent w' = history ++ [rq] /\ (net w history rq).1 = Answer a /\ ok a = true.
Proof.
  apply (flush_returns_only_after_saving Scenario.e0 "m"
           (Scenario.unsaved (Scenario.conflict_once Scenario.remote_doc))).
  - reflexivity.
  - vm_compute. reflexivity.
Defined.

(** ** Writing and reading keys *)

(** X9. Keys behave as those of a map. What [kvPutJSON] wrote is what
    [kvGetJSON] reads back, with no request and whatever the fall-back
    (a stored [null] is read as [null]); the write marks the store dirty.
    After [kvDelete] the fall-back is read. A key that is written or
    deleted leaves the other keys as they were, and deleting a key that
    is not there changes nothing: the store is not marked dirty. *)
Theorem kv_read_after_write (e : env) (key : string) (w w1 : world) :
  storable key ->
  (forall v fb, kvPutJSON e key v w = (Ok tt, w1) ->
     kvGetJSON e key fb w1 = (Ok v, w1) /\ GH_STORE_DIRTY w1 = true) /\
  (forall fb, kvDelete e key w = (Ok tt, w1) -> kvGetJSON e key fb w1 = (Ok fb, w1)) /\
  (forall v st other fb, GH_STORE w = Some st -> other <> key ->
     kvPutJSON e key v w = (Ok tt, w1) \/ kvDelete e key w = (Ok tt, w1) ->
     kvGetJSON e other fb w1 = (Ok (default fb (st !! other)), w1)) /\
  (forall st, GH_STORE w = Some st -> st !! key = None -> kvDelete e key w = (Ok tt, w)).
Proof.
  intros _.
  assert (Hput : forall v, kvPutJSON e key v w = (Ok tt, w1) ->
    exists st, GH_STORE w1 = Some (<[key:=v]> st) /\ GH_STORE_DIRTY w1 = true).
  { intros v H. unfold kvPutJSON, bind in H.
    destruct (storeLoad e w) as [[[]|err|] w0] eqn:Hl; try discriminate.
    destruct (storeLoad_ok e w w0 Hl) as [st Hst].
    unfold storeSet, bind in H. rewrite (the_store_loaded w0 st Hst) in H.
    unfold update in H. injection H as <-. exists st. split; reflexivity. }
  split; [|split; [|split]].
  - intros v fb H. destruct (Hput v H) as (st & Hst & Hd). split; [|exact Hd].
    rewrite (kvGetJSON_loaded e w1 _ key fb Hst). now rewrite lookup_insert_eq.
  - intros fb H. unfold kvDelete, bind in H.
    destruct (storeLoad e w) as [[[]|err|] w0] eqn:Hl; try discriminate.
    destruct (storeLoad_ok e w w0 Hl) as [st Hst].
    unfold storeDel, bind in H. rewrite (the_store_loaded w0 st Hst) in H.
    destruct (st !! key) as [x|] eqn:Hk.
    + unfold update in H. injection H as <-.
      erewrite kvGetJSON_loaded by reflexivity. now rewrite lookup_delete_eq.
    + injection H as <-. rewrite (kvGetJSON_loaded e _ st key fb Hst). now rewrite Hk.
  - intros v st other fb Hst Hne [H|H].
    + rewrite (kvPutJSON_loaded e key v w st Hst) in H. injection H as <-.
      erewrite kvGetJSON_loaded by reflexivity.
      rewrite lookup_insert_ne by congruence. reflexivity.
    + unfold kvDelete, bind in H. rewrite (storeLoad_loaded e w st Hst) in H.
      unfold storeDel, bind in H. rewrite (the_store_loaded w st Hst) in H.
      destruct (st !! key) as [x|] eqn:Hk.
      * unfold update in H. injection H as <-.
        erewrite kvGetJSON_loaded by reflexivity.
        rewrite lookup_delete_ne by congruence. reflexivity.
      * injection H as <-. apply (kvGetJSON_loaded e w st other fb Hst).
  - intros st Hst Hk. unfold kvDelete, bind. rewrite (storeLoad_loaded e w st Hst).
    unfold storeDel, bind. rewrite (the_store_loaded w st Hst), Hk. reflexivity.
Qed.

Lemma kv_read_after_write_witness :
  let e := Scenario.e0 in
  let key := "watchlist" in
  let w := Scenario.warm ∅ "v1" 0 Scenario.offline in
  let w1 := with_dirty true (with_store (Some {[ "watchlist" := JArr [] ]}) w) in
  (forall v fb, kvPutJSON e key v w = (Ok tt, w1) ->
     kvGetJSON e key fb w1 = (Ok v, w1) /\ GH_STORE_DIRTY w1 = true) /\
  (forall fb, kvDelete e key w = (Ok tt, w1) -> kvGetJSON e key fb w1 = (Ok fb, w1)) /\
  (forall v st other fb, GH_STORE w = Some st -> other <> key ->
     kvPutJSON e key v w = (Ok tt, w1) \/ kvDelete e key w = (Ok tt, w1) ->
     kvGetJSON e other fb w1 = (Ok (default fb (st !! other)), w1)) /\
  (forall st, GH_STORE w = Some st -> st !! key = None -> kvDelete e key w = (Ok tt, w)).
Proof.
  intros e key w w1. apply (kv_read_after_write e key w w1). discriminate.
Defined.

(** ** The cache, written then read *)

(** X10. An entry written by [cachePut] carries the second it was written
    in as [cached_at] (a [cached_at] of its own is overwritten), and
    [cacheGet] with a positive [maxAgeSec] serves it, stamp included, up
    to and including [maxAgeSec] seconds later and not after that. An
    entry written in second 0 of the epoch is never served: its stamp is
    falsy. *)
Theorem cached_entry_is_served_until_it_expires (e : env) (key : string)
    (obj : gmap string json) (maxAge : Z) (w : world) (st : gmap string json) :
  storable key -> GH_STORE w = Some st -> 0 < maxAge ->
  exists w1, cachePut e key obj w = (Ok tt, w1) /\
    forall w2, GH_STORE w2 = GH_STORE w1 ->
      cacheGet e key (Some maxAge) w2 =
        (Ok (if (clock w / 1000 =? 0) || (clock w2 / 1000 - clock w / 1000 >? maxAge)
             then None
             else Some (JObj (<["cached_at" := JNum (clock w / 1000)]> obj))), w2).
Proof.
  intros _ Hst Hpos. eexists. split; [apply (cachePut_loaded e key obj w st Hst)|].
  intros w2 Hw2. simpl in Hw2.
  unfold cacheGet, bind at 1. rewrite (kvGetJSON_loaded e w2 _ key JNull Hw2).
  rewrite lookup_insert_eq. simpl.
  unfold number_field, field. rewrite lookup_insert_eq.
  destruct maxAge as [|p|p]; try lia.
  destruct (clock w / 1000) as [|t|t] eqn:Ht; [reflexivity| |];
    unfold bind, ts, bind, Date_now, read, ret; simpl;
    match goal with |- context [if ?b then _ else _] => destruct b end; reflexivity.
Qed.

Lemma cached_entry_is_served_until_it_expires_witness :
  let w := Scenario.warm ∅ "v1" 5000 Scenario.offline in
  exists w1, cachePut Scenario.e0 "rating:1" {[ "label" := JStr "C1" ]} w = (Ok tt, w1) /\
    forall w2, GH_STORE w2 = GH_STORE w1 ->
      cacheGet Scenario.e0 "rating:1" (Some 86400) w2 =
        (Ok (if (clock w / 1000 =? 0) || (clock w2 / 1000 - clock w / 1000 >? 86400)
             then None
             else Some (JObj (<["cached_at" := JNum (clock w / 1000)]>
                               {[ "label" := JStr "C1" ]}))), w2).
Proof.
  intros w.
  apply (cached_entry_is_served_until_it_expires Scenario.e0 "rating:1"
           {[ "label" := JStr "C1" ]} 86400 w ∅); [discriminate|reflexivity|lia].
Defined.

(** ** Membership checks are remembered *)

(** X11. A member that has no cache entry is looked up at VATSIM, and
    the answer is [true] only when that request, made within the budget,
    is answered in time with status 200. Whatever the answer, it is
    cached: for the next seven days [isValidMember] repeats it without
    sending anything. So a [false] that came from a spent budget, a
    timeout or a failing VATSIM is served for seven days as well. *)
Theorem isValidMember_repeats_its_answer (e : env) (cid : string) (w : world)
    (st : gmap string json) :
  GH_STORE w = Some st -> st !! KV.member cid = None -> 1000 <= clock w ->
  exists (b : bool) (w1 : world),
    isValidMember e cid w = (Ok b, w1) /\
    (b = true <->
       subreqCount w < SUBREQ_BUDGET_PER_TICK /\
       exists a dt, net w (sent w) (VatsimMember cid) = (Answer a, dt) /\
                    dt <= 25000 /\ status a = 200) /\
    forall w2, GH_STORE w2 = GH_STORE w1 ->
      clock w2 / 1000 - clock w1 / 1000 <= TTL.MEMBER_7D ->
      isValidMember e cid w2 = (Ok b, w2).
Proof.
  intros Hst Hmiss Hclock.
  unfold isValidMember at 1. unfold bind at 1.
  assert (Hget : cacheGet e (KV.member cid) (Some TTL.MEMBER_7D) w = (Ok None, w)).
  { unfold cacheGet, bind at 1. rewrite (kvGetJSON_loaded e w st _ JNull Hst), Hmiss.
    reflexivity. }
  rewrite Hget. cbn [mbind option_bind]. unfold bind at 1.
  destruct (trackedFetch_run (VatsimMember cid) w) as (r & w0 & Hr & (M1 & _)).
  rewrite Hr. pose proof Hr as Hr'. rewrite trackedFetch_eq in Hr'.
  set (b := match r with Some r0 => status r0 =? 200 | None => false end).
  assert (Hst0 : GH_STORE w0 = Some st) by congruence.
  unfold bind at 1. rewrite (cachePut_loaded e _ _ w0 st Hst0). unfold ret.
  assert (Hc0 : clock w <= clock w0).
  { destruct (SUBREQ_BUDGET_PER_TICK <=? subreqCount w); [injection Hr' as _ <-; lia|].
    cbv zeta in Hr'. destruct (25000 <? _); injection Hr' as _ <-; simpl; lia. }
  eexists b, _. split; [reflexivity|]. split.
  - subst b. destruct (SUBREQ_BUDGET_PER_TICK <=? subreqCount w) eqn:Hb.
    { injection Hr' as <- _. apply Z.leb_le in Hb. split; [discriminate|]. intros [? _]. lia. }
    apply Z.leb_gt in Hb. cbv zeta in Hr'.
    destruct (net w (sent w) (VatsimMember cid)) as [res dt] eqn:Hnet. simpl in Hr'.
    destruct (25000 <? dt) eqn:Ht.
    { injection Hr' as <- _. apply Z.ltb_lt in Ht. split; [discriminate|].
      intros (_ & a & dt' & [= _ <-] & ? & _). lia. }
    apply Z.ltb_ge in Ht. injection Hr' as <- _. destruct res as [|a]; simpl.
    { split; [discriminate|]. intros (_ & a & dt' & ? & _). discriminate. }
    rewrite Z.eqb_eq. split.
    + intros H200. split; [exact Hb|]. exists a, dt. auto.
    + intros (_ & a' & dt' & [= <- <-] & _ & H200). exact H200.
  - intros w2 Hw2 Hage. simpl in Hw2, Hage.
    unfold isValidMember, bind at 1, cacheGet, bind at 1.
    rewrite (kvGetJSON_loaded e w2 _ _ JNull Hw2), lookup_insert_eq. simpl.
    unfold number_field, field. rewrite lookup_insert_eq.
    assert (Hpos : 0 < clock w0 / 1000) by (apply Z.div_str_pos; lia).
    destruct (clock w0 / 1000) as [|t|t] eqn:Ht; try lia.
    unfold bind at 1, ts, bind at 1, Date_now, read, ret.
    unfold TTL.MEMBER_7D in *.
    destruct (clock w2 / 1000 - Z.pos t >? 7 * 24 * 60 * 60) eqn:Hold.
    { apply Z.gtb_lt in Hold. lia. }
    cbn [mbind option_bind field]. rewrite lookup_insert_ne by discriminate.
    rewrite lookup_singleton_eq. reflexivity.
Qed.

Lemma isValidMember_repeats_its_answer_witness :
  let w := World (Some ∅) None false 120 5000 [] (Scenario.healthy ∅) in
  exists (b : bool) (w1 : world),
    isValidMember Scenario.e0 "1234567" w = (Ok b, w1) /\
    (b = true <->
       subreqCount w < SUBREQ_BUDGET_PER_TICK /\
       exists a dt, net w (sent w) (VatsimMember "1234567") = (Answer a, dt) /\
                    dt <= 25000 /\ status a = 200) /\
    forall w2, GH_STORE w2 = GH_STORE w1 ->
      clock w2 / 1000 - clock w1 / 1000 <= TTL.MEMBER_7D ->
      isValidMember Scenario.e0 "1234567" w2 = (Ok b, w2).
Proof.
  intros w. apply (isValidMember_repeats_its_answer Scenario.e0 "1234567" w ∅);
    [reflexivity | reflexivity | simpl; lia].
Defined.

(** ** The live feed *)

Lemma nonempty_Some (o : option string) (s : string) :
  nonempty o = Some s <-> o = Some s /\ s <> "".
Proof.
  destruct o as [x|]; simpl; [|split; [discriminate|intros [? _]; discriminate]].
  destruct (String.eqb_spec x ""); split.
  - discriminate.
  - intros [[= ->] H]. contradiction.
  - intros [= ->]. auto.
  - intros [[= ->] _]. reflexivity.
Qed.

(** One turn of the loop of [getOnlineMap], seen from a CID. *)
Lemma add_controller_lookup (now : Z) (m m' : gmap string json) (c : json) (cid : string) :
  add_controller now m c = Ok m' ->
  forall info, m' !! cid = Some info <->
    (exists callsign, listed c cid callsign /\ info = info_of callsign c now) \/
    ((forall callsign, ~ listed c cid callsign) /\ m !! cid = Some info).
Proof.
  unfold add_controller, listed. intros Hadd info.
  destruct (cid_of c) as [k| |]; try discriminate.
  destruct (callsign_of c) as [callsign| |]; try discriminate.
  assert (Hskip : (forall cs : string, ~ (Ok k = Ok (Some cid) /\ cid <> "" /\
                      Ok callsign = Ok cs /\ endsWith cs "_ATIS" = false)) ->
                  m' = m ->
                  m' !! cid = Some info <->
                  (exists cs : string, (Ok k = Ok (Some cid) /\ cid <> "" /\
                      Ok callsign = Ok cs /\ endsWith cs "_ATIS" = false) /\
                     info = info_of cs c now) \/
                  ((forall cs : string, ~ (Ok k = Ok (Some cid) /\ cid <> "" /\
                      Ok callsign = Ok cs /\ endsWith cs "_ATIS" = false)) /\
                   m !! cid = Some info)).
  { intros Hno ->. split; [intros H; right; auto|].
    intros [(cs & Hl & _)|[_ H]]; [destruct (Hno cs Hl) | exact H]. }
  destruct (nonempty k) as [k'|] eqn:Hk.
  2:{ apply Hskip; [|now injection Hadd].
      intros cs ([= ->] & Hne & _).
      assert (nonempty (Some cid) = Some cid) by (apply nonempty_Some; auto). congruence. }
  apply nonempty_Some in Hk as [-> Hne].
  destruct (endsWith callsign "_ATIS") eqn:Ha.
  { apply Hskip; [|now injection Hadd]. intros cs (_ & _ & [= <-] & ?). congruence. }
  injection Hadd as <-.
  destruct (decide (k' = cid)) as [->|Hne'].
  - rewrite lookup_insert_eq. split.
    + intros [= <-]. left. exists callsign. auto.
    + intros [(cs & (_ & _ & [= <-] & _) & ->)|[Hn _]]; [reflexivity|].
      destruct (Hn callsign). auto.
  - rewrite lookup_insert_ne by exact Hne'. split.
    + intros H. right. split; [|exact H]. intros cs ([= ?] & _). congruence.
    + intros [(cs & ([= ?] & _) & _)|[_ H]]; [congruence | exact H].
Qed.

(** The loop, seen from a CID: an entry is one the map had or that of a
    controller listed under the CID. *)
Lemma add_controllers_lookup (now : Z) (cs : list json) :
  forall (m m' : gmap string json) (cid : string),
  add_controllers now cs m = Ok m' ->
  (is_Some (m' !! cid) <->
     is_Some (m !! cid) \/ exists c callsign, c ∈ cs /\ listed c cid callsign) /\
  (forall info, m' !! cid = Some info ->
     m !! cid = Some info \/
     exists c callsign, c ∈ cs /\ listed c cid callsign /\ info = info_of callsign c now).
Proof.
  induction cs as [|c cs IH]; intros m m' cid; simpl.
  - intros [= <-]. split; [|auto]. split; [auto|].
    intros [?|(c & ? & Hc & _)]; [assumption|]. now apply elem_of_nil in Hc.
  - destruct (add_controller now m c) as [m1| |] eqn:Hadd; try discriminate.
    intros Hrest. destruct (IH m1 m' cid Hrest) as [IH1 IH2].
    pose proof (add_controller_lookup now m m1 c cid Hadd) as Hone.
    split.
    + rewrite IH1. split.
      * intros [[info Hi]|(c' & cs' & Hc' & Hl)].
        -- apply Hone in Hi as [(callsign & Hl & _)|[_ Hm]]; [|left; eauto].
           right. exists c, callsign. split; [left|exact Hl].
        -- right. exists c', cs'. split; [now right|exact Hl].
      * intros [[info Hm]|(c' & cs' & Hc' & Hl)].
        -- left. destruct (m1 !! cid) as [x|] eqn:Hx; [eauto|]. exfalso.
           unfold add_controller in Hadd.
           destruct (cid_of c) as [k| |]; try discriminate.
           destruct (callsign_of c) as [callsign| |]; try discriminate.
           destruct (nonempty k) as [k'|]; [|injection Hadd as <-; congruence].
           destruct (endsWith callsign "_ATIS"); injection Hadd as <-; [congruence|].
           destruct (decide (k' = cid)) as [->|Hne'].
           ++ rewrite lookup_insert_eq in Hx. discriminate.
           ++ rewrite lookup_insert_ne in Hx by exact Hne'. congruence.
        -- apply elem_of_cons in Hc' as [->|Hc'].
           ++ left. eexists. apply Hone. left. exists cs'. split; [exact Hl|reflexivity].
           ++ right. exists c', cs'. auto.
    + intros info Hi. apply IH2 in Hi as [Hi|(c' & cs' & Hc' & Hl & ->)].
      * apply Hone in Hi as [(callsign & Hl & ->)|[_ Hm]]; [|left; exact Hm].
        right. exists c, callsign. split; [left|auto].
      * right. exists c', cs'. split; [now right|auto].
Qed.

(** The loop gets to its end exactly on well-formed controllers. *)
Lemma add_controllers_returns (now : Z) (cs : list json) :
  forall m : gmap string json,
  (exists m', add_controllers now cs m = Ok m') <-> Forall well_formed cs.
Proof.
  induction cs as [|c cs IH]; intros m; simpl.
  { split; [constructor | eauto]. }
  rewrite Forall_cons. unfold add_controller, well_formed.
  destruct (cid_of c) as [k| |].
  2,3: split; [intros [? ?]; discriminate | intros [[[? ?] _] _]; discriminate].
  destruct (callsign_of c) as [callsign| |].
  2,3: split; [intros [? ?]; discriminate | intros [[_ [? ?]] _]; discriminate].
  assert (Hgo : forall m1, (exists m', add_controllers now cs m1 = Ok m') <->
                  ((exists cid, Ok k = Ok cid) /\ (exists cs0, Ok callsign = Ok cs0)) /\
                  Forall well_formed cs).
  { intros m1. rewrite (IH m1). split; [intros ?; split; [eauto|assumption] | now intros [_ ?]]. }
  destruct (nonempty k) as [k'|]; [|apply Hgo].
  destruct (endsWith callsign "_ATIS"); apply Hgo.
Qed.

Lemma controllers_of_served (v : json) (cs : list json) :
  controllers_of v = Ok cs -> match v with JArr l => l | _ => [] end = cs.
Proof.
  destruct v as [|b|z|s|l|m]; simpl; try congruence.
  - destruct b; simpl; congruence.
  - destruct (negb (z =? 0)); simpl; congruence.
  - destruct (String.eqb s ""); congruence.
Qed.

(** [getOnlineMap] by the feed it gets to read. *)
Lemma getOnlineMap_feed (w : world) :
  exists w1, same_memory w w1 /\
    getOnlineMap w =
      (match feed_body w with
       | Some PNull => Throw (null_has_no "controllers")
       | Some (PFeed v) =>
           match controllers_of v with
           | Ok cs => add_controllers (clock w1 / 1000) cs ∅
           | Throw err => Throw err
           | Beyond => Beyond
           end
       | _ => Ok ∅
       end, w1).
Proof.
  unfold getOnlineMap, feed_body, bind at 1. rewrite trackedFetch_eq.
  destruct (SUBREQ_BUDGET_PER_TICK <=? subreqCount w).
  { exists w. split; [apply same_memory_refl | reflexivity]. }
  cbv zeta. destruct (net w (sent w) VatsimData) as [res dt]. simpl.
  destruct (25000 <? dt) eqn:Ht.
  { apply Z.ltb_lt in Ht.
    assert (Hle : (dt <=? 25000) = false) by (apply Z.leb_gt; lia).
    destruct res as [|a]; rewrite ?Hle; (eexists; split; [|reflexivity]; repeat split). }
  apply Z.ltb_ge in Ht. destruct res as [|a]; simpl.
  { eexists. split; [|reflexivity]. repeat split. }
  destruct (dt <=? 25000) eqn:Hle; [|apply Z.leb_gt in Hle; lia]. simpl.
  destruct (ok a); simpl; [|eexists; split; [|reflexivity]; repeat split].
  unfold bind at 1, ts, bind at 1, Date_now, read, ret.
  destruct (body_json a) as [| | |v|]; try (eexists; split; [|reflexivity]; repeat split).
  unfold bind, lift.
  destruct (controllers_of v) as [cs| |]; eexists; (split; [|reflexivity]); repeat split.
Qed.

(** A controller whose callsign cannot be trimmed ends the loop with its
    [TypeError], once the controllers before it are through. *)
Lemma add_controllers_throws (now : Z) (good rest : list json) (c : json) (err : exn) :
  forall m : gmap string json,
  Forall well_formed good -> (exists cid, cid_of c = Ok cid) -> callsign_of c = Throw err ->
  add_controllers now (good ++ c :: rest) m = Throw err.
Proof.
  intros m Hgood [cid Hcid] Hcall. revert m.
  induction Hgood as [|c' good [[k Hk] [cs Hcs]] _ IH]; intros m; simpl.
  - unfold add_controller. now rewrite Hcid, Hcall.
  - unfold add_controller. rewrite Hk, Hcs.
    destruct (nonempty k) as [k'|]; [|apply IH].
    destruct (endsWith cs "_ATIS"); apply IH.
Qed.

(** X12. What [getOnlineMap] makes of the feed. It returns on every
    feed it can read to the end: one that cannot be had (budget spent,
    request failed or timed out, status not 2xx) or has no [controllers]
    gives the empty map instead of an error. It throws a [TypeError] on a
    2xx answer whose body is the JSON text [null] (there is no
    [data.controllers]), whose [controllers] cannot be iterated, or which
    lists, after well-formed controllers, one whose callsign is neither
    falsy nor a string. The map it returns has an entry for a CID exactly
    when the feed lists a controller with that CID (not the empty one)
    whose trimmed callsign does not end in [_ATIS]; the entry is that
    controller's callsign, frequency and name with the second of the call
    as [last_seen]. ATIS stations never appear. *)
Theorem getOnlineMap_lists_the_controllers (w : world) :
  (readable w -> exists presence w1, getOnlineMap w = (Ok presence, w1)) /\
  (feed_body w = Some PNull ->
     exists w1, getOnlineMap w = (Throw (null_has_no "controllers"), w1)) /\
  (forall (v : json) (err : exn),
     feed_body w = Some (PFeed v) -> controllers_of v = Throw err ->
     exists w1, getOnlineMap w = (Throw err, w1)) /\
  (forall (good rest : list json) (c : json) (err : exn),
     feed_body w = Some (PFeed (JArr (good ++ c :: rest))) ->
     Forall well_formed good -> (exists cid, cid_of c = Ok cid) ->
     callsign_of c = Throw err ->
     exists w1, getOnlineMap w = (Throw err, w1)) /\
  (forall (presence : gmap string json) (w1 : world),
     getOnlineMap w = (Ok presence, w1) ->
     forall cid, storable cid ->
       (is_Some (presence !! cid) <->
          exists c callsign, c ∈ served w /\ listed c cid callsign) /\
       (forall info, presence !! cid = Some info ->
          exists c callsign, c ∈ served w /\ listed c cid callsign /\
            info = info_of callsign c (clock w1 / 1000))).
Proof.
  destruct (getOnlineMap_feed w) as (w1 & _ & Hrun). rewrite Hrun.
  unfold readable, served. split; [|split; [|split; [|split]]].
  - destruct (feed_body w) as [[| | |v|]|]; try solve [intros _; eauto]; [|intros []].
    intros (cs & -> & Hwf).
    apply (add_controllers_returns (clock w1 / 1000) cs ∅) in Hwf as (m' & Hm').
    rewrite Hm'. eauto.
  - intros ->. eauto.
  - intros v err -> ->. eauto.
  - intros good rest c err -> Hgood Hcid Hcall. simpl.
    rewrite (add_controllers_throws _ good rest c err ∅ Hgood Hcid Hcall). eauto.
  - intros presence w1' Hp cid _. injection Hp as Hp <-.
    assert (Hnone : Ok (∅ : gmap string json) = Ok presence ->
              (is_Some (presence !! cid) <->
                 exists c callsign, c ∈ ([] : list json) /\ listed c cid callsign) /\
              (forall info, presence !! cid = Some info ->
                 exists c callsign, c ∈ ([] : list json) /\ listed c cid callsign /\
                   info = info_of callsign c (clock w1 / 1000))).
    { intros [= <-]. rewrite lookup_empty. split.
      - split; [intros [? ?]; discriminate|].
        intros (c & ? & Hc & _). now apply elem_of_nil in Hc.
      - discriminate. }
    destruct (feed_body w) as [[| | |v|]|]; try (now apply Hnone).
    destruct (controllers_of v) as [cs| |] eqn:Hcs; try discriminate.
    rewrite (controllers_of_served v cs Hcs).
    destruct (add_controllers_lookup (clock w1 / 1000) cs ∅ presence cid Hp) as [H1 H2].
    split.
    + rewrite H1. split; [|auto]. intros [[x Hx]|H]; [|exact H].
      rewrite lookup_empty in Hx. discriminate.
    + intros info Hi. apply H2 in Hi as [Hi|Hi]; [|exact Hi].
      rewrite lookup_empty in Hi. discriminate.
Qed.

(** The feed of one controller and one ATIS position gives the map with
    the controller alone; a callsign that is a number stops the loop. *)
Lemma getOnlineMap_lists_the_controllers_witness :
  let w := Scenario.warm Scenario.presence_doc "v1" 1000000 Scenario.feed in
  let odd := JObj (<["cid" := JNum 400]> {[ "callsign" := JNum 7 ]}) in
  let w0 := Scenario.warm Scenario.presence_doc "v1" 1000000
              (fun _ _ => (Answer (Response 200 None ""
                                     (PFeed (JArr [Scenario.sy_app; odd]))), 30)) in
  (exists presence w1, getOnlineMap w = (Ok presence, w1)) /\
  (is_Some (Scenario.presence_now !! "200") <->
     exists c callsign, c ∈ served w /\ listed c "200" callsign) /\
  (exists w1, getOnlineMap w0
     = (Throw (Error ("(c?.callsign || " +:+ empty_literal +:+ ").trim is not a function")),
        w1)).
Proof.
  intros w odd w0.
  destruct (getOnlineMap_lists_the_controllers w) as (Hret & _ & _ & _ & Hmap).
  destruct (getOnlineMap_lists_the_controllers w0) as (_ & _ & _ & Hthrow & _).
  split; [|split].
  - apply Hret. exists [Scenario.sy_app; Scenario.ml_atis]. split; [reflexivity|].
    repeat constructor; eexists; reflexivity.
  - apply (Hmap Scenario.presence_now (getOnlineMap w).2); [vm_compute; reflexivity|].
    discriminate.
  - apply (Hthrow [Scenario.sy_app] [] odd); [reflexivity | | eexists; reflexivity | reflexivity].
    repeat constructor; eexists; reflexivity.
Defined.

(** ** Presence when the feed is empty *)

(** X13. When the feed gives no controllers, be it because nobody is
    online (its [controllers] are the empty array, falsy or missing) or
    because it could not be had (budget spent, request failed or timed
    out, status not 2xx), [runPresence] takes every CID that was recorded
    online for gone offline: each gets [{online: false, last_change: now}]
    with the [last_info] it had, and the store is marked dirty. A failed
    request to VATSIM is not told apart from an empty sky. *)
Theorem empty_feed_marks_everyone_offline (e : env) (w : world)
    (st state : gmap string json) (watch : list json) :
  GH_STORE w = Some st ->
  elements_of (default (JArr []) (st !! KV.WATCHLIST)) = Ok watch ->
  default (JObj ∅) (st !! KV.STATE) = JObj state ->
  no_controllers w ->
  exists w', runPresence e w = (Ok tt, w') /\
    forall cid, storable cid -> was_online state cid = true ->
      GH_STORE_DIRTY w' = true /\
      exists st' state',
        GH_STORE w' = Some st' /\ st' !! KV.STATE = Some (JObj state') /\
        state' !! cid =
          Some (online_record false (clock w' / 1000)
                  (or_empty (field (or_empty (state !! cid)) "last_info"))).
Proof.
  intros Hst Hw Hs Hfeed.
  destruct (getOnlineMap_feed w) as (w1 & _ & Hrun).
  assert (Hnone : getOnlineMap w = (Ok ∅, w1)).
  { rewrite Hrun. unfold no_controllers in Hfeed.
    destruct (feed_body w) as [[| | |v|]|]; try reflexivity; [|destruct Hfeed].
    now rewrite Hfeed. }
  rewrite (runPresence_run e w w1 st state ∅ watch Hst Hw Hs Hnone).
  destruct (presence_loop_spec (clock w1 / 1000) ∅ state) as [Hlook Hch].
  eexists. split; [reflexivity|]. intros cid _ Hon.
  assert (Hchanged : (presence_loop (clock w1 / 1000) ∅ state).2 = true).
  { apply Hch. exists cid. rewrite Hon. unfold is_online. rewrite lookup_empty. discriminate. }
  rewrite Hchanged. split; [reflexivity|].
  eexists _, _. split; [reflexivity|]. split; [apply lookup_insert_eq|].
  rewrite Hlook. unfold transition_of. rewrite lookup_empty.
  unfold was_online in Hon. rewrite Hon. reflexivity.
Qed.

Lemma empty_feed_marks_everyone_offline_witness :
  let w := Scenario.warm Scenario.presence_doc "v1" 1000000 Scenario.offline in
  exists w', runPresence Scenario.e0 w = (Ok tt, w') /\
    forall cid, storable cid ->
      was_online {[ "100" := online_record true 900 (JObj {[ "callsign" := JStr "BN_CTR" ]}) ]}
        cid = true ->
      GH_STORE_DIRTY w' = true /\
      exists st' state',
        GH_STORE w' = Some st' /\ st' !! KV.STATE = Some (JObj state') /\
        state' !! cid =
          Some (online_record false (clock w' / 1000)
                  (or_empty (field (or_empty
                     (({[ "100" := online_record true 900
                                     (JObj {[ "callsign" := JStr "BN_CTR" ]}) ]}
                        : gmap string json) !! cid)) "last_info"))).
Proof.
  intros w.
  apply (empty_feed_marks_everyone_offline Scenario.e0 w Scenario.presence_doc _
           [JStr "100"; JStr "200"]); reflexivity.
Defined.

(** ** Presence and the watchlist *)

Lemma getOnlineMap_with_store (s : option (gmap string json)) (w : world) :
  getOnlineMap (with_store s w)
  = ((getOnlineMap w).1, with_store s (getOnlineMap w).2).
Proof.
  unfold getOnlineMap, bind, ts, bind, Date_now, read, ret, lift, throw.
  rewrite !trackedFetch_eq. simpl.
  destruct (SUBREQ_BUDGET_PER_TICK <=? subreqCount w); [reflexivity|].
  destruct (net w (sent w) VatsimData) as [res dt]. simpl.
  destruct (25000 <? dt); [reflexivity|].
  destruct res as [|a]; [reflexivity|]. simpl.
  destruct (ok a); [|reflexivity]. simpl.
  destruct (body_json a) as [| | |v|]; try reflexivity.
  destruct (controllers_of v) as [cs| |]; reflexivity.
Qed.

(** [runPresence] ends as [getOnlineMap] does when that does not return. *)
Lemma runPresence_fails (e : env) (w w1 : world) (st : gmap string json)
    (watch : list json) (o : outcome (gmap string json)) :
  GH_STORE w = Some st ->
  elements_of (default (JArr []) (st !! KV.WATCHLIST)) = Ok watch ->
  getOnlineMap w = (o, w1) -> (forall presence, o <> Ok presence) ->
  runPresence e w = (match o with Throw err => Throw err | _ => Beyond end, w1).
Proof.
  intros Hst Hw Hp Hno. unfold runPresence. unfold bind at 1.
  rewrite (kvGetJSON_loaded e w st _ _ Hst).
  unfold bind at 1, lift, strings_of. rewrite Hw.
  unfold bind at 1. rewrite (kvGetJSON_loaded e w st _ _ Hst).
  unfold bind at 1. rewrite Hp.
  destruct o as [presence|err|]; [destruct (Hno presence eq_refl) | reflexivity..].
Qed.

(** X14. [runPresence] reads the watchlist and makes no use of it: with
    another watchlist in the store it ends the same way, sends the same
    requests and leaves the same document, watchlist apart. The
    [online_state] it keeps covers every controller of the feed, watched
    or not. *)
Theorem runPresence_ignores_the_watchlist (e : env) (w : world)
    (st state : gmap string json) (watch watch' : list json) :
  GH_STORE w = Some st -> st !! KV.WATCHLIST = Some (JArr watch) ->
  default (JObj ∅) (st !! KV.STATE) = JObj state ->
  let w2 := with_store (Some (<[KV.WATCHLIST := JArr watch']> st)) w in
  (runPresence e w2).1 = (runPresence e w).1 /\
  sent (runPresence e w2).2 = sent (runPresence e w).2 /\
  GH_STORE_DIRTY (runPresence e w2).2 = GH_STORE_DIRTY (runPresence e w).2 /\
  GH_STORE (runPresence e w2).2
    = (fun doc => <[KV.WATCHLIST := JArr watch']> doc) <$> GH_STORE (runPresence e w).2.
Proof.
  intros Hst Hw Hs w2.
  destruct (getOnlineMap w) as [o w1] eqn:Hmap.
  destruct (getOnlineMap_run w) as (o' & w1' & Hrun & (M1 & M2 & M3 & M4) & _).
  rewrite Hmap in Hrun. injection Hrun as <- <-.
  assert (Hmap2 : getOnlineMap w2 = (o, with_store (GH_STORE w2) w1)).
  { unfold w2 at 1. rewrite getOnlineMap_with_store, Hmap. reflexivity. }
  assert (Hstop : (forall presence, o <> Ok presence) ->
    (runPresence e w2).1 = (runPresence e w).1 /\
    sent (runPresence e w2).2 = sent (runPresence e w).2 /\
    GH_STORE_DIRTY (runPresence e w2).2 = GH_STORE_DIRTY (runPresence e w).2 /\
    GH_STORE (runPresence e w2).2
      = (fun doc => <[KV.WATCHLIST := JArr watch']> doc) <$> GH_STORE (runPresence e w).2).
  { intros Hno.
    rewrite (runPresence_fails e w w1 st watch o Hst) by (rewrite ?Hw; auto).
    rewrite (runPresence_fails e w2 (with_store (GH_STORE w2) w1)
               (<[KV.WATCHLIST := JArr watch']> st) watch' o eq_refl);
      [|now rewrite lookup_insert_eq | exact Hmap2 | exact Hno].
    simpl. repeat split. now rewrite M1, Hst. }
  destruct o as [presence|err|]; [|apply Hstop; discriminate..].
  rewrite (runPresence_run e w w1 st state presence watch Hst) by (rewrite ?Hw; auto).
  rewrite (runPresence_run e w2 (with_store (GH_STORE w2) w1)
             (<[KV.WATCHLIST := JArr watch']> st) state presence watch' eq_refl); [|now rewrite lookup_insert_eq
                        |now rewrite lookup_insert_ne by discriminate
                        |exact Hmap2].
  simpl. destruct (presence_loop (clock w1 / 1000) presence state).2; simpl.
  - repeat split. f_equal. apply insert_insert_ne. discriminate.
  - repeat split. now rewrite M1, Hst.
Qed.

Lemma runPresence_ignores_the_watchlist_witness :
  let e := Scenario.e0 in
  let w := Scenario.warm Scenario.presence_doc "v1" 1000000 Scenario.feed in
  let w2 := with_store (Some (<[KV.WATCHLIST := JArr []]> Scenario.presence_doc)) w in
  (runPresence e w2).1 = (runPresence e w).1 /\
  sent (runPresence e w2).2 = sent (runPresence e w).2 /\
  GH_STORE_DIRTY (runPresence e w2).2 = GH_STORE_DIRTY (runPresence e w).2 /\
  GH_STORE (runPresence e w2).2
    = (fun doc => <[KV.WATCHLIST := JArr []]> doc) <$> GH_STORE (runPresence e w).2.
Proof.
  intros e w.
  apply (runPresence_ignores_the_watchlist e w Scenario.presence_doc
           {[ "100" := online_record true 900 (JObj {[ "callsign" := JStr "BN_CTR" ]}) ]}
           [JStr "100"; JStr "200"] []); reflexivity.
Defined.

(** ** What the watchlist endpoints do to the list *)

Lemma length_filter_all {A} (P : A -> Prop) `{forall x, Decision (P x)} (l : list A) :
  length (filter P l) = length l <-> Forall P l.
Proof.
  induction l as [|x l IH]; simpl.
  - split; [constructor|reflexivity].
  - rewrite filter_cons. destruct (decide (P x)) as [Hx|Hx]; simpl.
    + rewrite Forall_cons. split.
      * intros [= Hl]. split; [exact Hx | now apply IH].
      * intros [_ Hl]. f_equal. now apply IH.
    + split.
      * intros Hl. pose proof (length_filter P l). lia.
      * intros Hf. apply Forall_cons in Hf as [? _]. contradiction.
Qed.

(** X15. [removeFromWatchlist] drops every entry whose text is the CID
    given and keeps the others in their order. When there is such an
    entry it answers 200, and by then the shortened list is in memory and
    saved (the store is clean); when there is none it answers 404 and
    nothing at all has changed. *)
Theorem removeFromWatchlist_drops_the_cid (e : env) (cid : string) (w w' : world)
    (st : gmap string json) (l : list json) (resp : api_response) :
  GH_STORE w = Some st -> default (JArr []) (st !! KV.WATCHLIST) = JArr l ->
  removeFromWatchlist cid e w = (Ok resp, w') ->
  (resp = jsonResponse (BError "CID not found on watchlist") 404 e /\ w' = w /\
   Forall (fun x => String_of x <> cid) l) \/
  (resp = jsonResponse BSuccess 200 e /\ Exists (fun x => String_of x = cid) l /\
   GH_STORE_DIRTY w' = false /\
   exists st', GH_STORE w' = Some st' /\
     st' !! KV.WATCHLIST = Some (JArr (filter (fun x => String_of x <> cid) l))).
Proof.
  intros Hst Hl Hrun. unfold removeFromWatchlist in Hrun. unfold bind at 1 in Hrun.
  rewrite (kvGetJSON_loaded e w st _ _ Hst), Hl in Hrun.
  unfold bind at 1, lift in Hrun. simpl elements_of in Hrun. cbv beta iota in Hrun.
  destruct (Nat.eqb (length (filter (fun x => String_of x ≠ cid) l)) (length l)) eqn:Hlen.
  - left. injection Hrun as <- <-. split; [reflexivity|]. split; [reflexivity|].
    apply Nat.eqb_eq in Hlen. now apply length_filter_all in Hlen.
  - right. apply Nat.eqb_neq in Hlen.
    assert (Hex : Exists (fun x => String_of x = cid) l).
    { destruct (Exists_dec (fun x => String_of x = cid) l) as [Hex|Hno]; [exact Hex|].
      exfalso. apply Hlen, length_filter_all.
      apply Forall_forall. intros x Hx Heq. apply Hno. apply Exists_exists. eauto. }
    apply bind_Ok_inv in Hrun as ([] & w1 & Hput & Hrun).
    rewrite (kvPutJSON_loaded e _ _ w st Hst) in Hput. injection Hput as <-.
    apply bind_Ok_inv in Hrun as ([] & w2 & Hflush & Hrun).
    injection Hrun as <- <-.
    split; [reflexivity|]. split; [exact Hex|].
    split; [exact (storeFlush_clean _ _ _ _ Hflush)|].
    eapply storeFlush_keeps in Hflush as (st' & Hst' & Hkeep); [|reflexivity].
    exists st'. split; [exact Hst'|]. apply Hkeep, lookup_insert_eq.
Qed.

Lemma removeFromWatchlist_drops_the_cid_witness :
  let w := Scenario.warm Scenario.watch_doc "v1" 0 (Scenario.healthy Scenario.watch_doc) in
  let r := removeFromWatchlist "123456" Scenario.e0 w in
  let l := [JStr "123456"; JStr "1000000"] in
  (jsonResponse BSuccess 200 Scenario.e0
     = jsonResponse (BError "CID not found on watchlist") 404 Scenario.e0 /\ r.2 = w /\
   Forall (fun x => String_of x <> "123456") l) \/
  (jsonResponse BSuccess 200 Scenario.e0 = jsonResponse BSuccess 200 Scenario.e0 /\
   Exists (fun x => String_of x = "123456") l /\
   GH_STORE_DIRTY r.2 = false /\
   exists st', GH_STORE r.2 = Some st' /\
     st' !! KV.WATCHLIST = Some (JArr (filter (fun x => String_of x <> "123456") l))).
Proof.
  intros w r l.
  apply (removeFromWatchlist_drops_the_cid Scenario.e0 "123456" w r.2 Scenario.watch_doc l);
    reflexivity.
Defined.



(** ** Who is reported online *)

(** X17. [getPresence] answers as the feed lets it. When [getOnlineMap]
    returns, the answer is 200 with one row for each CID that is both on
    the watchlist and in the feed's map, and no other: a controller who
    is not watched is never reported, and no CID is reported twice. Each
    row is made from the feed's entry for its CID. When [getOnlineMap]
    throws, as on a feed whose body is the JSON text [null], the route
    throws with it and the API answers 500 with that error's message. *)
Theorem getPresence_reports_watched_controllers_only (e : env) (w : world)
    (st : gmap string json) (watchSet : list string) :
  GH_STORE w = Some st ->
  strings_of (default (JArr []) (st !! KV.WATCHLIST)) = Ok watchSet ->
  Forall storable watchSet ->
  (forall (presence : gmap string json) (w' : world),
     getOnlineMap w = (Ok presence, w') ->
     exists rows : list online_row,
       getPresence e w = (Ok (jsonResponse (BOnline rows) 200 e), w') /\
       NoDup (o_cid <$> rows) /\
       (forall cid, cid ∈ (o_cid <$> rows) <->
                    cid ∈ watchSet /\ is_Some (presence !! cid)) /\
       (forall row, row ∈ rows ->
          exists info, presence !! o_cid row = Some info /\
                       row = online_row_of (o_cid row) info)) /\
  (forall (err : exn) (w' : world),
     getOnlineMap w = (Throw err, w') ->
     getPresence e w = (Throw err, w') /\
     handleAPI (Request "GET" "/api/presence" None) e w
     = (Ok (jsonResponse (BError (str_or (Some (message err)) "Internal Server Error"))
              500 e), w')).
Proof.
  intros Hst Hw _.
  assert (Hrun : forall o w', getOnlineMap w = (o, w') ->
            getPresence e w =
              (match o with
               | Ok presence =>
                   Ok (jsonResponse (BOnline ((fun kv : string * json => online_row_of kv.1 kv.2)
                         <$> filter (fun kv : string * json => kv.1 ∈ watchSet)
                                    (map_to_list presence))) 200 e)
               | Throw err => Throw err
               | Beyond => Beyond
               end, w')).
  { intros o w' Hmap. unfold getPresence, bind at 1.
    rewrite (kvGetJSON_loaded e w st _ _ Hst).
    unfold bind at 1, lift. rewrite Hw. unfold bind at 1. rewrite Hmap.
    destruct o; reflexivity. }
  split.
  2:{ intros err w' Hmap. rewrite (Hrun _ _ Hmap). split; [reflexivity|].
      unfold handleAPI, try_catch.
      change (dispatch (Request "GET" "/api/presence" None) e) with (getPresence e).
      rewrite (Hrun _ _ Hmap). reflexivity. }
  intros presence w' Hmap. rewrite (Hrun _ _ Hmap).
  eexists. split; [reflexivity|].
  set (kept := filter (fun kv : string * json => kv.1 ∈ watchSet) (map_to_list presence)).
  assert (Hcid : o_cid <$> ((fun kv : string * json => online_row_of kv.1 kv.2) <$> kept)
                 = kept.*1).
  { rewrite <- list_fmap_compose. apply list_fmap_ext. intros _ [k v] _. reflexivity. }
  split; [|split].
  - rewrite Hcid. subst kept.
    assert (Hnd : NoDup (map_to_list presence).*1) by apply NoDup_fst_map_to_list.
    revert Hnd. generalize (map_to_list presence). intros kvs.
    induction kvs as [|[k v] kvs IH]; simpl; intros Hnd; [constructor|].
    apply NoDup_cons in Hnd as [Hk Hnd]. rewrite filter_cons. simpl.
    destruct (decide (k ∈ watchSet)); [|auto]. simpl. constructor; [|auto].
    intros Hin. apply Hk. apply list_elem_of_fmap in Hin as ([k' v'] & -> & Hin).
    apply list_elem_of_filter in Hin as [_ Hin]. apply list_elem_of_fmap. now exists (k', v').
  - intros cid. rewrite Hcid. subst kept. rewrite list_elem_of_fmap. split.
    + intros ([k v] & -> & Hin). apply list_elem_of_filter in Hin as [Hk Hin].
      apply elem_of_map_to_list in Hin. simpl in *. split; [exact Hk | eauto].
    + intros [Hk [v Hv]]. exists (cid, v). split; [reflexivity|].
      apply list_elem_of_filter. split; [exact Hk | now apply elem_of_map_to_list].
  - intros row Hrow. apply list_elem_of_fmap in Hrow as ([k v] & -> & Hin).
    apply list_elem_of_filter in Hin as [_ Hin]. apply elem_of_map_to_list in Hin.
    exists v. split; [exact Hin | reflexivity].
Qed.

Lemma getPresence_reports_watched_controllers_only_witness :
  let w := Scenario.warm Scenario.presence_doc "v1" 1000000 Scenario.feed in
  let w0 := Scenario.warm Scenario.presence_doc "v1" 1000000 Scenario.null_feed in
  (exists rows : list online_row,
     getPresence Scenario.e0 w
     = (Ok (jsonResponse (BOnline rows) 200 Scenario.e0), (getOnlineMap w).2) /\
     NoDup (o_cid <$> rows) /\
     (forall cid, cid ∈ (o_cid <$> rows) <->
                  cid ∈ ["100"; "200"] /\ is_Some (Scenario.presence_now !! cid)) /\
     (forall row, row ∈ rows ->
        exists info, Scenario.presence_now !! o_cid row = Some info /\
                     row = online_row_of (o_cid row) info)) /\
  handleAPI (Request "GET" "/api/presence" None) Scenario.e0 w0
  = (Ok (Reply 500 "https://realleviticus.github.io"
           (BError "Cannot read properties of null (reading 'controllers')")),
     (getOnlineMap w0).2).
Proof.
  intros w w0.
  assert (Hwatch : Forall storable ["100"; "200"]) by (repeat constructor; discriminate).
  split.
  - apply (proj1 (getPresence_reports_watched_controllers_only Scenario.e0 w
                    Scenario.presence_doc ["100"; "200"] eq_refl eq_refl Hwatch)
             Scenario.presence_now (getOnlineMap w).2).
    vm_compute. reflexivity.
  - apply (proj2 (getPresence_reports_watched_controllers_only Scenario.e0 w0
                    Scenario.presence_doc ["100"; "200"] eq_refl eq_refl Hwatch)
             (null_has_no "controllers") (getOnlineMap w0).2).
    vm_compute. reflexivity.
Defined.

(** ** The watchlist as it is listed *)

Lemma getOnlineMap_truthy (w w1 : world) (presence : gmap string json) :
  getOnlineMap w = (Ok presence, w1) ->
  forall cid, truthy_opt (presence !! cid) = bool_decide (is_Some (presence !! cid)).
Proof.
  intros Hmap cid. destruct (getOnlineMap_feed w) as (w1' & _ & Hrun).
  rewrite Hmap in Hrun. injection Hrun as Hp <-.
  destruct (presence !! cid) as [v|] eqn:Hv; simpl.
  - assert (Ht : truthy v = true).
    { destruct (feed_body w) as [[| | |v0|]|];
        try (injection Hp as ->; rewrite lookup_empty in Hv; discriminate);
        [|discriminate].
      destruct (controllers_of v0) as [cs| |]; try discriminate. symmetry in Hp.
      refine (proj2 (add_controller_entries _ cs ∅ presence _ Hp cid v Hv)).
      intros ? ? H. rewrite lookup_empty in H. discriminate. }
    rewrite Ht. first [reflexivity | symmetry; apply bool_decide_eq_true; eauto].
  - first [reflexivity | symmetry; apply bool_decide_eq_false; intros [? ?]; discriminate].
Qed.

Lemma map_each_in_memory {A B} (f : A -> M B) (g : A -> B) (w : world) (l : list A) :
  (forall x, f x w = (Ok (g x), w)) -> map_each l f w = (Ok (g <$> l), w).
Proof.
  intros Hf. induction l as [|x l IH]; simpl; [reflexivity|].
  unfold bind at 1. rewrite Hf. unfold bind at 1. rewrite IH. reflexivity.
Qed.

(** X18. [getWatchlist] answers as the feed lets it. When [getOnlineMap]
    returns, the answer is 200 with one row for each entry of the stored
    watchlist, in the order of the list. A row's [isOnline] says whether
    the feed's map has the CID at the time of the request (the stored
    [online_state] plays no part), and its [addedAt] is the time of the
    request, not the time the CID was added. The feed is fetched once,
    whatever the length of the list. When [getOnlineMap] throws, as on a
    feed whose body is the JSON text [null], the route throws with it and
    the API answers 500 with that error's message. *)
Theorem getWatchlist_lists_every_entry (e : env) (w : world) (st : gmap string json)
    (l : list string) :
  GH_STORE w = Some st ->
  default (JArr []) (st !! KV.WATCHLIST) = JArr (JStr <$> l) ->
  Forall (fun cid => all_digits cid = true) l ->
  (forall (presence : gmap string json) (w' : world),
     getOnlineMap w = (Ok presence, w') ->
     exists users : list user_row,
       getWatchlist e w = (Ok (jsonResponse (BUsers users) 200 e), w') /\
       u_cid <$> users = l /\
       Forall (fun u => u_isOnline u = bool_decide (is_Some (presence !! u_cid u)) /\
                        u_addedAt u = clock w') users) /\
  (forall (err : exn) (w' : world),
     getOnlineMap w = (Throw err, w') ->
     getWatchlist e w = (Throw err, w') /\
     handleAPI (Request "GET" "/api/watchlist" None) e w
     = (Ok (jsonResponse (BError (str_or (Some (message err)) "Internal Server Error"))
              500 e), w')).
Proof.
  intros Hst Hl _. split.
  2:{ intros err w' Hmap.
      assert (Hrun : getWatchlist e w = (Throw err, w')).
      { unfold getWatchlist, bind at 1. rewrite (kvGetJSON_loaded e w st _ _ Hst).
        unfold bind at 1. rewrite Hmap. reflexivity. }
      split; [exact Hrun|]. unfold handleAPI, try_catch.
      change (dispatch (Request "GET" "/api/watchlist" None) e) with (getWatchlist e).
      rewrite Hrun. reflexivity. }
  intros presence w1 Hmap.
  destruct (getOnlineMap_run w) as (o & w1' & Hmap' & (M1 & _) & _).
  rewrite Hmap in Hmap'. injection Hmap' as <- <-.
  assert (Hst1 : GH_STORE w1 = Some st) by congruence.
  unfold getWatchlist, bind at 1. rewrite (kvGetJSON_loaded e w st _ _ Hst), Hl.
  unfold bind at 1. rewrite Hmap. unfold bind at 1, lift. simpl elements_of. cbv iota.
  unfold bind at 1.
  match goal with |- context [map_each _ ?f w1] => set (row := f) end.
  assert (Hrow : exists g : json -> user_row,
    (forall x, row x w1 = (Ok (g x), w1)) /\
    (forall x, u_cid (g x) = String_of x /\
               u_isOnline (g x) = truthy_opt (presence !! String_of x) /\
               u_addedAt (g x) = clock w1)).
  { assert (Hone : forall x, exists u, row x w1 = (Ok u, w1) /\
              u_cid u = String_of x /\
              u_isOnline u = truthy_opt (presence !! String_of x) /\ u_addedAt u = clock w1).
    { intros x. subst row. cbv beta zeta. unfold bind at 1.
      destruct (cacheGet_loaded e (KV.rating (String_of x)) (Some TTL.RATING_24H) w1 st Hst1)
        as [rating Hr]. rewrite Hr.
      unfold bind at 1. rewrite (kvGetJSON_loaded e w1 st _ _ Hst1).
      unfold bind, Date_now, read, ret. eexists. split; [reflexivity|]. repeat split. }
    exists (fun x => UserRow (String_of x)
                       (match row x w1 with (Ok u, _) => u_name u | _ => "" end)
                       (clock w1) (truthy_opt (presence !! String_of x))).
    split; [|intros x; repeat split].
    intros x. destruct (Hone x) as (u & Hu & H1 & H2 & H3). rewrite Hu.
    destruct u as [c n a o]. simpl in *. now subst. }
  destruct Hrow as (g & Hg & Hprops).
  rewrite (map_each_in_memory row g w1 _ Hg). unfold ret.
  eexists. split; [reflexivity|]. split.
  - rewrite <- !list_fmap_compose. rewrite <- (list_fmap_id l) at 2.
    apply list_fmap_ext. intros _ x _. simpl. apply Hprops.
  - apply Forall_fmap, Forall_forall. intros x _. simpl.
    destruct (Hprops x) as (H1 & H2 & H3). rewrite H1, H2. split; [|exact H3].
    apply (getOnlineMap_truthy _ _ _ Hmap).
Qed.

Lemma getWatchlist_lists_every_entry_witness :
  let w := Scenario.warm Scenario.presence_doc "v1" 1000000 Scenario.feed in
  let w0 := Scenario.warm Scenario.presence_doc "v1" 1000000 Scenario.null_feed in
  (exists users : list user_row,
     getWatchlist Scenario.e0 w
     = (Ok (jsonResponse (BUsers users) 200 Scenario.e0), (getOnlineMap w).2) /\
     u_cid <$> users = ["100"; "200"] /\
     Forall (fun u => u_isOnline u
                        = bool_decide (is_Some (Scenario.presence_now !! u_cid u)) /\
                      u_addedAt u = clock (getOnlineMap w).2) users) /\
  handleAPI (Request "GET" "/api/watchlist" None) Scenario.e0 w0
  = (Ok (Reply 500 "https://realleviticus.github.io"
           (BError "Cannot read properties of null (reading 'controllers')")),
     (getOnlineMap w0).2).
Proof.
  intros w w0.
  assert (Hdigits : Forall (fun cid => all_digits cid = true) ["100"; "200"])
    by (repeat constructor).
  split.
  - apply (proj1 (getWatchlist_lists_every_entry Scenario.e0 w Scenario.presence_doc
                    ["100"; "200"] eq_refl eq_refl Hdigits)
             Scenario.presence_now (getOnlineMap w).2).
    vm_compute. reflexivity.
  - apply (proj2 (getWatchlist_lists_every_entry Scenario.e0 w0 Scenario.presence_doc
                    ["100"; "200"] eq_refl eq_refl Hdigits)
             (null_has_no "controllers") (getOnlineMap w0).2).
    vm_compute. reflexivity.
Defined.

(** ** How often the store is swept *)

Lemma for_each_storeDel_frame (l : list string) :
  forall (w : world) (st : gmap string json),
  GH_STORE w = Some st ->
  exists w', for_each l storeDel w = (Ok tt, w') /\
    GH_STORE w' = Some (foldl (fun m k => delete k m) st l) /\
    clock w' = clock w /\ sent w' = sent w /\ subreqCount w' = subreqCount w /\
    net w' = net w /\ GH_STORE_SHA w' = GH_STORE_SHA w.
Proof.
  induction l as [|k l IH]; intros w st Hst.
  - exists w. simpl. auto 10.
  - simpl. unfold bind at 1. unfold storeDel at 1. unfold bind at 1.
    rewrite (the_store_loaded w st Hst).
    destruct (st !! k) as [v|] eqn:Hk.
    + unfold bind, update. cbv beta.
      destruct (IH (with_dirty true (with_store (Some (delete k st)) w)) (delete k st) eq_refl)
        as (w' & Hrun & Hst' & Hc).
      exists w'. rewrite Hrun. auto.
    + unfold ret. destruct (IH w st Hst) as (w' & Hrun & Hst' & Hc).
      exists w'. rewrite Hrun. rewrite (delete_id st k Hk). auto.
Qed.

(** X19. [maybeCleanupStore] sweeps at most once in six hours. While
    [_last_cleanup] (0 when absent) is less than 21600 seconds in the
    past, the call changes nothing. Otherwise it sweeps: it sends nothing,
    stamps [_last_cleanup] with the current second and marks the store
    dirty, whether or not it found anything to delete; and a second call
    right after changes nothing. *)
Theorem cleanup_sweeps_once_in_six_hours (e : env) (w : world) (st : gmap string json)
    (last : Z) :
  GH_STORE w = Some st ->
  default (JNum 0) (st !! STORE_CLEANUP_KEY) = JNum last ->
  let now := clock w / 1000 in
  (now - last < STORE_CLEANUP_INTERVAL -> maybeCleanupStore e w = (Ok tt, w)) /\
  (STORE_CLEANUP_INTERVAL <= now - last ->
   exists (w' : world) (st' : gmap string json),
     maybeCleanupStore e w = (Ok tt, w') /\
     GH_STORE w' = Some st' /\ st' !! STORE_CLEANUP_KEY = Some (JNum now) /\
     GH_STORE_DIRTY w' = true /\ sent w' = sent w /\
     maybeCleanupStore e w' = (Ok tt, w')).
Proof.
  intros Hst Hlast now.
  assert (Hhead : forall w0 st0 last0, GH_STORE w0 = Some st0 ->
    default (JNum 0) (st0 !! STORE_CLEANUP_KEY) = JNum last0 ->
    maybeCleanupStore e w0 =
      if clock w0 / 1000 - last0 <? STORE_CLEANUP_INTERVAL then (Ok tt, w0)
      else (for_each (keysToDelete (clock w0 / 1000) st0) storeDel ;;
            storeSet STORE_CLEANUP_KEY (JNum (clock w0 / 1000))) w0).
  { intros w0 st0 last0 H0 Hl0. unfold maybeCleanupStore. unfold bind at 1.
    rewrite (storeLoad_loaded e w0 st0 H0). unfold bind at 1, storeGet, bind at 1.
    rewrite (the_store_loaded w0 st0 H0). unfold ret at 1. rewrite Hl0.
    unfold bind at 1, ts, bind at 1, Date_now, read, ret.
    destruct (clock w0 / 1000 - last0 <? STORE_CLEANUP_INTERVAL); [reflexivity|].
    unfold bind at 1. rewrite (the_store_loaded w0 st0 H0). reflexivity. }
  split.
  - intros Hrecent. rewrite (Hhead w st last Hst Hlast).
    apply Z.ltb_lt in Hrecent. fold now. now rewrite Hrecent.
  - intros Hdue. rewrite (Hhead w st last Hst Hlast). fold now.
    apply Z.ltb_ge in Hdue. rewrite Hdue.
    destruct (for_each_storeDel_frame (keysToDelete now st) w st Hst)
      as (w1 & Hrun & Hst1 & Hc1 & Hs1 & _).
    unfold bind at 1. rewrite Hrun. unfold storeSet, bind at 1.
    rewrite (the_store_loaded w1 _ Hst1). unfold bind, update. cbv beta.
    eexists _, _. split; [reflexivity|]. split; [reflexivity|].
    split; [apply lookup_insert_eq|]. split; [reflexivity|]. split; [exact Hs1|].
    erewrite Hhead; [|reflexivity|rewrite lookup_insert_eq; reflexivity].
    simpl. rewrite Hc1. fold now. rewrite Z.sub_diag. reflexivity.
Qed.

Lemma cleanup_sweeps_once_in_six_hours_witness :
  let w := Scenario.warm Scenario.aged_doc "v1" 1000000000 Scenario.offline in
  let now := clock w / 1000 in
  (now - 0 < STORE_CLEANUP_INTERVAL -> maybeCleanupStore Scenario.e0 w = (Ok tt, w)) /\
  (STORE_CLEANUP_INTERVAL <= now - 0 ->
   exists (w' : world) (st' : gmap string json),
     maybeCleanupStore Scenario.e0 w = (Ok tt, w') /\
     GH_STORE w' = Some st' /\ st' !! STORE_CLEANUP_KEY = Some (JNum now) /\
     GH_STORE_DIRTY w' = true /\ sent w' = sent w /\
     maybeCleanupStore Scenario.e0 w' = (Ok tt, w')).
Proof.
  intros w.
  apply (cleanup_sweeps_once_in_six_hours Scenario.e0 w Scenario.aged_doc 0); reflexivity.
Defined.

(** ** A stored job and the presence tracker *)

Lemma holds_memory (key : string) (v : json) (w w' : world) :
  GH_STORE w' = GH_STORE w -> holds key v w w'.
Proof. intros H (st & Hst & Hk). exists st. split; [congruence|exact Hk]. Qed.

Lemma holds_storeLoad (key : string) (v : json) (e : env) : keeps (holds key v) (storeLoad e).
Proof.
  intros w o w' Hrun (st & Hst & Hk). rewrite (storeLoad_loaded e w st Hst) in Hrun.
  injection Hrun as _ <-. eauto.
Qed.

Lemma holds_storeSet (key : string) (v : json) (key' : string) (v' : json) :
  key' <> key -> keeps (holds key v) (storeSet key' v').
Proof.
  intros Hne w o w' Hrun (st & Hst & Hk). unfold storeSet, bind in Hrun.
  rewrite (the_store_loaded w st Hst) in Hrun. unfold update in Hrun. injection Hrun as _ <-.
  eexists. split; [reflexivity|]. now rewrite lookup_insert_ne.
Qed.

Lemma holds_storeFlush (key : string) (v : json) (e : env) (msg : string) :
  keeps (holds key v) (storeFlush e msg).
Proof.
  intros w o w' Hrun (st & Hst & Hk).
  destruct (storeFlush_keeps e msg w w' o st Hst Hrun) as (st' & Hst' & Hkeep). eauto.
Qed.

#[local] Hint Resolve holds_storeLoad holds_storeFlush : frame.
#[local] Hint Extern 1 (keeps (holds _ _) (storeSet _ _)) =>
  apply holds_storeSet; solve [discriminate | apply Q_AUTO_not_job] : frame.

Lemma holds_maybeStartQuarterlyVisiting (v : json) (e : env) :
  keeps (holds KV.JOB v) (maybeStartQuarterlyVisiting e).
Proof. unfold maybeStartQuarterlyVisiting, kvGetJSON, kvPutJSON. auto 30 with frame. Qed.

Lemma sends_storeLoad (P : request -> Prop) (e : env) :
  (forall path, P (GithubGet path)) -> keeps (sends P) (storeLoad e).
Proof.
  intros HP. unfold storeLoad.
  apply (keeps_bind (sends P)); [auto with frame|]. intros [st|]; [auto with frame|].
  apply (keeps_bind (sends P)); [apply sends_ghGet, HP|]. auto 10 with frame.
Qed.

Lemma sends_storeFlush (P : request -> Prop) (e : env) (msg : string) :
  (forall rq, is_github rq = true -> P rq) -> keeps (sends P) (storeFlush e msg).
Proof.
  intros HP. unfold storeFlush, flush_commit.
  assert (Hget : forall path, keeps (sends P) (ghGet e path)).
  { intros path. apply sends_ghGet, HP. reflexivity. }
  assert (Hput : forall path obj sha m, keeps (sends P) (ghPut e path obj sha m)).
  { intros path obj sha m. apply sends_ghPut, HP. reflexivity. }
  auto 30 with frame.
Qed.

Lemma sends_maybeStartQuarterlyVisiting (P : request -> Prop) (e : env) :
  (forall path, P (GithubGet path)) -> keeps (sends P) (maybeStartQuarterlyVisiting e).
Proof.
  intros HP. pose proof (sends_storeLoad P e HP).
  unfold maybeStartQuarterlyVisiting, kvGetJSON, kvPutJSON, storeSet. auto 30 with frame.
Qed.

(** [maybeCleanupStore] once the document is in memory: it sends
    nothing, and what it does not sweep stays. *)
Lemma maybeCleanupStore_in_memory (e : env) (w : world) (st : gmap string json) :
  GH_STORE w = Some st ->
  exists (r : outcome unit) (w1 : world) (st1 : gmap string json),
    maybeCleanupStore e w = (r, w1) /\ (r = Ok tt \/ r = Beyond) /\
    GH_STORE w1 = Some st1 /\ sent w1 = sent w /\ clock w1 = clock w /\
    forall key v, st !! key = Some v -> key <> STORE_CLEANUP_KEY ->
      sweeps (clock w / 1000) key v = false -> st1 !! key = Some v.
Proof.
  intros Hst. unfold maybeCleanupStore. unfold bind at 1.
  rewrite (storeLoad_loaded e w st Hst). unfold bind at 1, storeGet, bind at 1.
  rewrite (the_store_loaded w st Hst). unfold ret at 1.
  unfold bind at 1, ts, bind at 1, Date_now, read, ret.
  destruct (default (JNum 0) (st !! STORE_CLEANUP_KEY)) as [| |last| | |];
    try (eexists _, w, st; split; [reflexivity|]; repeat split; auto).
  destruct (clock w / 1000 - last <? STORE_CLEANUP_INTERVAL).
  { eexists _, w, st. split; [reflexivity|]. repeat split; auto. }
  unfold bind at 1. rewrite (the_store_loaded w st Hst).
  destruct (for_each_storeDel_frame (keysToDelete (clock w / 1000) st) w st Hst)
    as (w1 & Hrun & Hst1 & Hc1 & Hs1 & _).
  unfold bind at 1. rewrite Hrun. unfold storeSet, bind at 1.
  rewrite (the_store_loaded w1 _ Hst1). unfold bind, update. cbv beta.
  eexists _, _, _. split; [reflexivity|]. split; [now left|]. split; [reflexivity|].
  split; [exact Hs1|]. split; [exact Hc1|].
  intros key v Hk Hne Hsw. rewrite lookup_insert_ne by congruence.
  rewrite lookup_foldl_delete.
  destruct (decide (key ∈ keysToDelete (clock w / 1000) st)) as [Hin|_]; [|exact Hk].
  apply elem_of_keysToDelete in Hin as (v' & Hv' & Hsw'). congruence.
Qed.

(** X20. While the store holds a job with CIDs and a cursor below its
    total, a scheduled tick does not look at the live feed: whatever it
    sends goes to GitHub, none of it to VATSIM. [tickAudit] does not
    advance the job, and the job is still in memory, as it was, when the
    tick is over: the next tick skips the presence run as well. *)
Theorem active_job_suspends_presence (e : env) (w : world) (st : gmap string json)
    (job : json) :
  GH_STORE w = Some st -> st !! KV.JOB = Some job -> job_active job = Some true ->
  number_field job "cached_at" = None -> number_field job "expiresAt" = None ->
  let w' := (handleScheduled e w).2 in
  sends (fun rq => is_github rq = true) w w' /\
  exists st', GH_STORE w' = Some st' /\ st' !! KV.JOB = Some job.
Proof.
  intros Hst Hjob Hactive Hc Hx w'.
  set (tail := fun r : outcome unit =>
         try_finally (lift r ;; maybeStartQuarterlyVisiting e)
                     (swallow (storeFlush e "bot: scheduled flush"))).
  assert (Htail : forall r, keeps (sends (fun rq => is_github rq = true)) (tail r) /\
                            keeps (holds KV.JOB job) (tail r)).
  { intros r. subst tail. cbv beta. split.
    - apply (keeps_try_finally (sends _)).
      + apply (keeps_bind (sends _)); [auto with frame|]. intros _.
        apply sends_maybeStartQuarterlyVisiting. reflexivity.
      + unfold swallow. apply (keeps_try_catch (sends _)); [|auto with frame].
        apply sends_storeFlush. auto.
    - apply (keeps_try_finally (holds _ _)).
      + apply (keeps_bind (holds _ _)); [auto with frame|]. intros _.
        apply holds_maybeStartQuarterlyVisiting.
      + unfold swallow. auto with frame. }
  destruct (maybeCleanupStore_in_memory e w st Hst)
    as (r1 & w1 & st1 & Hclean & Hr1 & Hst1 & Hs1 & _ & Hkept).
  assert (Hjob1 : st1 !! KV.JOB = Some job).
  { apply Hkept; [exact Hjob | discriminate | now apply unstamped_not_swept]. }
  assert (Hrun : handleScheduled e w = tail r1 w1).
  { unfold handleScheduled, bind at 1, Date_now, read. subst tail. cbv beta.
    unfold try_finally. f_equal.
    unfold bind at 1. rewrite Hclean. unfold bind at 2, lift.
    destruct Hr1 as [-> | ->]; [|reflexivity].
    unfold bind at 1, tickAudit, bind at 1. rewrite (kvGetJSON_loaded e w1 st1 _ _ Hst1).
    rewrite Hjob1. change (default JNull (Some job)) with job.
    assert (Htick : (if negb (truthy job) || negb (has_cids job) then ret tt else ret tt) w1
                    = (Ok tt, w1)) by (destruct (negb (truthy job) || negb (has_cids job)); reflexivity).
    rewrite Htick. unfold bind at 1. rewrite (kvGetJSON_loaded e w1 st1 _ _ Hst1), Hjob1.
    change (default JNull (Some job)) with job. rewrite Hactive. reflexivity. }
  subst w'. rewrite Hrun.
  destruct (tail r1 w1) as [o w2] eqn:Et. destruct (Htail r1) as [Hsend Hhold]. simpl. split.
  - destruct (Hsend _ _ _ Et) as (l & Hl & Hf). exists l. split; [congruence|exact Hf].
  - apply (Hhold _ _ _ Et). eauto.
Qed.

Lemma active_job_suspends_presence_witness :
  let job := JObj (<["cids" := JArr [JStr "1234567"]]>
                   (<["cursor" := JNum 0]> {[ "total" := JNum 1 ]})) in
  let st : gmap string json := {[ "audit:job" := job ]} in
  let w := Scenario.warm st "v1" 1000000 Scenario.feed in
  let w' := (handleScheduled Scenario.e0 w).2 in
  sends (fun rq => is_github rq = true) w w' /\
  exists st', GH_STORE w' = Some st' /\ st' !! KV.JOB = Some job.
Proof.
  intros job st w.
  apply (active_job_suspends_presence Scenario.e0 w st job); reflexivity.
Defined.

(** ** The client and the routes *)

(** X21. Every call of the API client but one reaches the handler it is
    meant for: the seven routes of [handleAPI] are those the client uses
    for the watchlist, the two audit reports, the presence list and the
    statistics. [runAudit] posts to [/api/audit/run], which is no route:
    the worker answers 404 [Not Found] without reading the store or
    sending anything. *)
Theorem client_calls_and_routes (e : env) :
  dispatch Client.getWatchlist e = getWatchlist e /\
  (forall cid, dispatch (Client.addToWatchlist cid) e
               = addToWatchlist (Client.addToWatchlist cid) e) /\
  (forall cid rq, Client.removeFromWatchlist cid = Some rq ->
     dispatch rq e = removeFromWatchlist (String_of cid) e) /\
  dispatch Client.getVisitingAudit e = getAudit e "visiting" /\
  dispatch Client.getLocalAudit e = getAudit e "local" /\
  dispatch Client.getPresence e = getPresence e /\
  dispatch Client.getStats e = getStats e /\
  (forall type cid w,
     handleAPI (Client.runAudit type cid) e w
     = (Ok (jsonResponse (BError "Not Found") 404 e), w)).
Proof.
  repeat split.
  intros cid rq. unfold Client.removeFromWatchlist.
  destruct (test_digits (String_of cid)) eqn:Hd; [|discriminate].
  intros [= <-]. unfold dispatch, Client.request. cbn [pathname method].
  assert (Hp : watchlist_cid_of ("/api" +:+ "/watchlist/" +:+ String_of cid)
               = Some (String_of cid)).
  { change ("/api" +:+ "/watchlist/" +:+ String_of cid)
      with ("/api/watchlist/" +:+ String_of cid).
    rewrite watchlist_cid_of_path, Hd. reflexivity. }
  unfold is_delete_path. rewrite Hp.
  assert (Hne : String.eqb ("/api" +:+ "/watchlist/" +:+ String_of cid) "/api/watchlist" = false).
  { apply String.eqb_neq. cbv [String.append]. discriminate. }
  rewrite Hne. reflexivity.
Qed.

(** ** The add form and the worker *)

(** Reversal and trimming of strings. *)

Lemma string_append_nil_l (s : string) : "" +:+ s = s.
Proof. reflexivity. Qed.

Lemma string_append_assoc (a b c : string) : (a +:+ b) +:+ c = a +:+ (b +:+ c).
Proof. induction a as [|x a IH]; [reflexivity|]. rewrite !append_cons. now rewrite IH. Qed.

Lemma rev_app_append (s acc : string) : String.rev_app s acc = String.rev s +:+ acc.
Proof.
  unfold String.rev. revert acc. induction s as [|x s IH]; intros acc; [reflexivity|].
  simpl. rewrite (IH (String x acc)), (IH (String x "")), string_append_assoc.
  now rewrite append_cons.
Qed.

Lemma string_rev_append (a b : string) : String.rev (a +:+ b) = String.rev b +:+ String.rev a.
Proof.
  induction a as [|x a IH].
  - rewrite string_append_nil_l. unfold String.rev at 3. simpl.
    induction (String.rev b) as [|y r IHr]; [reflexivity|]. now rewrite append_cons, <- IHr.
  - rewrite append_cons. unfold String.rev at 1 3. simpl.
    rewrite !rev_app_append, IH. now rewrite string_append_assoc.
Qed.

Lemma string_rev_rev (s : string) : String.rev (String.rev s) = s.
Proof.
  induction s as [|x s IH]; [reflexivity|].
  unfold String.rev at 2. simpl. rewrite rev_app_append, string_rev_append, IH. reflexivity.
Qed.

Lemma trim_start_split (s : string) : exists sp, s = sp +:+ trim_start s.
Proof.
  induction s as [|c s [sp IH]]; [now exists ""|]. simpl.
  destruct (Ascii.is_space c).
  - exists (String c sp). now rewrite append_cons, <- IH.
  - now exists "".
Qed.

Lemma trim_start_fixed (s : string) :
  match s with String c _ => Ascii.is_space c = false | EmptyString => True end ->
  trim_start s = s.
Proof. destruct s as [|c s]; [reflexivity|]. simpl. now intros ->. Qed.

Lemma trim_start_head (s : string) :
  match trim_start s with String c _ => Ascii.is_space c = false | EmptyString => True end.
Proof.
  induction s as [|c s IH]; [exact I|]. simpl.
  destruct (Ascii.is_space c) eqn:Hc; [exact IH | exact Hc].
Qed.

(** [s.trim().trim()] is [s.trim()]. *)
Lemma trim_idemp (s : string) : trim (trim s) = trim s.
Proof.
  unfold trim. set (u := trim_start s). set (t := String.rev (trim_start (String.rev u))).
  assert (Ht : trim_start t = t).
  { apply trim_start_fixed.
    destruct (trim_start_split (String.rev u)) as [sp Hsp].
    assert (Hu : u = t +:+ String.rev sp).
    { rewrite <- (string_rev_rev u), Hsp at 1. now rewrite string_rev_append. }
    pose proof (trim_start_head s) as Hhead. fold u in Hhead.
    destruct t as [|c r]; [exact I|]. rewrite Hu, append_cons in Hhead. exact Hhead. }
  rewrite Ht. subst t. rewrite string_rev_rev.
  rewrite (trim_start_fixed _ (trim_start_head (String.rev u))). reflexivity.
Qed.

Lemma strip_digits_id (s : string) : all_digits s = true -> strip_non_digits s = s.
Proof.
  induction s as [|c s IH]; [reflexivity|]. cbn [all_digits strip_non_digits].
  intros [Hc Hs]%andb_prop. rewrite Hc, IH by exact Hs. reflexivity.
Qed.

(** X22. A CID the add form lets through is one the worker accepts:
    the request carries the trimmed text as a string, three to ten
    digits, so [canonicalCID] neither throws nor gives [null], and
    [addToWatchlist] does not answer 400. What the worker goes on with is
    that text without its leading zeros, which need not be what was
    typed. *)
Theorem a_cid_the_form_accepts_is_canonicalised (value : string) (rq : api_request) :
  Pages.submit value = Some rq ->
  rq = Client.addToWatchlist (JStr (trim value)) /\
  body_cid (body rq) = Ok (Some (JStr (trim value))) /\
  canonicalCID (Some (JStr (trim value)))
    = Ok (Some (leading_zeros_stripped (trim value))) /\
  canonical_cid 1 (leading_zeros_stripped (trim value)) /\
  forall e w resp w', addToWatchlist rq e w = (Ok resp, w') -> code resp <> 400.
Proof.
  unfold Pages.submit, Pages.isValidCID. cbn [String_of].
  destruct (test_3_10_digits (trim (trim value))) eqn:Hv; [|discriminate].
  intros [= <-].
  rewrite trim_idemp in Hv.
  assert (Hd : all_digits (trim value) = true).
  { unfold test_3_10_digits in Hv. now apply andb_prop in Hv as [[? _]%andb_prop _]. }
  pose proof Hv as Hv3.
  assert (Hcan : canonicalCID (Some (JStr (trim value)))
                 = Ok (Some (leading_zeros_stripped (trim value)))).
  { rewrite canonicalCID_string, (strip_digits_id _ Hd), Hv3. reflexivity. }
  split; [reflexivity|]. split; [reflexivity|]. split; [exact Hcan|].
  split; [exact (canonicalCID_output _ _ Hcan)|].
  intros e w resp w' Hrun H400.
  apply (addToWatchlist_400 _ _ _ _ _ Hrun) in H400 as (raw & Hraw & Hnone).
  cbn in Hraw. injection Hraw as <-. rewrite lookup_singleton_eq in Hnone. congruence.
Qed.

Lemma a_cid_the_form_accepts_is_canonicalised_witness :
  let rq := Client.addToWatchlist (JStr "007") in
  rq = Client.addToWatchlist (JStr (trim " 007 ")) /\
  body_cid (body rq) = Ok (Some (JStr (trim " 007 "))) /\
  canonicalCID (Some (JStr (trim " 007 ")))
    = Ok (Some (leading_zeros_stripped (trim " 007 "))) /\
  canonical_cid 1 (leading_zeros_stripped (trim " 007 ")) /\
  forall e w resp w', addToWatchlist rq e w = (Ok resp, w') -> code resp <> 400.
Proof.
  intros rq. apply (a_cid_the_form_accepts_is_canonicalised " 007 " rq). reflexivity.
Defined.

(** ** A tick without the store *)

Lemma ghGet_unreachable (e : env) (path : string) (w : world) :
  subreqCount w < SUBREQ_BUDGET_PER_TICK ->
  (forall history, (net w history (GithubGet path)).1 = NetworkError) ->
  exists w', ghGet e path w = (Ok (GhFail 0 (Some "github fetch failed")), w') /\
    sent w' = sent w ++ replicate 3 (GithubGet path) /\ same_memory w w'.
Proof.
  intros Hb Hdown. apply Z.leb_gt in Hb.
  unfold ghGet, budget_check, ghFetch, bind, read, update, throw, ret. cbv beta. rewrite Hb.
  set (w0 := with_subreq (subreqCount w + 1) w).
  destruct (ghFetch_loop_attempts (GithubGet path) 3 700 w0 (Nat.lt_0_succ 2))
    as (w1 & k & Hrun & Hk & Hs & _ & _ & Hearly).
  cbv zeta in Hrun, Hearly.
  change (net w0) with (net w) in Hrun, Hearly. change (sent w0) with (sent w) in Hrun, Hs, Hearly.
  rewrite Hdown in Hrun, Hearly.
  assert (k = 3%nat) as ->.
  { destruct (decide (k < 3)%nat) as [Hlt|?]; [|lia]. specialize (Hearly Hlt). discriminate. }
  destruct (ghFetch_loop_run (GithubGet path) 3 700 w0) as (r0 & w0' & k0 & Hrun0 & Hmem & _).
  rewrite Hrun in Hrun0. injection Hrun0 as _ <-.
  rewrite Hrun. simpl. exists w1. split; [reflexivity|]. split; [exact Hs|exact Hmem].
Qed.

(** X23. On a fresh isolate, when GitHub cannot be reached (every
    attempt to fetch [store.json] ends in a network error), the scheduled
    tick gives up: it tries the GET three times, sends nothing else, and
    fails with [GitHub GET failed 0]. The store is still not loaded, so
    the next tick starts over. *)
Theorem tick_fails_when_the_store_is_unreachable (e : env) (w : world) :
  GH_STORE w = None -> GH_STORE_DIRTY w = false ->
  (forall history, (net w history (GithubGet (storePath e))).1 = NetworkError) ->
  exists w', scheduled e w = (Throw (Error "GitHub GET failed 0"), w') /\
    sent w' = sent w ++ replicate 3 (GithubGet (storePath e)) /\
    GH_STORE w' = None.
Proof.
  intros Hst Hd Hdown.
  destruct (ghGet_unreachable e (storePath e) (with_subreq 0 w)) as (w1 & Hget & Hs & M1 & _ & M3 & _).
  { simpl. unfold SUBREQ_BUDGET_PER_TICK. lia. }
  { exact Hdown. }
  simpl in Hs, M1, M3.
  assert (Hload : storeLoad e (with_subreq 0 w) = (Throw (Error "GitHub GET failed 0"), w1)).
  { unfold storeLoad, bind at 1, read. simpl. rewrite Hst. unfold bind. rewrite Hget.
    reflexivity. }
  exists w1. split; [|split; [exact Hs | congruence]].
  unfold scheduled, bind at 1, resetBudgets, update.
  unfold handleScheduled, bind at 1, Date_now, read, try_finally.
  unfold bind at 1, maybeCleanupStore, bind at 1. rewrite Hload.
  unfold swallow, try_catch, storeFlush, bind, read. rewrite M3, Hd. reflexivity.
Qed.

Lemma tick_fails_when_the_store_is_unreachable_witness :
  exists w', scheduled Scenario.e0 (Scenario.cold 0 Scenario.offline)
             = (Throw (Error "GitHub GET failed 0"), w') /\
    sent w' = [] ++ replicate 3 (GithubGet (storePath Scenario.e0)) /\
    GH_STORE w' = None.
Proof.
  apply (tick_fails_when_the_store_is_unreachable Scenario.e0 (Scenario.cold 0 Scenario.offline));
    reflexivity.
Defined.

(** ** Adding and removing *)

Lemma numeric_lt_asym (a b : string) : numeric_lt a b -> numeric_lt b a -> a = b.
Proof.
  intros (x & y & Hx & Hy & Hlt) (y' & x' & Hy' & Hx' & Hlt').
  rewrite Hx in Hx'. rewrite Hy in Hy'. injection Hx' as <-. injection Hy' as <-. lia.
Qed.

Lemma filter_absent (cid : string) (l : list string) :
  cid ∉ l -> filter (fun s => s ≠ cid) l = l.
Proof.
  intros Hn. induction l as [|s l IH]; [reflexivity|].
  rewrite filter_cons. destruct (decide (s ≠ cid)) as [_|He].
  - rewrite IH; [reflexivity|]. intros Hin. apply Hn. now right.
  - exfalso. apply Hn. apply dec_stable in He. subst. left.
Qed.

(** Taking the new CID out of the sorted list gives the list back. *)
Lemma filter_undoes_insert (cid : string) (l l' : list string) :
  StronglySorted numeric_lt l -> StronglySorted numeric_lt l' ->
  cid ∉ l -> l' ≡ₚ l ++ [cid] -> filter (fun s => s ≠ cid) l' = l.
Proof.
  intros Hs Hs' Hn Hp.
  apply (StronglySorted_unique_strong numeric_lt).
  - intros x y _ _. apply numeric_lt_asym.
  - now apply StronglySorted_filter.
  - exact Hs.
  - rewrite Hp, filter_app, (filter_absent cid l Hn), filter_cons, filter_nil.
    destruct (decide (cid ≠ cid)) as [Hc|_]; [contradiction|]. now rewrite app_nil_r.
Qed.

(** X24. Removing a CID undoes adding it. On a watchlist of canonical
    CIDs in order, when [addToWatchlist] has answered 200 for a CID and
    [removeFromWatchlist] is then called with the CID of that answer and
    returns, it answers 200, the watchlist in memory is again the one
    from before the addition, entry for entry and in the same order, and
    it has been saved (the store is clean). *)
Theorem remove_undoes_add (e : env) (request : api_request) (w w1 w2 : world)
    (st : gmap string json) (resp resp2 : api_response) (cid : string) (t : Z) :
  GH_STORE w = Some st ->
  watchlist_invariant 1 (default (JArr []) (st !! KV.WATCHLIST)) ->
  addToWatchlist request e w = (Ok resp, w1) -> data resp = BAdded cid t ->
  removeFromWatchlist cid e w1 = (Ok resp2, w2) ->
  resp2 = jsonResponse BSuccess 200 e /\ GH_STORE_DIRTY w2 = false /\
  exists st2, GH_STORE w2 = Some st2 /\
    st2 !! KV.WATCHLIST = Some (default (JArr []) (st !! KV.WATCHLIST)).
Proof.
  intros Hst Hinv Hadd Hdata Hrem.
  (* the addition *)
  unfold addToWatchlist in Hadd. unfold bind at 1, lift in Hadd.
  destruct (body_cid (body request)) as [raw|err|]; try discriminate.
  unfold bind at 1 in Hadd.
  destruct (canonicalCID raw) as [[cid0|]|err|] eqn:Hcid; try discriminate.
  2:{ injection Hadd as <- <-. discriminate. }
  apply canonicalCID_output in Hcid.
  unfold bind at 1 in Hadd.
  destruct (isValidMember_loaded e cid0 w st Hst) as (b & wv & stv & Hv & Hstv & Hwv).
  rewrite Hv in Hadd.
  destruct b; simpl in Hadd; [|injection Hadd as <- <-; discriminate].
  unfold bind at 1 in Hadd. rewrite (kvGetJSON_loaded e wv stv _ _ Hstv), Hwv in Hadd.
  destruct Hinv as (l & Hl & Hcan & Hnd & Hsorted).
  rewrite Hl in Hadd |- *.
  unfold bind at 1, lift, strings_of in Hadd. simpl elements_of in Hadd.
  cbv beta iota in Hadd. rewrite strings_of_strings, (Set_of_NoDup l Hnd) in Hadd.
  destruct (bool_decide (cid0 ∈ l)) eqn:Hmem; [injection Hadd as <- <-; discriminate|].
  apply bool_decide_eq_false in Hmem.
  destruct (add_keeps_invariant 1 l cid0 (le_n 1) Hcan Hnd Hcid Hmem)
    as (nums & Hnums & l' & Hl' & _ & _ & Hsorted').
  rewrite Hnums in Hadd.
  injection Hl' as Hl'. apply (f_equal (fmap String_of)) in Hl'.
  rewrite !strings_of_strings in Hl'.
  assert (Hperm : l' ≡ₚ l ++ [cid0]).
  { destruct (numbers_of_canonical 1 (l ++ [cid0]) (le_n 1)) as (nums' & Hn' & Hback & _).
    { apply Forall_app. split; [exact Hcan|]. now constructor. }
    rewrite Hnums in Hn'. injection Hn' as <-.
    now rewrite <- Hl', (sort_numeric_perm nums), Hback. }
  rewrite Hl' in Hadd.
  apply bind_Ok_inv in Hadd as ([] & wp & Hput & Hadd).
  rewrite (kvPutJSON_loaded e _ _ wv stv Hstv) in Hput. injection Hput as <-.
  apply bind_Ok_inv in Hadd as ([] & wf & Hflush & Hadd).
  unfold bind, Date_now, read, ret in Hadd. injection Hadd as <- <-.
  simpl in Hdata. injection Hdata as -> _.
  eapply storeFlush_keeps in Hflush as (st1 & Hst1 & Hkeep); [|reflexivity].
  specialize (Hkeep _ _ (lookup_insert_eq _ _ _)).
  (* the removal *)
  unfold removeFromWatchlist in Hrem. unfold bind at 1 in Hrem.
  rewrite (kvGetJSON_loaded e wf st1 _ _ Hst1), Hkeep in Hrem.
  unfold bind at 1, lift in Hrem. simpl in Hrem.
  rewrite filter_strings, (filter_undoes_insert cid l l' Hsorted Hsorted' Hmem Hperm) in Hrem.
  apply Permutation_length in Hperm. rewrite length_app in Hperm. simpl in Hperm.
  rewrite !length_fmap, Hperm in Hrem.
  replace (Nat.eqb (length l) (length l + 1)) with false in Hrem
    by (symmetry; apply Nat.eqb_neq; lia).
  apply bind_Ok_inv in Hrem as ([] & wq & Hput & Hrem).
  rewrite (kvPutJSON_loaded e _ _ wf st1 Hst1) in Hput. injection Hput as <-.
  apply bind_Ok_inv in Hrem as ([] & wg & Hflush & Hrem).
  injection Hrem as <- <-.
  split; [reflexivity|]. split; [exact (storeFlush_clean _ _ _ _ Hflush)|].
  eapply storeFlush_keeps in Hflush as (st2 & Hst2 & Hkeep2); [|reflexivity].
  exists st2. split; [exact Hst2|]. apply Hkeep2, lookup_insert_eq.
Qed.

Lemma remove_undoes_add_witness :
  let w := Scenario.warm Scenario.watch_doc "v1" 5000 (Scenario.healthy Scenario.watch_doc) in
  let a := addToWatchlist (Scenario.post_cid (JStr "0200000")) Scenario.e0 w in
  let r := removeFromWatchlist "200000" Scenario.e0 a.2 in
  jsonResponse BSuccess 200 Scenario.e0 = jsonResponse BSuccess 200 Scenario.e0 /\
  GH_STORE_DIRTY r.2 = false /\
  exists st2, GH_STORE r.2 = Some st2 /\
    st2 !! KV.WATCHLIST = Some (default (JArr []) (Scenario.watch_doc !! KV.WATCHLIST)).
Proof.
  intros w a r.
  apply (remove_undoes_add Scenario.e0 (Scenario.post_cid (JStr "0200000")) w a.2 r.2
           Scenario.watch_doc (jsonResponse (BAdded "200000" 5080) 200 Scenario.e0)
           (jsonResponse BSuccess 200 Scenario.e0) "200000" 5080).
  - reflexivity.
  - exists ["123456"; "1000000"]. split; [reflexivity|]. split; [|split].
    + repeat constructor.
    + repeat constructor; rewrite ?elem_of_cons, ?elem_of_nil; intuition discriminate.
    + constructor; [constructor; constructor|].
      constructor; [|constructor]. exists 123456, 1000000. repeat split.
  - vm_compute. reflexivity.
  - reflexivity.
  - vm_compute. reflexivity.
Defined.

(** ** The marker of a quarter *)

Lemma Q_AUTO_inj (q q' : string) : KV.Q_AUTO q = KV.Q_AUTO q' -> q = q'.
Proof. unfold KV.Q_AUTO. cbv [String.append]. congruence. Qed.

Lemma Q_AUTO_not_state (q : string) : KV.STATE <> KV.Q_AUTO q.
Proof. unfold KV.Q_AUTO, KV.STATE. cbv [String.append]. discriminate. Qed.

Lemma Q_AUTO_not_cleanup (q : string) : KV.Q_AUTO q <> STORE_CLEANUP_KEY.
Proof. unfold KV.Q_AUTO, STORE_CLEANUP_KEY. cbv [String.append]. discriminate. Qed.

Lemma holds_update (key : string) (v : json) (f : world -> world) :
  (forall w, GH_STORE (f w) = GH_STORE w) -> keeps (holds key v) (update f).
Proof. intros Hf w o w' [= _ <-]. apply holds_memory, Hf. Qed.

Lemma holds_getOnlineMap (key : string) (v : json) : keeps (holds key v) getOnlineMap.
Proof.
  intros w o w' Hrun. destruct (getOnlineMap_run w) as (p & w1 & Hp & (Hm & _) & _).
  rewrite Hp in Hrun. injection Hrun as _ <-. now apply holds_memory.
Qed.

Lemma holds_kvGetJSON (key : string) (v : json) (e : env) (k : string) (fb : json) :
  keeps (holds key v) (kvGetJSON e k fb).
Proof. unfold kvGetJSON. auto 10 with frame. Qed.

Lemma holds_runPresence (q : string) (v : json) (e : env) :
  keeps (holds (KV.Q_AUTO q) v) (runPresence e).
Proof.
  pose proof (holds_getOnlineMap (KV.Q_AUTO q) v).
  pose proof (fun k fb => holds_kvGetJSON (KV.Q_AUTO q) v e k fb).
  assert (forall x, keeps (holds (KV.Q_AUTO q) v) (kvPutJSON e KV.STATE x)).
  { intros x. unfold kvPutJSON. apply (keeps_bind (holds _ _)); [auto with frame|].
    intros _. apply holds_storeSet, Q_AUTO_not_state. }
  unfold runPresence. auto 30 with frame.
Qed.

Lemma holds_maybeCleanupStore (q : string) (at_ : Z) (e : env) :
  keeps (holds (KV.Q_AUTO q) (quarter_marker at_)) (maybeCleanupStore e).
Proof.
  intros w o w' Hrun (st & Hst & Hk).
  destruct (maybeCleanupStore_in_memory e w st Hst) as (r & w1 & st1 & Hc & _ & Hst1 & _ & _ & Hkept).
  rewrite Hc in Hrun. injection Hrun as _ <-. exists st1. split; [exact Hst1|].
  apply Hkept; [exact Hk | apply Q_AUTO_not_cleanup |].
  unfold sweeps. destruct (String.eqb _ STORE_CLEANUP_KEY); reflexivity.
Qed.

(** The trigger on a document that has the marker of [q]: it writes
    under another quarter's key or not at all. *)
Lemma holds_trigger (q : string) (v : json) (e : env) :
  truthy v = true -> keeps (holds (KV.Q_AUTO q) v) (maybeStartQuarterlyVisiting e).
Proof.
  intros Hv w o w' Hrun (st & Hst & Hk). unfold maybeStartQuarterlyVisiting in Hrun.
  unfold bind at 1, Date_now, read in Hrun.
  destruct (negb (isQuarterStart (clock w)));
    [cbv beta iota delta [ret] in Hrun; injection Hrun as _ <-; eauto|].
  unfold bind at 1 in Hrun. rewrite (kvGetJSON_loaded e w st _ _ Hst) in Hrun.
  destruct (decide (quarterKeyForPrev (clock w) = q)) as [Hq|Hq].
  - rewrite Hq, Hk in Hrun. change (default JNull (Some v)) with v in Hrun.
    rewrite Hv in Hrun. cbv beta iota delta [ret] in Hrun. injection Hrun as _ <-. eauto.
  - destruct (truthy (default JNull (st !! KV.Q_AUTO (quarterKeyForPrev (clock w)))));
      [cbv beta iota delta [ret] in Hrun; injection Hrun as _ <-; eauto|].
    unfold bind at 1, ts, bind at 1, Date_now, read, ret in Hrun.
    rewrite (kvPutJSON_loaded e _ _ w st Hst) in Hrun. injection Hrun as _ <-.
    eexists. split; [reflexivity|]. rewrite lookup_insert_ne; [exact Hk|].
    intros Heq. apply Hq. now apply Q_AUTO_inj.
Qed.

(** X25. The quarterly trigger fires once. With the marker of a quarter
    in memory, no part of a scheduled tick takes it away or changes it:
    the cleanup does not sweep it, the presence run and the flush (a
    merge with the remote document included) leave it, and the trigger
    writes under the key of another quarter or not at all. So it is
    still there when the tick is over, however the tick ends; and while
    it is there, a trigger that computes the same quarter returns
    without writing, at a quarter start as at any other time. *)
Theorem quarterly_trigger_fires_once (e : env) (q : string) (at_ : Z) (w : world)
    (st : gmap string json) :
  GH_STORE w = Some st -> st !! KV.Q_AUTO q = Some (quarter_marker at_) ->
  (exists st', GH_STORE (scheduled e w).2 = Some st' /\
     st' !! KV.Q_AUTO q = Some (quarter_marker at_)) /\
  (quarterKeyForPrev (clock w) = q -> maybeStartQuarterlyVisiting e w = (Ok tt, w)).
Proof.
  intros Hst Hk. split.
  - assert (Hkeeps : keeps (holds (KV.Q_AUTO q) (quarter_marker at_)) (scheduled e)).
    { pose proof (holds_maybeCleanupStore q at_ e).
      pose proof (holds_runPresence q (quarter_marker at_) e).
      pose proof (holds_trigger q (quarter_marker at_) e eq_refl).
      pose proof (fun k fb => holds_kvGetJSON (KV.Q_AUTO q) (quarter_marker at_) e k fb).
      unfold scheduled, resetBudgets.
      apply (keeps_bind (holds _ _)); [apply holds_update; reflexivity|]. intros _.
      unfold handleScheduled, tickAudit. auto 40 with frame. }
    destruct (scheduled e w) as [o w'] eqn:Hrun. apply (Hkeeps _ _ _ Hrun). eauto.
  - intros Hq. unfold maybeStartQuarterlyVisiting, bind at 1, Date_now, read.
    destruct (negb (isQuarterStart (clock w))); [reflexivity|].
    unfold bind at 1. rewrite (kvGetJSON_loaded e w st _ _ Hst), Hq, Hk. reflexivity.
Qed.

Lemma quarterly_trigger_fires_once_witness :
  let e := Scenario.e0 in
  let q := "2023Q4" in
  let st := <[KV.Q_AUTO q := quarter_marker 1704067200]> Scenario.watch_doc in
  let w := Scenario.warm st "v1" 1704067800000 (Scenario.healthy st) in
  (exists st', GH_STORE (scheduled e w).2 = Some st' /\
     st' !! KV.Q_AUTO q = Some (quarter_marker 1704067200)) /\
  (quarterKeyForPrev (clock w) = q -> maybeStartQuarterlyVisiting e w = (Ok tt, w)).
Proof.
  intros e q st w.
  apply (quarterly_trigger_fires_once e q 1704067200 w st); reflexivity.
Defined.
